(** * otclient: the draw-pool batcher (drawpool.cpp) and the tile's
    completely-covered cache (tile.h)

    A shallow embedding of [DrawPool] and of
    [Tile::setCompletelyCoveredCache], with the properties of the
    specification stated over it.

    Conventions.
    - C++ integers are [Z]; a [uint16] result is reduced modulo [2^16]
      where the source stores one.
    - [float] is Rocq's primitive binary64 float; every binary32 value is
      one of its values and [<] agrees on them.
    - A possibly-null pointer is an [option]; dereferencing a null one, or
      moving an iterator past the end, is an [Err] of the [result] type.
    - The pool table [m_pools] is a list, the current pool an index into
      it: [m_currentPool] aliases one entry of the table, so a write
      through it is an update of the table at that index.
    - What [draw] sends to the painter and to the framebuffers is a list
      of [event]s. *)

From Stdlib Require Import ZArith List Bool Lia.
From Stdlib Require Import Floats.PrimFloat.
From stdpp Require Import base numbers option list relations.

Local Open Scope Z_scope.

(** ** Errors *)

Inductive error : Type :=
| NullTextureSize (* [texture->getSize()] on a null [TexturePtr] *)
| NullTextureScan (* [texture->isOpaque()] or [texture->canSuperimposed()]
                     on a null texture, in the removal scan of [add] *)
| NullPool       (* [m_currentPool->...] with no such pool *)
| BadIterator    (* [begin() + startIndex] beyond [end()] *)
| OutOfBounds.   (* [std::array::operator[]] past the last element *)

Inductive result (A : Type) : Type :=
| Ok (a : A)
| Err (e : error).
Arguments Ok {A} a.
Arguments Err {A} e.

#[global] Instance result_ret : MRet result := fun A a => Ok a.
#[global] Instance result_bind : MBind result := fun A B f m =>
  match m with
  | Ok a => f a
  | Err e => Err e
  end.

(** ** Tile: the completely-covered cache (tile.h) *)

Module Tile.

Definition UINT8_MAX : Z := 255.

(** The two members [setCompletelyCoveredCache] touches.  The array has
    [Otc::MAX_Z + 1] entries; the model keeps it as a list of that
    length. *)
Record Tile : Type := {
  m_currentFirstVisibleFloor : Z;
  m_completelyCoveredCache : list Z
}.

(** [std::array::fill]. *)
Definition fill (v : Z) (a : list Z) : list Z := replicate (length a) v.

(** [a[i] = v]: unchecked in C++, so an index outside the array is an
    error here. *)
Definition array_set (a : list Z) (i v : Z) : result (list Z) :=
  if (0 <=? i) && (i <? Z.of_nat (length a))
  then Ok (<[Z.to_nat i := v]> a)
  else Err OutOfBounds.

Definition setCompletelyCoveredCache (state : Z) (t : Tile) : result Tile :=
  if state =? 0 then
    Ok {| m_currentFirstVisibleFloor := m_currentFirstVisibleFloor t;
          m_completelyCoveredCache := fill 0 (m_completelyCoveredCache t) |}
  else if negb (m_currentFirstVisibleFloor t =? UINT8_MAX) then
    a ← array_set (m_completelyCoveredCache t) (m_currentFirstVisibleFloor t) state;
    mret {| m_currentFirstVisibleFloor := m_currentFirstVisibleFloor t;
            m_completelyCoveredCache := a |}
  else Ok t.

(** Entry [i] of the cache. *)
Definition entry (t : Tile) (i : nat) : option Z := m_completelyCoveredCache t !! i.

End Tile.

(** ** Tile: flags, house id, ground and the covered cache (tile.h)

    The inline member functions of [Tile] on [m_flags], [m_houseId],
    [m_ground], [m_countFlag] and [m_coveredCache].  A [uint32] is a [Z]
    in [0, 2^32); [~flag] on a [uint32] is the complement within 32
    bits. *)

Module TileState.

Definition uint32 (x : Z) : Prop := 0 <= x < 2 ^ 32.

Inductive tileflags_t : Type :=
| TILESTATE_NONE
| TILESTATE_PROTECTIONZONE
| TILESTATE_TRASHED
| TILESTATE_OPTIONALZONE
| TILESTATE_NOLOGOUT
| TILESTATE_HARDCOREZONE
| TILESTATE_REFRESH
| TILESTATE_HOUSE
| TILESTATE_TELEPORT
| TILESTATE_MAGICFIELD
| TILESTATE_MAILBOX
| TILESTATE_TRASHHOLDER
| TILESTATE_BED
| TILESTATE_DEPOT
| TILESTATE_TRANSLUECENT_LIGHT
| TILESTATE_LAST.

(** The enumerators' values. *)
Definition flagValue (f : tileflags_t) : Z :=
  match f with
  | TILESTATE_NONE => 0
  | TILESTATE_PROTECTIONZONE => Z.shiftl 1 0
  | TILESTATE_TRASHED => Z.shiftl 1 1
  | TILESTATE_OPTIONALZONE => Z.shiftl 1 2
  | TILESTATE_NOLOGOUT => Z.shiftl 1 3
  | TILESTATE_HARDCOREZONE => Z.shiftl 1 4
  | TILESTATE_REFRESH => Z.shiftl 1 5
  | TILESTATE_HOUSE => Z.shiftl 1 6
  | TILESTATE_TELEPORT => Z.shiftl 1 17
  | TILESTATE_MAGICFIELD => Z.shiftl 1 18
  | TILESTATE_MAILBOX => Z.shiftl 1 19
  | TILESTATE_TRASHHOLDER => Z.shiftl 1 20
  | TILESTATE_BED => Z.shiftl 1 21
  | TILESTATE_DEPOT => Z.shiftl 1 22
  | TILESTATE_TRANSLUECENT_LIGHT => Z.shiftl 1 23
  | TILESTATE_LAST => Z.shiftl 1 24
  end.

(** An item as the tile sees it: the one query the inline functions
    make of [m_ground]. *)
Record Item : Type := mkItem { Item_isTopGround : bool }.

(** The members of [CountFlag] the inline functions below read. *)
Record CountFlag : Type := mkCountFlag {
  hasCreature : Z;
  hasCommonItem : Z;
  hasTopItem : Z;
  hasBottomItem : Z;
  hasGroundBorder : Z
}.

(** The members the functions below touch; [cache] holds
    [m_currentFirstVisibleFloor] and [m_completelyCoveredCache].
    [m_effects] and [m_walkingCreatures] are kept as the lists of the
    handles they hold. *)
Record Tile : Type := mkTile {
  cache : Tile.Tile;
  m_coveredCache : list Z;
  m_flags : Z;
  m_houseId : Z;
  m_ground : option Item;
  m_effects : list nat;
  m_walkingCreatures : list nat;
  m_countFlag : CountFlag
}.

Definition set_flags (flags : Z) (t : Tile) : Tile :=
  mkTile (cache t) (m_coveredCache t) flags (m_houseId t) (m_ground t) (m_effects t)
         (m_walkingCreatures t) (m_countFlag t).

Definition set_cache (c : Tile.Tile) (t : Tile) : Tile :=
  mkTile c (m_coveredCache t) (m_flags t) (m_houseId t) (m_ground t) (m_effects t)
         (m_walkingCreatures t) (m_countFlag t).

(** [~flag] on a [uint32]. *)
Definition not32 (flag : Z) : Z := Z.lnot flag mod 2 ^ 32.

Definition remFlag (flag : Z) (t : Tile) : Tile :=
  set_flags (Z.land (m_flags t) (not32 flag)) t.

Definition setFlag (flag : Z) (t : Tile) : Tile :=
  set_flags (Z.lor (m_flags t) flag) t.

Definition setFlags (flags : Z) (t : Tile) : Tile := set_flags flags t.

Definition hasFlag (flag : Z) (t : Tile) : bool := Z.land (m_flags t) flag =? flag.

Definition getFlags (t : Tile) : Z := m_flags t.

Definition setHouseId (hid : Z) (t : Tile) : Tile :=
  mkTile (cache t) (m_coveredCache t) (m_flags t) hid (m_ground t) (m_effects t)
         (m_walkingCreatures t) (m_countFlag t).

Definition getHouseId (t : Tile) : Z := m_houseId t.

Definition isHouseTile (t : Tile) : bool :=
  negb (m_houseId t =? 0)
  && (Z.land (m_flags t) (flagValue TILESTATE_HOUSE) =? flagValue TILESTATE_HOUSE).

(** The [uint32] is converted to [bool]: true when it is not 0. *)
Definition hasTranslucentLight (t : Tile) : bool :=
  negb (Z.land (m_flags t) (flagValue TILESTATE_TRANSLUECENT_LIGHT) =? 0).

(** An [int] counter used as a condition. *)
Definition nonzero (n : Z) : bool := negb (n =? 0).

Definition empty {A : Type} (l : list A) : bool :=
  match l with
  | [] => true
  | _ :: _ => false
  end.

Definition hasGroundBorderToDraw (t : Tile) : bool :=
  nonzero (hasGroundBorder (m_countFlag t))
  && match m_ground t with
     | None => true
     | Some ground => negb (Item_isTopGround ground)
     end.

Definition hasBottomOrTopToDraw (t : Tile) : bool :=
  nonzero (hasTopItem (m_countFlag t))
  || negb (empty (m_effects t))
  || nonzero (hasBottomItem (m_countFlag t))
  || nonzero (hasCommonItem (m_countFlag t))
  || nonzero (hasCreature (m_countFlag t))
  || negb (empty (m_walkingCreatures t))
  || match m_ground t with
     | Some ground => Item_isTopGround ground
     | None => false
     end.

Definition hasGround (t : Tile) : bool :=
  match m_ground t with
  | Some ground => negb (Item_isTopGround ground)
  | None => false
  end.

Definition hasAnyGround (t : Tile) : bool :=
  match m_ground t with
  | Some _ => true
  | None => false
  end.

(** [a[i]]: unchecked in C++, so an index outside the array is an error
    here. *)
Definition array_get (a : list Z) (i : Z) : result Z :=
  if (0 <=? i) && (i <? Z.of_nat (length a))
  then match a !! Z.to_nat i with
       | Some v => Ok v
       | None => Err OutOfBounds
       end
  else Err OutOfBounds.

Definition isCovered (t : Tile) : result bool :=
  v ← array_get (m_coveredCache t) (Tile.m_currentFirstVisibleFloor (cache t));
  mret (v =? 1).

(** [setCompletelyCoveredCache] on the whole tile. *)
Definition setCompletelyCoveredCache (state : Z) (t : Tile) : result Tile :=
  c ← Tile.setCompletelyCoveredCache state (cache t);
  mret (set_cache c t).

End TileState.

(** ** Framework value types

    Modelled from the spec: the geometry and colour value types of the
    framework (point.h, rect.h, color.h are not in the excerpt).  A point
    is a pair of ints and is null at the origin; a rect is two corners,
    [Rect()] being the empty rect whose second corner lies one before
    the first. *)

Record Point : Type := mkPoint { px : Z; py : Z }.

Definition Point_null : Point := mkPoint 0 0.

Definition point_isNull (p : Point) : bool := (px p =? 0) && (py p =? 0).

Definition point_eqb (a b : Point) : bool := (px a =? px b) && (py a =? py b).

#[global] Instance Point_eq_dec : EqDecision Point.
Proof. solve_decision. Defined.

Record Size : Type := mkSize { width : Z; height : Z }.

Record Rect : Type := mkRect { x1 : Z; y1 : Z; x2 : Z; y2 : Z }.

Definition Rect_null : Rect := mkRect 0 0 (-1) (-1).

(** [Rect(topLeft, size)]. *)
Definition Rect_of (p : Point) (s : Size) : Rect :=
  mkRect (px p) (py p) (px p + width s - 1) (py p + height s - 1).

Definition rect_isEmpty (r : Rect) : bool := (x1 r >? x2 r) || (y1 r >? y2 r).

Definition rect_isValid (r : Rect) : bool := (x1 r <=? x2 r) && (y1 r <=? y2 r).

Definition rect_eqb (a b : Rect) : bool :=
  (x1 a =? x1 b) && (y1 a =? y1 b) && (x2 a =? x2 b) && (y2 a =? y2 b).

Record Color : Type := mkColor { rgba : Z }.

Definition Color_white : Color := mkColor 4294967295.

Definition color_eqb (a b : Color) : bool := rgba a =? rgba b.

(** A texture object as the batcher sees it: its address (the identity
    of the [TexturePtr] that points to it) and the four queries the
    batcher makes. *)
Record Texture : Type := mkTexture {
  tex_addr : Z;
  getId : Z;
  getSize : Size;
  isOpaque : bool;
  canSuperimposed : bool
}.

(** [TexturePtr]: [None] is the null pointer. *)
Definition TexturePtr : Type := option Texture.

(** Pointer comparison of two [TexturePtr]s. *)
Definition texture_eqb (a b : TexturePtr) : bool :=
  match a, b with
  | None, None => true
  | Some t, Some u => tex_addr t =? tex_addr u
  | _, _ => false
  end.

(** [PainterShaderProgram*], by address. *)
Definition ShaderProgramPtr : Type := option Z.

Definition shader_eqb (a b : ShaderProgramPtr) : bool :=
  match a, b with
  | None, None => true
  | Some t, Some u => t =? u
  | _, _ => false
  end.

(** [std::function<void()>]: a handle on the callable; [None] is the
    empty function. *)
Definition Action : Type := option nat.

(** ** Painter *)

Module Painter.

Inductive CompositionMode : Type :=
| CompositionMode_Normal
| CompositionMode_Light
| CompositionMode_Other (n : Z).

Definition compositionMode_eqb (a b : CompositionMode) : bool :=
  match a, b with
  | CompositionMode_Normal, CompositionMode_Normal => true
  | CompositionMode_Light, CompositionMode_Light => true
  | CompositionMode_Other n, CompositionMode_Other m => n =? m
  | _, _ => false
  end.

Inductive DrawMode : Type :=
| None_
| Triangles
| TriangleStrip.

(** The members of [Painter::PainterState] that drawpool.cpp reads or
    writes. *)
Record PainterState : Type := mkPainterState {
  clipRect : Rect;
  compositionMode : CompositionMode;
  opacity : float;
  alphaWriting : bool;
  shaderProgram : ShaderProgramPtr;
  color : Color;
  texture : TexturePtr
}.

Definition set_color (c : Color) (s : PainterState) : PainterState :=
  mkPainterState (clipRect s) (compositionMode s) (opacity s) (alphaWriting s)
                 (shaderProgram s) c (texture s).

Definition set_texture (t : TexturePtr) (s : PainterState) : PainterState :=
  mkPainterState (clipRect s) (compositionMode s) (opacity s) (alphaWriting s)
                 (shaderProgram s) (color s) t.

Definition set_alphaWriting (b : bool) (s : PainterState) : PainterState :=
  mkPainterState (clipRect s) (compositionMode s) (opacity s) b
                 (shaderProgram s) (color s) (texture s).

Definition set_shaderProgram (sh : ShaderProgramPtr) (s : PainterState) : PainterState :=
  mkPainterState (clipRect s) (compositionMode s) (opacity s) (alphaWriting s)
                 sh (color s) (texture s).

(** Modelled from the spec: [PainterState::operator==] (painter.h is not
    in the excerpt).  Two states are equal under value equality of the
    fields relevant to batching: texture identity, color, clip,
    composition, opacity, shader. *)
Definition state_eqb (a b : PainterState) : bool :=
  texture_eqb (texture a) (texture b)
  && color_eqb (color a) (color b)
  && rect_eqb (clipRect a) (clipRect b)
  && compositionMode_eqb (compositionMode a) (compositionMode b)
  && PrimFloat.eqb (opacity a) (opacity b)
  && shader_eqb (shaderProgram a) (shaderProgram b).

End Painter.

(** ** Pool and FramedPool (the members drawpool.cpp uses) *)

Module Pool.

Inductive DrawMethodType : Type :=
| DRAW_FILLED_RECT
| DRAW_REPEATED_FILLED_RECT
| DRAW_TEXTURED_RECT
| DRAW_REPEATED_TEXTURED_RECT
| DRAW_REPEATED_TEXTURED_REPEATED_RECT
| DRAW_UPSIDEDOWN_TEXTURED_RECT
| DRAW_FILLED_TRIANGLE
| DRAW_BOUNDING_RECT.

Record DrawMethod : Type := mkDrawMethod {
  type : DrawMethodType;
  rects : Rect * Rect;
  points : Point * Point * Point;
  dest : Point;
  intValue : Z;
  hash : Z
}.

(** [Pool::DrawMethod method{ type }]: every other member has its default
    value. *)
Definition DrawMethod_init (t : DrawMethodType) : DrawMethod :=
  mkDrawMethod t (Rect_null, Rect_null) (Point_null, Point_null, Point_null)
               Point_null 0 0.

Definition set_rects (r : Rect * Rect) (m : DrawMethod) : DrawMethod :=
  mkDrawMethod (type m) r (points m) (dest m) (intValue m) (hash m).

Definition set_points (p : Point * Point * Point) (m : DrawMethod) : DrawMethod :=
  mkDrawMethod (type m) (rects m) p (dest m) (intValue m) (hash m).

Definition set_dest (p : Point) (m : DrawMethod) : DrawMethod :=
  mkDrawMethod (type m) (rects m) (points m) p (intValue m) (hash m).

Definition set_intValue (v : Z) (m : DrawMethod) : DrawMethod :=
  mkDrawMethod (type m) (rects m) (points m) (dest m) v (hash m).

Record DrawObject : Type := mkDrawObject {
  state : Painter.PainterState;
  drawMode : Painter.DrawMode;
  drawMethods : list DrawMethod;
  action : Action
}.

(** What a [FramedPool] adds to a [Pool].  [m_status] is the pair
    (committed hash, running hash). *)
Record FramedPool : Type := mkFramedPool {
  m_status : Z * Z;
  m_autoUpdate : bool;
  m_dest : Rect;
  m_src : Rect;
  m_beforeDraw : Action;
  m_afterDraw : Action
}.

(** A pool; [framed] is the [FramedPool] part of the object, present
    exactly when the pool owns a framebuffer. *)
Record Pool : Type := mkPool {
  m_objects : list DrawObject;
  m_state : Painter.PainterState;
  m_enabled : bool;
  m_indexToStartSearching : Z;
  framed : option FramedPool
}.

Definition set_objects (l : list DrawObject) (p : Pool) : Pool :=
  mkPool l (m_state p) (m_enabled p) (m_indexToStartSearching p) (framed p).

Definition set_state (s : Painter.PainterState) (p : Pool) : Pool :=
  mkPool (m_objects p) s (m_enabled p) (m_indexToStartSearching p) (framed p).

Definition set_framed (f : FramedPool) (p : Pool) : Pool :=
  mkPool (m_objects p) (m_state p) (m_enabled p) (m_indexToStartSearching p) (Some f).

Definition set_status (s : Z * Z) (f : FramedPool) : FramedPool :=
  mkFramedPool s (m_autoUpdate f) (m_dest f) (m_src f) (m_beforeDraw f) (m_afterDraw f).

Definition set_autoUpdate (b : bool) (f : FramedPool) : FramedPool :=
  mkFramedPool (m_status f) b (m_dest f) (m_src f) (m_beforeDraw f) (m_afterDraw f).

Definition set_dest_src (d s : Rect) (f : FramedPool) : FramedPool :=
  mkFramedPool (m_status f) (m_autoUpdate f) d s (m_beforeDraw f) (m_afterDraw f).

(** Modelled from the spec: [Pool::hasFrameBuffer] (pool.h is not in the
    excerpt): whether the pool owns a framebuffer. *)
Definition hasFrameBuffer (p : Pool) : bool :=
  match framed p with
  | Some _ => true
  | None => false
  end.

(** Modelled from the spec: [Pool::isEnabled] (pool.h is not in the
    excerpt): the enabled flag. *)
Definition isEnabled (p : Pool) : bool := m_enabled p.

(** Modelled from the spec: [FramedPool::hasModification] (pool.h is not
    in the excerpt).  The cached image is valid only while the running
    hash equals the committed hash and auto-update is false. *)
Definition hasModification (f : FramedPool) : bool :=
  negb (fst (m_status f) =? snd (m_status f)) || m_autoUpdate f.

(** Modelled from the spec: [FramedPool::updateStatus] (pool.h is not in
    the excerpt): promote the running hash to committed. *)
Definition updateStatus (f : FramedPool) : FramedPool :=
  set_status (snd (m_status f), snd (m_status f)) f.

(** Modelled from the spec: [FramedPool::resetCurrentStatus] (pool.h is
    not in the excerpt): clear the running hash accumulator. *)
Definition resetCurrentStatus (f : FramedPool) : FramedPool :=
  set_status (fst (m_status f), 0) f.

End Pool.

(** ** What the batcher takes from outside

    [boost::hash_combine] (as the function from the old seed and the
    value to the new seed), the two [std::hash] objects, the [hash()]
    members of [Rect] and [Point], the integer value of a composition
    mode, the default [drawMode] argument of [add] and [addRepeated]
    declared in drawpool.h, the clean baseline state that
    [Pool::resetState] installs, and the value-initialised state
    [PainterState{}]. *)

Class Externals : Type := {
  hash_combine : Z -> Z -> Z;
  HASH_INT : Z -> Z;
  HASH_FLOAT : float -> Z;
  rect_hash : Rect -> Z;
  point_hash : Point -> Z;
  compositionMode_value : Painter.CompositionMode -> Z;
  defaultDrawMode : Painter.DrawMode;
  baseState : Painter.PainterState;
  emptyState : Painter.PainterState
}.

(** ** DrawPool (drawpool.cpp) *)

Module DrawPool.

(** [m_pools] is the table of pools, [m_currentPool] and [n_unknowPool]
    are positions in it; a position outside the table is the null
    pointer. *)
Record DrawPool : Type := mkDrawPool {
  m_pools : list Pool.Pool;
  m_currentPool : nat;
  n_unknowPool : nat
}.

Definition set_pools (l : list Pool.Pool) (d : DrawPool) : DrawPool :=
  mkDrawPool l (m_currentPool d) (n_unknowPool d).

Definition currentPool (d : DrawPool) : result Pool.Pool :=
  match m_pools d !! m_currentPool d with
  | Some p => Ok p
  | None => Err NullPool
  end.

Definition setCurrentPool (p : Pool.Pool) (d : DrawPool) : DrawPool :=
  set_pools (<[m_currentPool d := p]> (m_pools d)) d.

(** Run a member function body on [*m_currentPool]. *)
Definition withCurrentPool (f : Pool.Pool -> result Pool.Pool) (d : DrawPool)
  : result DrawPool :=
  p ← currentPool d;
  p' ← f p;
  mret (setCurrentPool p' d).

(** [texture->...]; [e] names the place of the dereference. *)
Definition deref (e : error) (t : TexturePtr) : result Texture :=
  match t with
  | Some tex => Ok tex
  | None => Err e
  end.

(** What [draw] does to the painter and the framebuffers, in order. *)
Inductive event : Type :=
| EvBind (pool : nat)
| EvDrawObject (pool : nat) (obj : Pool.DrawObject)
| EvRelease (pool : nat)
| EvSaveAndResetState
| EvCall (pool : nat) (f : nat)
| EvFramebufferDraw (pool : nat) (dest src : Rect)
| EvRestoreSavedState.

Section WithExternals.
Context {E : Externals}.

(** *** updateHash *)

Definition updateHash_pool (state : Painter.PainterState) (method : Pool.DrawMethod)
    (p : Pool.Pool) : Pool.Pool :=
  match Pool.framed p with
  | None => p
  | Some pf =>
    let hash := 0 in
    let hash :=
      match Painter.texture state with
      | Some t => hash_combine hash (HASH_INT (getId t))
      | None => hash
      end in
    let hash :=
      if PrimFloat.ltb (Painter.opacity state) 1%float
      then hash_combine hash (HASH_FLOAT (Painter.opacity state)) else hash in
    let hash :=
      if negb (color_eqb (Painter.color state) Color_white)
      then hash_combine hash (HASH_INT (rgba (Painter.color state))) else hash in
    let hash :=
      if negb (Painter.compositionMode_eqb (Painter.compositionMode state)
                                           Painter.CompositionMode_Normal)
      then hash_combine hash (HASH_INT (compositionMode_value (Painter.compositionMode state)))
      else hash in
    let pf :=
      match Painter.shaderProgram state with
      | Some _ => Pool.set_autoUpdate true pf
      | None => pf
      end in
    let hash :=
      if rect_isValid (Painter.clipRect state)
      then hash_combine hash (rect_hash (Painter.clipRect state)) else hash in
    let hash :=
      if rect_isValid (fst (Pool.rects method))
      then hash_combine hash (rect_hash (fst (Pool.rects method))) else hash in
    let hash :=
      if rect_isValid (snd (Pool.rects method))
      then hash_combine hash (rect_hash (snd (Pool.rects method))) else hash in
    let '(a, b, c) := Pool.points method in
    let hash := if negb (point_isNull a) then hash_combine hash (point_hash a) else hash in
    let hash := if negb (point_isNull b) then hash_combine hash (point_hash b) else hash in
    let hash := if negb (point_isNull c) then hash_combine hash (point_hash c) else hash in
    let hash :=
      if negb (Pool.intValue method =? 0)
      then hash_combine hash (HASH_INT (Pool.intValue method)) else hash in
    let hash :=
      if negb (Pool.hash method =? 0)
      then hash_combine hash (Pool.hash method) else hash in
    Pool.set_framed
      (Pool.set_status (fst (Pool.m_status pf), hash_combine (snd (Pool.m_status pf)) hash) pf)
      p
  end.

Definition updateHash (state : Painter.PainterState) (method : Pool.DrawMethod)
  : DrawPool -> result DrawPool :=
  withCurrentPool (fun p => Ok (updateHash_pool state method p)).

(** *** addRepeated *)

(** [std::find_if]: the position of the first element that satisfies
    [f]. *)
Fixpoint find_if {A : Type} (f : A -> bool) (l : list A) : option nat :=
  match l with
  | [] => None
  | a :: l' => if f a then Some O else S <$> find_if f l'
  end.

Definition push_back_method (method : Pool.DrawMethod) (obj : Pool.DrawObject)
  : Pool.DrawObject :=
  Pool.mkDrawObject (Pool.state obj) (Pool.drawMode obj)
                    (Pool.drawMethods obj ++ [method]) (Pool.action obj).

(** [{ state, drawMode, {method} }]. *)
Definition newObject (state : Painter.PainterState) (drawMode : Painter.DrawMode)
    (method : Pool.DrawMethod) : Pool.DrawObject :=
  Pool.mkDrawObject state drawMode [method] None.

Definition startIndex (p : Pool.Pool) : Z :=
  (if Pool.m_indexToStartSearching p =? 0 then 0
   else Pool.m_indexToStartSearching p - 1) mod 65536.

Definition addRepeated_pool (state : Painter.PainterState) (method : Pool.DrawMethod)
    (drawMode : Painter.DrawMode) (p : Pool.Pool) : result Pool.Pool :=
  let p := updateHash_pool state method p in
  let start := Z.to_nat (startIndex p) in
  if (start <=? length (Pool.m_objects p))%nat then
    match find_if (fun action => Painter.state_eqb (Pool.state action) state)
                  (drop start (Pool.m_objects p)) with
    | Some k =>
      Ok (Pool.set_objects
            (alter (push_back_method method) (start + k)%nat (Pool.m_objects p)) p)
    | None =>
      Ok (Pool.set_objects (Pool.m_objects p ++ [newObject state drawMode method]) p)
    end
  else Err BadIterator.

Definition addRepeated (state : Painter.PainterState) (method : Pool.DrawMethod)
    (drawMode : Painter.DrawMode) : DrawPool -> result DrawPool :=
  withCurrentPool (addRepeated_pool state method drawMode).

(** [obj], at position [k], is the first object from position [start] on
    whose state equals [state]. *)
Definition firstMatch (state : Painter.PainterState) (start : nat)
    (objects : list Pool.DrawObject) (k : nat) (obj : Pool.DrawObject) : Prop :=
  objects !! k = Some obj
  /\ (start <= k)%nat
  /\ Painter.state_eqb (Pool.state obj) state = true
  /\ forall j o, (start <= j)%nat -> (j < k)%nat -> objects !! j = Some o ->
                 Painter.state_eqb (Pool.state o) state = false.

(** No object from position [start] on has a state equal to [state]. *)
Definition noMatch (state : Painter.PainterState) (start : nat)
    (objects : list Pool.DrawObject) : Prop :=
  forall j o, (start <= j)%nat -> objects !! j = Some o ->
              Painter.state_eqb (Pool.state o) state = false.

(** *** add *)

(** The condition of the removal scan, with C++'s left-to-right
    short-circuit evaluation. *)
Definition hides (state prevState : Painter.PainterState) (sameState : bool)
    (method prevMtd : Pool.DrawMethod) : result bool :=
  if point_eqb (Pool.dest prevMtd) (Pool.dest method) then
    if sameState && rect_eqb (snd (Pool.rects prevMtd)) (snd (Pool.rects method))
    then Ok true
    else
      t ← deref NullTextureScan (Painter.texture state);
      if isOpaque t then
        pt ← deref NullTextureScan (Painter.texture prevState);
        mret (canSuperimposed pt)
      else Ok false
  else Ok false.

(** The scan itself: erase the first method the condition holds for and
    stop. *)
Fixpoint eraseHidden (state prevState : Painter.PainterState) (sameState : bool)
    (method : Pool.DrawMethod) (methods : list Pool.DrawMethod)
  : result (list Pool.DrawMethod) :=
  match methods with
  | [] => Ok []
  | prevMtd :: rest =>
    b ← hides state prevState sameState method prevMtd;
    if b : bool then Ok rest
    else
      rest' ← eraseHidden state prevState sameState method rest;
      mret (prevMtd :: rest')
  end.

Definition add_pool (state : Painter.PainterState) (method : Pool.DrawMethod)
    (drawMode : Painter.DrawMode) (p : Pool.Pool) : result Pool.Pool :=
  let p := updateHash_pool state method p in
  let list := Pool.m_objects p in
  match last list with
  | Some prevObj =>
    let sameState := Painter.state_eqb (Pool.state prevObj) state in
    methods ←
      (if negb (point_isNull (Pool.dest method))
       then eraseHidden state (Pool.state prevObj) sameState method (Pool.drawMethods prevObj)
       else Ok (Pool.drawMethods prevObj));
    if sameState then
      Ok (Pool.set_objects
            (removelast list ++
             [Pool.mkDrawObject (Pool.state prevObj) Painter.Triangles
                                (methods ++ [method]) (Pool.action prevObj)]) p)
    else
      Ok (Pool.set_objects
            (removelast list ++
             [Pool.mkDrawObject (Pool.state prevObj) (Pool.drawMode prevObj)
                                methods (Pool.action prevObj)] ++
             [newObject state drawMode method]) p)
  | None => Ok (Pool.set_objects (list ++ [newObject state drawMode method]) p)
  end.

Definition add (state : Painter.PainterState) (method : Pool.DrawMethod)
    (drawMode : Painter.DrawMode) : DrawPool -> result DrawPool :=
  withCurrentPool (add_pool state method drawMode).

(** What the scan's condition comes to when both textures are bound:
    [t] is the texture of the new state, [pt] the texture of the
    trailing object. *)
Definition hidden (t pt : Texture) (sameState : bool) (method prevMtd : Pool.DrawMethod)
  : bool :=
  point_eqb (Pool.dest prevMtd) (Pool.dest method)
  && ((sameState && rect_eqb (snd (Pool.rects prevMtd)) (snd (Pool.rects method)))
      || (isOpaque t && canSuperimposed pt)).

(** The number of methods in a list of objects. *)
Definition methodCount (l : list Pool.DrawObject) : nat :=
  foldr (fun obj n => (length (Pool.drawMethods obj) + n)%nat) O l.

(** The trailing object and the new one after [add], given the methods
    the scan leaves in the trailing object. *)
Definition trailing (state : Painter.PainterState) (method : Pool.DrawMethod)
    (drawMode : Painter.DrawMode) (prevObj : Pool.DrawObject)
    (methods : list Pool.DrawMethod) : list Pool.DrawObject :=
  if Painter.state_eqb (Pool.state prevObj) state then
    [Pool.mkDrawObject (Pool.state prevObj) Painter.Triangles (methods ++ [method])
                       (Pool.action prevObj)]
  else
    [Pool.mkDrawObject (Pool.state prevObj) (Pool.drawMode prevObj) methods
                       (Pool.action prevObj);
     newObject state drawMode method].

(** *** draw *)

Definition callback (pool : nat) (f : Action) : list event :=
  match f with
  | Some a => [EvCall pool a]
  | None => []
  end.

(** The body of the first loop ("Pre Draw") for the pool at position
    [i]. *)
Definition preDraw_pool (i : nat) (pool : Pool.Pool) : Pool.Pool * list event :=
  if negb (Pool.isEnabled pool) || negb (Pool.hasFrameBuffer pool) then (pool, [])
  else
    match Pool.framed pool with
    | None => (pool, [])
    | Some pf =>
      if Pool.hasModification pf then
        let pool' := Pool.set_framed (Pool.updateStatus pf) pool in
        if negb (bool_decide (Pool.m_objects pool = [])) then
          (pool', [EvBind i] ++ (EvDrawObject i <$> Pool.m_objects pool) ++ [EvRelease i])
        else (pool', [])
      else (pool, [])
    end.

(** The body of the second loop ("Draw") for the pool at position [i]. *)
Definition drawPhase_pool (i : nat) (pool : Pool.Pool) : Pool.Pool * list event :=
  if negb (Pool.isEnabled pool) then (pool, [])
  else
    let events :=
      match Pool.framed pool with
      | Some pf =>
        [EvSaveAndResetState] ++ callback i (Pool.m_beforeDraw pf) ++
        [EvFramebufferDraw i (Pool.m_dest pf) (Pool.m_src pf)] ++
        callback i (Pool.m_afterDraw pf) ++ [EvRestoreSavedState]
      | None => (EvDrawObject i <$> Pool.m_objects pool)
      end in
    (Pool.set_objects [] pool, events).

(** A loop [for(const auto& pool : m_pools)] whose body is [body]. *)
Definition forPools (body : nat -> Pool.Pool -> Pool.Pool * list event)
    (pools : list Pool.Pool) : list Pool.Pool * list event :=
  let r := imap body pools in
  (fst <$> r, concat (snd <$> r)).

(** The result of [draw]: the state after it, and the events of its two
    loops. *)
Record drawn : Type := mkDrawn {
  after : DrawPool;
  preDrawEvents : list event;
  drawEvents : list event
}.

Definition draw (d : DrawPool) : drawn :=
  let '(pools1, ev1) := forPools preDraw_pool (m_pools d) in
  let '(pools2, ev2) := forPools drawPhase_pool pools1 in
  mkDrawn (set_pools pools2 d) ev1 ev2.

(** *** The public entry points

    [cur] is [g_painter->getCurrentState()] at the time of the call. *)

Definition generateState (cur : Painter.PainterState) (d : DrawPool)
  : result Painter.PainterState :=
  p ← currentPool d;
  mret (Painter.mkPainterState
          (Painter.clipRect (Pool.m_state p))
          (Painter.compositionMode (Pool.m_state p))
          (Painter.opacity (Pool.m_state p))
          (Painter.alphaWriting (Pool.m_state p))
          (Painter.shaderProgram (Pool.m_state p))
          (Painter.color cur)
          (Painter.texture cur)).

Definition addTexturedRect (dest : Rect) (texture : TexturePtr) (src : Rect)
    (color : Color) (originalDest : Point) (cur : Painter.PainterState) (d : DrawPool)
  : result DrawPool :=
  if rect_isEmpty dest || rect_isEmpty src then Ok d
  else
    let method := Pool.DrawMethod_init Pool.DRAW_TEXTURED_RECT in
    let method := Pool.set_rects (dest, src) method in
    let method := Pool.set_dest originalDest method in
    state ← generateState cur d;
    let state := Painter.set_color color state in
    let state := Painter.set_texture texture state in
    add state method Painter.TriangleStrip d.

(** Modelled from the spec: the default argument of [originalDest]
    (drawpool.h is not in the excerpt) is the null destination. *)
Definition originalDest_default : Point := Point_null.

(** The overload without [src]. *)
Definition addTexturedRect3 (dest : Rect) (texture : TexturePtr) (color : Color)
    (cur : Painter.PainterState) (d : DrawPool) : result DrawPool :=
  t ← deref NullTextureSize texture;
  addTexturedRect dest texture (Rect_of Point_null (getSize t)) color
                  originalDest_default cur d.

Definition addUpsideDownTexturedRect (dest : Rect) (texture : TexturePtr) (src : Rect)
    (color : Color) (cur : Painter.PainterState) (d : DrawPool) : result DrawPool :=
  if rect_isEmpty dest || rect_isEmpty src then Ok d
  else
    let method := Pool.DrawMethod_init Pool.DRAW_UPSIDEDOWN_TEXTURED_RECT in
    let method := Pool.set_rects (dest, src) method in
    state ← generateState cur d;
    let state := Painter.set_color color state in
    let state := Painter.set_texture texture state in
    add state method Painter.TriangleStrip d.

Definition addRepeatedTexturedRect (dest : Rect) (texture : TexturePtr) (src : Rect)
    (color : Color) (cur : Painter.PainterState) (d : DrawPool) : result DrawPool :=
  if rect_isEmpty dest || rect_isEmpty src then Ok d
  else
    let method := Pool.DrawMethod_init Pool.DRAW_REPEATED_TEXTURED_RECT in
    let method := Pool.set_rects (dest, src) method in
    state ← generateState cur d;
    let state := Painter.set_color color state in
    let state := Painter.set_texture texture state in
    addRepeated state method defaultDrawMode d.

(** The overload without [src]. *)
Definition addRepeatedTexturedRect3 (dest : Rect) (texture : TexturePtr) (color : Color)
    (cur : Painter.PainterState) (d : DrawPool) : result DrawPool :=
  t ← deref NullTextureSize texture;
  addRepeatedTexturedRect dest texture (Rect_of Point_null (getSize t)) color cur d.

Definition addRepeatedTexturedRepeatedRect (dest : Rect) (texture : TexturePtr)
    (src : Rect) (color : Color) (cur : Painter.PainterState) (d : DrawPool)
  : result DrawPool :=
  if rect_isEmpty dest || rect_isEmpty src then Ok d
  else
    let method := Pool.DrawMethod_init Pool.DRAW_REPEATED_TEXTURED_REPEATED_RECT in
    let method := Pool.set_rects (dest, src) method in
    state ← generateState cur d;
    let state := Painter.set_color color state in
    let state := Painter.set_texture texture state in
    addRepeated state method defaultDrawMode d.

Definition addRepeatedFilledRect (dest src : Rect) (color : Color)
    (cur : Painter.PainterState) (d : DrawPool) : result DrawPool :=
  if rect_isEmpty dest then Ok d
  else
    let method := Pool.DrawMethod_init Pool.DRAW_REPEATED_FILLED_RECT in
    let method := Pool.set_rects (dest, src) method in
    state ← generateState cur d;
    let state := Painter.set_color color state in
    addRepeated state method defaultDrawMode d.

(** The overload without [src]. *)
Definition addRepeatedFilledRect2 (dest : Rect) (color : Color)
    (cur : Painter.PainterState) (d : DrawPool) : result DrawPool :=
  addRepeatedFilledRect dest Rect_null color cur d.

Definition addFilledRect (dest src : Rect) (color : Color)
    (cur : Painter.PainterState) (d : DrawPool) : result DrawPool :=
  if rect_isEmpty dest then Ok d
  else
    let method := Pool.DrawMethod_init Pool.DRAW_FILLED_RECT in
    let method := Pool.set_rects (dest, src) method in
    state ← generateState cur d;
    let state := Painter.set_color color state in
    add state method defaultDrawMode d.

(** The overload without [src]. *)
Definition addFilledRect2 (dest : Rect) (color : Color)
    (cur : Painter.PainterState) (d : DrawPool) : result DrawPool :=
  addFilledRect dest Rect_null color cur d.

Definition addFilledTriangle (a b c : Point) (color : Color)
    (cur : Painter.PainterState) (d : DrawPool) : result DrawPool :=
  if point_eqb a b || point_eqb a c || point_eqb b c then Ok d
  else
    let method := Pool.DrawMethod_init Pool.DRAW_FILLED_TRIANGLE in
    let method := Pool.set_points (a, b, c) method in
    state ← generateState cur d;
    let state := Painter.set_color color state in
    add state method defaultDrawMode d.

Definition addBoundingRect (dest : Rect) (color : Color) (innerLineWidth : Z)
    (cur : Painter.PainterState) (d : DrawPool) : result DrawPool :=
  if rect_isEmpty dest || (innerLineWidth =? 0) then Ok d
  else
    let method := Pool.DrawMethod_init Pool.DRAW_BOUNDING_RECT in
    let method := Pool.set_rects (dest, Rect_null) method in
    let method := Pool.set_intValue innerLineWidth method in
    state ← generateState cur d;
    let state := Painter.set_color color state in
    add state method defaultDrawMode d.

(** [Pool::DrawObject{ {}, Painter::DrawMode::None, {}, action }]. *)
Definition addAction_pool (action : Action) (p : Pool.Pool) : Pool.Pool :=
  Pool.set_objects
    (Pool.m_objects p ++ [Pool.mkDrawObject emptyState Painter.None_ [] action]) p.

Definition addAction (action : Action) : DrawPool -> result DrawPool :=
  withCurrentPool (fun p => Ok (addAction_pool action p)).

(** *** use *)

(** Modelled from the spec: [Pool::resetState] (pool.h is not in the
    excerpt): reset the pool's working state to a clean baseline. *)
Definition resetState (p : Pool.Pool) : Pool.Pool := Pool.set_state baseState p.

(** [use(const PoolPtr&)]; [None] is the null pointer. *)
Definition use_pool (p : Pool.Pool) : Pool.Pool :=
  let p := resetState p in
  match Pool.framed p with
  | Some pf => Pool.set_framed (Pool.resetCurrentStatus pf) p
  | None => p
  end.

Definition use (pool : option nat) (d : DrawPool) : result DrawPool :=
  let d := mkDrawPool (m_pools d)
                      (match pool with Some i => i | None => n_unknowPool d end)
                      (n_unknowPool d) in
  withCurrentPool (fun p => Ok (use_pool p)) d.

(** What the framed [use] writes into the pool after the plain [use]:
    [m_dest], [m_src], and [m_state.alphaWriting = false]. *)
Definition useFramed_pool (dest src : Rect) (pf : Pool.FramedPool) (p : Pool.Pool)
  : Pool.Pool :=
  let p := Pool.set_framed (Pool.set_dest_src dest src pf) p in
  Pool.set_state (Painter.set_alphaWriting false (Pool.m_state p)) p.

(** [use(const PoolFramedPtr&, dest, src)]. *)
Definition useFramed (pool : nat) (dest src : Rect) (d : DrawPool) : result DrawPool :=
  d ← use (Some pool) d;
  match m_pools d !! pool with
  | Some p =>
    match Pool.framed p with
    | Some pf => Ok (set_pools (<[pool := useFramed_pool dest src pf p]> (m_pools d)) d)
    | None => Err NullPool
    end
  | None => Err NullPool
  end.

(** *** The content hash, in the specification's words

    The fields that are folded, in order, each one only when it is not
    at its neutral value; [contentHash] folds them, from seed 0, into the
    hash of one call. *)

Definition onlyIf (c : bool) (v : Z) : list Z := if c then [v] else [].

Definition hashedFields (state : Painter.PainterState) (method : Pool.DrawMethod)
  : list Z :=
  match Painter.texture state with
  | Some t => [HASH_INT (getId t)]
  | None => []
  end
  ++ onlyIf (PrimFloat.ltb (Painter.opacity state) 1%float)
            (HASH_FLOAT (Painter.opacity state))
  ++ onlyIf (negb (color_eqb (Painter.color state) Color_white))
            (HASH_INT (rgba (Painter.color state)))
  ++ onlyIf (negb (Painter.compositionMode_eqb (Painter.compositionMode state)
                                               Painter.CompositionMode_Normal))
            (HASH_INT (compositionMode_value (Painter.compositionMode state)))
  ++ onlyIf (rect_isValid (Painter.clipRect state)) (rect_hash (Painter.clipRect state))
  ++ onlyIf (rect_isValid (fst (Pool.rects method))) (rect_hash (fst (Pool.rects method)))
  ++ onlyIf (rect_isValid (snd (Pool.rects method))) (rect_hash (snd (Pool.rects method)))
  ++ onlyIf (negb (point_isNull (fst (fst (Pool.points method)))))
            (point_hash (fst (fst (Pool.points method))))
  ++ onlyIf (negb (point_isNull (snd (fst (Pool.points method)))))
            (point_hash (snd (fst (Pool.points method))))
  ++ onlyIf (negb (point_isNull (snd (Pool.points method))))
            (point_hash (snd (Pool.points method)))
  ++ onlyIf (negb (Pool.intValue method =? 0)) (HASH_INT (Pool.intValue method))
  ++ onlyIf (negb (Pool.hash method =? 0)) (Pool.hash method).

Definition contentHash (state : Painter.PainterState) (method : Pool.DrawMethod) : Z :=
  fold_left hash_combine (hashedFields state method) 0.

(** The auto-update flag after [updateHash]. *)
Definition autoUpdated (state : Painter.PainterState) (pf : Pool.FramedPool)
  : Pool.FramedPool :=
  match Painter.shaderProgram state with
  | Some _ => Pool.set_autoUpdate true pf
  | None => pf
  end.

(** The pool is framed and its auto-update flag is set. *)
Definition hasAutoUpdate (p : Pool.Pool) : Prop :=
  exists pf, Pool.framed p = Some pf /\ Pool.m_autoUpdate pf = true.

(** The framed part of a pool: its status, its auto-update flag, and
    whether the pool is enabled. *)
Definition framedAs (p : Pool.Pool) (status : Z * Z) (auto enabled : bool) : Prop :=
  exists pf, Pool.framed p = Some pf /\ Pool.m_status pf = status
             /\ Pool.m_autoUpdate pf = auto /\ Pool.m_enabled p = enabled.

(** Two pools hold the same objects and the same search start index. *)
Definition sameContent (p q : Pool.Pool) : Prop :=
  Pool.m_objects p = Pool.m_objects q
  /\ Pool.m_indexToStartSearching p = Pool.m_indexToStartSearching q.

(** *** Sequences of calls

    A frame's content for one pool is a sequence of calls of [add],
    [addRepeated] and [addAction]; a frame is [use], the calls, and
    [draw]. *)

Inductive call : Type :=
| CallAdd (state : Painter.PainterState) (method : Pool.DrawMethod)
          (drawMode : Painter.DrawMode)
| CallAddRepeated (state : Painter.PainterState) (method : Pool.DrawMethod)
                  (drawMode : Painter.DrawMode)
| CallAddAction (action : Action).

Definition runCall (c : call) (d : DrawPool) : result DrawPool :=
  match c with
  | CallAdd state method drawMode => add state method drawMode d
  | CallAddRepeated state method drawMode => addRepeated state method drawMode d
  | CallAddAction action => addAction action d
  end.

(** The arguments of one call of [add]. *)
Record addArgs : Type := mkAddArgs {
  argState : Painter.PainterState;
  argMethod : Pool.DrawMethod;
  argDrawMode : Painter.DrawMode
}.

Definition addCall (a : addArgs) : call :=
  CallAdd (argState a) (argMethod a) (argDrawMode a).

(** The object a call of [add] makes when it merges with nothing. *)
Definition objectOf (a : addArgs) : Pool.DrawObject :=
  newObject (argState a) (argDrawMode a) (argMethod a).

(** Consecutive calls have different states. *)
Definition statesAlternate (adds : list addArgs) : Prop :=
  forall i a b, adds !! i = Some a -> adds !! S i = Some b ->
                Painter.state_eqb (argState a) (argState b) = false.

(** The destinations of [methods] that are not null are pairwise
    distinct. *)
Definition distinctDests (methods : list Pool.DrawMethod) : Prop :=
  NoDup (List.filter (fun dest => negb (point_isNull dest)) (Pool.dest <$> methods)).

(** [obj] is the object that the call [a] of [add] made, with the call's
    method or, when a later scan removed it, with none. *)
Definition siblingOf (a : addArgs) (obj : Pool.DrawObject) : Prop :=
  Pool.state obj = argState a
  /\ Pool.drawMode obj = argDrawMode a
  /\ Pool.action obj = None
  /\ (Pool.drawMethods obj = [argMethod a] \/ Pool.drawMethods obj = []).

(** The call binds a texture if its method has a destination. *)
Definition texturedArgs (a : addArgs) : Prop :=
  point_isNull (Pool.dest (argMethod a)) = false -> is_Some (Painter.texture (argState a)).

(** The same on the current pool alone. *)
Definition runCall_pool (c : call) (p : Pool.Pool) : result Pool.Pool :=
  match c with
  | CallAdd state method drawMode => add_pool state method drawMode p
  | CallAddRepeated state method drawMode => addRepeated_pool state method drawMode p
  | CallAddAction action => Ok (addAction_pool action p)
  end.

Fixpoint runCalls_pool (cs : list call) (p : Pool.Pool) : result Pool.Pool :=
  match cs with
  | [] => Ok p
  | c :: cs' => p' ← runCall_pool c p; runCalls_pool cs' p'
  end.

Fixpoint runCalls (cs : list call) (d : DrawPool) : result DrawPool :=
  match cs with
  | [] => Ok d
  | c :: cs' => d' ← runCall c d; runCalls cs' d'
  end.

(** What a call adds to the running hash of a framed pool, and what a
    sequence of calls makes of it. *)
Definition callHash (c : call) (h : Z) : Z :=
  match c with
  | CallAdd state method _ | CallAddRepeated state method _ =>
    hash_combine h (contentHash state method)
  | CallAddAction _ => h
  end.

Definition frameHash (cs : list call) (h : Z) : Z :=
  fold_left (fun h c => callHash c h) cs h.

(** The call binds no shader program. *)
Definition shaderFree (c : call) : Prop :=
  match c with
  | CallAdd state _ _ | CallAddRepeated state _ _ => Painter.shaderProgram state = None
  | CallAddAction _ => True
  end.

Definition frame (pool : nat) (cs : list call) (d : DrawPool) : result drawn :=
  d1 ← use (Some pool) d;
  d2 ← runCalls cs d1;
  mret (draw d2).

(** The public interface of the batcher, as a client drives it.
    [SetPoolState] and [SetStartIndex] stand for the setters of pool.h,
    which write the current pool's working state and its search start
    index. *)
Inductive request : Type :=
| AddTexturedRect3 (dest : Rect) (texture : TexturePtr) (color : Color)
| AddTexturedRect (dest : Rect) (texture : TexturePtr) (src : Rect) (color : Color)
                  (originalDest : Point)
| AddUpsideDownTexturedRect (dest : Rect) (texture : TexturePtr) (src : Rect)
                            (color : Color)
| AddRepeatedTexturedRect3 (dest : Rect) (texture : TexturePtr) (color : Color)
| AddRepeatedTexturedRect (dest : Rect) (texture : TexturePtr) (src : Rect)
                          (color : Color)
| AddRepeatedTexturedRepeatedRect (dest : Rect) (texture : TexturePtr) (src : Rect)
                                  (color : Color)
| AddRepeatedFilledRect2 (dest : Rect) (color : Color)
| AddRepeatedFilledRect (dest src : Rect) (color : Color)
| AddFilledRect2 (dest : Rect) (color : Color)
| AddFilledRect (dest src : Rect) (color : Color)
| AddFilledTriangle (a b c : Point) (color : Color)
| AddBoundingRect (dest : Rect) (color : Color) (innerLineWidth : Z)
| AddAction (action : Action)
| Use (pool : option nat)
| UseFramed (pool : nat) (dest src : Rect)
| SetPoolState (state : Painter.PainterState)
| SetStartIndex (index : Z)
| Draw.

Definition runRequest (cur : Painter.PainterState) (r : request) (d : DrawPool)
  : result DrawPool :=
  match r with
  | AddTexturedRect3 dest texture color => addTexturedRect3 dest texture color cur d
  | AddTexturedRect dest texture src color originalDest =>
    addTexturedRect dest texture src color originalDest cur d
  | AddUpsideDownTexturedRect dest texture src color =>
    addUpsideDownTexturedRect dest texture src color cur d
  | AddRepeatedTexturedRect3 dest texture color =>
    addRepeatedTexturedRect3 dest texture color cur d
  | AddRepeatedTexturedRect dest texture src color =>
    addRepeatedTexturedRect dest texture src color cur d
  | AddRepeatedTexturedRepeatedRect dest texture src color =>
    addRepeatedTexturedRepeatedRect dest texture src color cur d
  | AddRepeatedFilledRect2 dest color => addRepeatedFilledRect2 dest color cur d
  | AddRepeatedFilledRect dest src color => addRepeatedFilledRect dest src color cur d
  | AddFilledRect2 dest color => addFilledRect2 dest color cur d
  | AddFilledRect dest src color => addFilledRect dest src color cur d
  | AddFilledTriangle a b c color => addFilledTriangle a b c color cur d
  | AddBoundingRect dest color innerLineWidth =>
    addBoundingRect dest color innerLineWidth cur d
  | AddAction action => addAction action d
  | Use pool => use pool d
  | UseFramed pool dest src => useFramed pool dest src d
  | SetPoolState state => withCurrentPool (fun p => Ok (Pool.set_state state p)) d
  | SetStartIndex index =>
    withCurrentPool (fun p =>
      Ok (Pool.mkPool (Pool.m_objects p) (Pool.m_state p) (Pool.m_enabled p) index
                      (Pool.framed p))) d
  | Draw => Ok (after (draw d))
  end.

(** What a call of [add] or [addRepeated] made by the request [r] is
    like: its method has a null destination, unless [r] is the
    [addTexturedRect] with [originalDest], and then the method is a
    textured rect and the state has the texture of the request. *)
Definition callFrom (r : request) (c : call) : Prop :=
  match c with
  | CallAdd state method _ | CallAddRepeated state method _ =>
    point_isNull (Pool.dest method) = false ->
    Pool.type method = Pool.DRAW_TEXTURED_RECT
    /\ exists dest texture src color,
         r = AddTexturedRect dest texture src color (Pool.dest method)
         /\ Painter.texture state = texture
  | CallAddAction _ => True
  end.

(** The requests that write the current pool's working state or its
    search start index, as functions on the pool. *)
Definition setter (r : request) : option (Pool.Pool -> Pool.Pool) :=
  match r with
  | SetPoolState state => Some (Pool.set_state state)
  | SetStartIndex index =>
    Some (fun p => Pool.mkPool (Pool.m_objects p) (Pool.m_state p) (Pool.m_enabled p)
                               index (Pool.framed p))
  | _ => None
  end.

(** *** The steps of one pool

    What the requests do to a single pool: a call of [add],
    [addRepeated] or [addAction] (among those that satisfy [P]), [use],
    the second half of the framed [use], a setter, and the two loops of
    [draw]. *)

Definition draw_pool (i : nat) (p : Pool.Pool) : Pool.Pool :=
  fst (drawPhase_pool i (fst (preDraw_pool i p))).

Inductive poolStep (P : call -> Prop) : Pool.Pool -> Pool.Pool -> Prop :=
| step_call c p p' : P c -> runCall_pool c p = Ok p' -> poolStep P p p'
| step_use p : poolStep P p (use_pool p)
| step_useFramed dest src pf p :
    Pool.framed p = Some pf -> poolStep P p (useFramed_pool dest src pf p)
| step_setter r f p : setter r = Some f -> poolStep P p (f p)
| step_draw i p : poolStep P p (draw_pool i p).

(** [d'] has as many pools as [d], each related by [R] to the pool of
    [d] at its position. *)
Definition poolwise (R : Pool.Pool -> Pool.Pool -> Prop) (d d' : DrawPool) : Prop :=
  length (m_pools d') = length (m_pools d)
  /\ forall i p, m_pools d !! i = Some p ->
                 exists p', m_pools d' !! i = Some p' /\ R p p'.

(** *** Textures and destinations

    An object is safe for the removal scan when each of its methods with
    a non-null destination is a textured rect and the object's state has
    a texture; a call, when its method has a null destination or is a
    textured rect under a state with a texture; a request, when it is
    not an [addTexturedRect] with a non-null [originalDest] and a null
    texture. *)

Definition objectSafe (obj : Pool.DrawObject) : Prop :=
  forall m, m ∈ Pool.drawMethods obj -> point_isNull (Pool.dest m) = false ->
            Pool.type m = Pool.DRAW_TEXTURED_RECT
            /\ is_Some (Painter.texture (Pool.state obj)).

Definition scanSafe (p : Pool.Pool) : Prop := Forall objectSafe (Pool.m_objects p).

Definition texturedCall (c : call) : Prop :=
  match c with
  | CallAdd state method _ | CallAddRepeated state method _ =>
    point_isNull (Pool.dest method) = false ->
    Pool.type method = Pool.DRAW_TEXTURED_RECT /\ is_Some (Painter.texture state)
  | CallAddAction _ => True
  end.

Definition texturedRequest (r : request) : Prop :=
  match r with
  | AddTexturedRect _ texture _ _ originalDest =>
    point_isNull originalDest = false -> is_Some texture
  | _ => True
  end.

(** Each request comes with the painter's current state at its time. *)
Fixpoint runRequests (rs : list (Painter.PainterState * request)) (d : DrawPool)
  : result DrawPool :=
  match rs with
  | [] => Ok d
  | (cur, r) :: rs' => d' ← runRequest cur r d; runRequests rs' d'
  end.

(** *** What stays in a pool between two draws *)

(** [obj'] is [obj] with methods appended, if any; the draw mode may
    differ. *)
Definition extends (obj obj' : Pool.DrawObject) : Prop :=
  Pool.state obj' = Pool.state obj
  /\ Pool.action obj' = Pool.action obj
  /\ exists more, Pool.drawMethods obj' = Pool.drawMethods obj ++ more.

(** Every object of [p] is in [p'], at its position, extended. *)
Definition grows (p p' : Pool.Pool) : Prop :=
  forall k obj, Pool.m_objects p !! k = Some obj ->
                exists obj', Pool.m_objects p' !! k = Some obj' /\ extends obj obj'.

(** The request is not [draw], nor an [addTexturedRect] with a non-null
    [originalDest]. *)
Definition keepsMethods (r : request) : Prop :=
  match r with
  | Draw => False
  | AddTexturedRect _ _ _ _ originalDest => point_isNull originalDest = true
  | _ => True
  end.

(** The method of the call, if it has one, has a null destination. *)
Definition nullDest (c : call) : Prop :=
  match c with
  | CallAdd _ method _ | CallAddRepeated _ method _ =>
    point_isNull (Pool.dest method) = true
  | CallAddAction _ => True
  end.

(** The pool composites its framebuffer at [dest] and [src], and its
    working state writes no alpha. *)
Definition framedAt (dest src : Rect) (p : Pool.Pool) : Prop :=
  Painter.alphaWriting (Pool.m_state p) = false
  /\ exists pf, Pool.framed p = Some pf /\ Pool.m_dest pf = dest /\ Pool.m_src pf = src.

(** *** drawObject

    [m_coordsbuffer] is the list of the calls of [CoordsBuffer]'s adders
    since its last [clear()]; what [drawObject] asks of the action, the
    texture and the painter is a list of [painterCall]s. *)

Inductive coords : Type :=
| addBoudingRect (dest : Rect) (innerLineWidth : Z)
| addRect1 (dest : Rect)
| addTriangle (a b c : Point)
| addRect (dest src : Rect)
| addQuad (dest src : Rect)
| addUpsideDownRect (dest src : Rect)
| addUpsideDownQuad (dest src : Rect)
| addRepeatedRects (dest src : Rect).

Inductive painterCall : Type :=
| runAction (f : nat)
| executeState (state : Painter.PainterState)
| textureCreate (t : Texture)
| setTexture (t : Texture)
| drawCoords (buffer : list coords) (drawMode : Painter.DrawMode).

Definition isTriangles (drawMode : Painter.DrawMode) : bool :=
  match drawMode with
  | Painter.Triangles => true
  | _ => false
  end.

(** The body of the loop over [obj.drawMethods]. *)
Definition addCoords (drawMode : Painter.DrawMode) (m_coordsbuffer : list coords)
    (method : Pool.DrawMethod) : list coords :=
  match Pool.type method with
  | Pool.DRAW_BOUNDING_RECT =>
    m_coordsbuffer ++ [addBoudingRect (fst (Pool.rects method)) (Pool.intValue method)]
  | Pool.DRAW_FILLED_RECT | Pool.DRAW_REPEATED_FILLED_RECT =>
    m_coordsbuffer ++ [addRect1 (fst (Pool.rects method))]
  | Pool.DRAW_FILLED_TRIANGLE =>
    let '(a, b, c) := Pool.points method in
    m_coordsbuffer ++ [addTriangle a b c]
  | Pool.DRAW_TEXTURED_RECT | Pool.DRAW_REPEATED_TEXTURED_RECT =>
    if isTriangles drawMode
    then m_coordsbuffer ++ [addRect (fst (Pool.rects method)) (snd (Pool.rects method))]
    else m_coordsbuffer ++ [addQuad (fst (Pool.rects method)) (snd (Pool.rects method))]
  | Pool.DRAW_UPSIDEDOWN_TEXTURED_RECT =>
    if isTriangles drawMode
    then m_coordsbuffer
         ++ [addUpsideDownRect (fst (Pool.rects method)) (snd (Pool.rects method))]
    else m_coordsbuffer
         ++ [addUpsideDownQuad (fst (Pool.rects method)) (snd (Pool.rects method))]
  | Pool.DRAW_REPEATED_TEXTURED_REPEATED_RECT =>
    m_coordsbuffer ++ [addRepeatedRects (fst (Pool.rects method)) (snd (Pool.rects method))]
  end.

(** [drawObject], from [m_coordsbuffer] as it finds it to
    [m_coordsbuffer] as it leaves it, with the calls it makes. *)
Definition drawObject (obj : Pool.DrawObject) (m_coordsbuffer : list coords)
  : list coords * list painterCall :=
  match Pool.action obj with
  | Some f => (m_coordsbuffer, [runAction f])
  | None =>
    match Pool.drawMethods obj with
    | [] => (m_coordsbuffer, [])
    | _ :: _ =>
      let texture :=
        match Painter.texture (Pool.state obj) with
        | Some t => [textureCreate t; setTexture t]
        | None => []
        end in
      let buffer :=
        fold_left (addCoords (Pool.drawMode obj)) (Pool.drawMethods obj) m_coordsbuffer in
      ([], [executeState (Pool.state obj)] ++ texture
           ++ [drawCoords buffer (Pool.drawMode obj)])
    end
  end.

(** The calls of [drawObject] for the objects [draw] sends to it, in the
    order of the events. *)
Fixpoint drawObjects (events : list event) (m_coordsbuffer : list coords)
  : list coords * list painterCall :=
  match events with
  | [] => (m_coordsbuffer, [])
  | EvDrawObject _ obj :: rest =>
    let '(buffer, calls) := drawObject obj m_coordsbuffer in
    let '(buffer', calls') := drawObjects rest buffer in
    (buffer', calls ++ calls')
  | _ :: rest => drawObjects rest m_coordsbuffer
  end.

(** What one object alone puts into an empty buffer. *)
Definition coordsOf (obj : Pool.DrawObject) : list coords :=
  fold_left (addCoords (Pool.drawMode obj)) (Pool.drawMethods obj) [].

(** What [drawObject] asks for an object of state [state] and draw mode
    [drawMode] whose methods put the single entry [c] into the buffer. *)
Definition singleDraw (state : Painter.PainterState) (c : coords)
    (drawMode : Painter.DrawMode) : list painterCall :=
  [executeState state]
  ++ match Painter.texture state with
     | Some t => [textureCreate t; setTexture t]
     | None => []
     end
  ++ [drawCoords [c] drawMode].

(** An object that holds two methods or more is drawn as triangles. *)
Definition batched (obj : Pool.DrawObject) : Prop :=
  (2 <= length (Pool.drawMethods obj))%nat -> Pool.drawMode obj = Painter.Triangles.

(** The call is one of [add] or [addAction]. *)
Definition isAdd (c : call) : Prop :=
  match c with
  | CallAddRepeated _ _ _ => False
  | _ => True
  end.

(** The event concerns the pool at position [i]. *)
Definition ofPool (i : nat) (e : event) : bool :=
  match e with
  | EvBind j | EvDrawObject j _ | EvRelease j | EvCall j _ | EvFramebufferDraw j _ _ =>
    bool_decide (j = i)
  | EvSaveAndResetState | EvRestoreSavedState => false
  end.

(** What the second loop of [draw] asks of the action, the texture and
    the painter for the current pool, from an empty [m_coordsbuffer]. *)
Definition painted (d : DrawPool) : list painterCall :=
  snd (drawObjects (List.filter (ofPool (m_currentPool d)) (drawEvents (draw d))) []).

End WithExternals.

End DrawPool.

(** ** An instance of the externals, to evaluate the model

    [boost::hash_combine] as boost up to 1.80 defines it, on a 64-bit
    [size_t]; [std::hash<size_t>] as the identity, as in libstdc++. *)

Definition sample_hash_combine (seed v : Z) : Z :=
  Z.lxor seed ((v + 2654435769 + Z.shiftl seed 6 + Z.shiftr seed 2) mod 2 ^ 64)
  mod 2 ^ 64.

Definition sample_state : Painter.PainterState :=
  Painter.mkPainterState Rect_null Painter.CompositionMode_Normal 1%float true None
                         Color_white None.

Definition sampleExternals : Externals := {|
  hash_combine := sample_hash_combine;
  HASH_INT := fun n => n;
  HASH_FLOAT := fun f => if PrimFloat.ltb f 1%float then 1 else 0;
  rect_hash := fun r => ((x1 r * 31 + y1 r) * 31 + x2 r) * 31 + y2 r;
  point_hash := fun p => px p * 31 + py p;
  compositionMode_value := fun m =>
    match m with
    | Painter.CompositionMode_Normal => 0
    | Painter.CompositionMode_Light => 5
    | Painter.CompositionMode_Other n => n
    end;
  defaultDrawMode := Painter.Triangles;
  baseState := sample_state;
  emptyState := sample_state
|}.

(** ** Concrete inputs *)

Definition tile_example : Tile.Tile :=
  {| Tile.m_currentFirstVisibleFloor := 2;
     Tile.m_completelyCoveredCache := [1; 2; 0; 1] |}.

Definition filledRect_example : Pool.DrawMethod :=
  Pool.set_rects (mkRect 0 0 31 31, Rect_null)
                 (Pool.DrawMethod_init Pool.DRAW_FILLED_RECT).

Definition object_example : Pool.DrawObject :=
  Pool.mkDrawObject sample_state Painter.Triangles [filledRect_example] None.

(** A pool with one object, whose search start index was then set to
    1. *)
Definition marked_example : Pool.Pool :=
  Pool.mkPool [object_example] sample_state true 1 None.

(** A pool without framebuffer that was filled and then disabled. *)
Definition disabledPool_example : Pool.Pool :=
  Pool.mkPool [object_example] sample_state false 0 None.

Definition disabled_example : DrawPool.DrawPool :=
  DrawPool.mkDrawPool [disabledPool_example] 0 0.

Definition texture_example (addr : Z) (opaque superimposable : bool) : Texture :=
  mkTexture addr addr (mkSize 32 32) opaque superimposable.

Definition texturedState (t : TexturePtr) : Painter.PainterState :=
  Painter.set_texture t sample_state.

(** A 32x32 textured rect drawn at [dest] from the part [src] of the
    texture. *)
Definition texturedRect_example (dest : Point) (src : Rect) : Pool.DrawMethod :=
  Pool.set_dest dest
    (Pool.set_rects (Rect_of dest (mkSize 32 32), src)
                    (Pool.DrawMethod_init Pool.DRAW_TEXTURED_RECT)).

(** A batcher whose only pool, without framebuffer and enabled, holds
    [objects]. *)
Definition plain_example (objects : list Pool.DrawObject) : DrawPool.DrawPool :=
  DrawPool.mkDrawPool [Pool.mkPool objects sample_state true 0 None] 0 0.

(** A batcher whose only pool is framed and enabled, with committed hash
    [committed], and holds [objects]. *)
Definition framedPool_example (committed : Z) (objects : list Pool.DrawObject)
  : Pool.Pool :=
  Pool.mkPool objects sample_state true 0
    (Some (Pool.mkFramedPool (committed, 0) false
                             (mkRect 0 0 639 479) (mkRect 0 0 639 479) None None)).

Definition framed_example (committed : Z) (objects : list Pool.DrawObject)
  : DrawPool.DrawPool :=
  DrawPool.mkDrawPool [framedPool_example committed objects] 0 0.

(** An opaque texture that cannot be superimposed, drawn at (5, 5); then
    an opaque texture that can, for the same destination. *)
Definition under_example : Pool.DrawObject :=
  DrawPool.newObject (texturedState (Some (texture_example 1 true false)))
                     Painter.TriangleStrip
                     (texturedRect_example (mkPoint 5 5) (mkRect 0 0 31 31)).

Definition over_state : Painter.PainterState :=
  texturedState (Some (texture_example 2 true true)).

Definition over_method : Pool.DrawMethod :=
  texturedRect_example (mkPoint 5 5) (mkRect 32 0 63 31).

(** The same with a texture underneath that can be superimposed. *)
Definition hidden_example : Pool.DrawObject :=
  DrawPool.newObject (texturedState (Some (texture_example 1 true true)))
                     Painter.TriangleStrip
                     (texturedRect_example (mkPoint 5 5) (mkRect 0 0 31 31)).

(** Three calls of [add] under one state, at three destinations. *)
Definition sameState_example : list DrawPool.addArgs :=
  [DrawPool.mkAddArgs over_state (texturedRect_example (mkPoint 32 0) (mkRect 0 0 31 31))
                      Painter.TriangleStrip;
   DrawPool.mkAddArgs over_state (texturedRect_example (mkPoint 64 0) (mkRect 0 0 31 31))
                      Painter.TriangleStrip;
   DrawPool.mkAddArgs over_state (texturedRect_example (mkPoint 96 0) (mkRect 0 0 31 31))
                      Painter.TriangleStrip].

(** Two filled rects under one state; their destinations are null. *)
Definition filled_example : list DrawPool.addArgs :=
  [DrawPool.mkAddArgs sample_state filledRect_example Painter.TriangleStrip;
   DrawPool.mkAddArgs sample_state filledRect_example Painter.TriangleStrip].

(** Two textured rects for the destination (5, 5), under states that
    differ in the texture only. *)
Definition siblings_example : list DrawPool.addArgs :=
  [DrawPool.mkAddArgs (texturedState (Some (texture_example 1 true true)))
                      (texturedRect_example (mkPoint 5 5) (mkRect 0 0 31 31))
                      Painter.TriangleStrip;
   DrawPool.mkAddArgs over_state over_method Painter.TriangleStrip].

(** A frame's calls. *)
Definition calls_example : list DrawPool.call :=
  DrawPool.CallAddRepeated sample_state filledRect_example Painter.Triangles
  :: (DrawPool.addCall <$> sameState_example).

(** [addTexturedRect] twice for the destination (5, 5), from two parts of
    the texture [texture]. *)
Definition requests_example (texture : TexturePtr)
  : list (Painter.PainterState * DrawPool.request) :=
  [(sample_state,
    DrawPool.AddTexturedRect (mkRect 5 5 36 36) texture (mkRect 0 0 31 31)
                             Color_white (mkPoint 5 5));
   (sample_state,
    DrawPool.AddTexturedRect (mkRect 5 5 36 36) texture (mkRect 32 0 63 31)
                             Color_white (mkPoint 5 5))].

(** A state with a shader program bound. *)
Definition shader_state : Painter.PainterState :=
  Painter.set_shaderProgram (Some 7) sample_state.

(** The result of a frame, when there is one. *)
Definition frameResult (E : Externals) (pool : nat) (cs : list DrawPool.call)
    (d : DrawPool.DrawPool) : DrawPool.drawn :=
  match DrawPool.frame pool cs d with
  | Ok r => r
  | Err _ => DrawPool.draw d
  end.

(** A house tile on which nothing else was set; its first visible floor
    is still [UINT8_MAX] and its arrays have 16 entries. *)
Definition tileState_example : TileState.Tile :=
  TileState.mkTile
    {| Tile.m_currentFirstVisibleFloor := Tile.UINT8_MAX;
       Tile.m_completelyCoveredCache := replicate 16 0 |}
    (replicate 16 0) (TileState.flagValue TileState.TILESTATE_HOUSE) 7 None [] []
    (TileState.mkCountFlag 0 0 0 0 0).

(** The value of a result, when there is one. *)
Definition resultOr {A : Type} (r : result A) (default : A) : A :=
  match r with
  | Ok a => a
  | Err _ => default
  end.

(** A filled rect, an action and a repeated filled rect. *)
Definition kept_example : list (Painter.PainterState * DrawPool.request) :=
  [(sample_state, DrawPool.AddFilledRect2 (mkRect 0 0 31 31) Color_white);
   (sample_state, DrawPool.AddAction (Some 1%nat));
   (sample_state, DrawPool.AddRepeatedFilledRect2 (mkRect 32 0 63 31) Color_white)].

(** The object that the calls of [sameState_example] make. *)
Definition merged_example : Pool.DrawObject :=
  Pool.mkDrawObject over_state Painter.Triangles
                    (DrawPool.argMethod <$> sameState_example) None.

(** A repeated textured rect. *)
Definition repeatedRect_example : Pool.DrawMethod :=
  Pool.set_rects (mkRect 0 0 63 63, mkRect 0 0 31 31)
                 (Pool.DrawMethod_init Pool.DRAW_REPEATED_TEXTURED_RECT).

(** An enabled pool without framebuffer that holds no object. *)
Definition emptyPool_example : Pool.Pool := Pool.mkPool [] sample_state true 0 None.

(** * Properties *)

(** ** Tile *)

Lemma fill_lookup (v : Z) (a : list Z) (i : nat) :
  (i < length a)%nat -> Tile.fill v a !! i = Some v.
Proof.
  intros Hi. unfold Tile.fill. apply lookup_replicate_2. exact Hi.
Qed.

Lemma array_set_in_bounds (a : list Z) (i v : Z) :
  0 <= i < Z.of_nat (length a) ->
  Tile.array_set a i v = Ok (<[Z.to_nat i := v]> a).
Proof.
  intros [Hlo Hhi]. unfold Tile.array_set.
  destruct (Z.leb_spec 0 i); [| lia].
  destruct (Z.ltb_spec i (Z.of_nat (length a))); [| lia].
  reflexivity.
Qed.

(** C10.  [setCompletelyCoveredCache(0)] resets every per-floor entry
    of the completely-covered cache to 0.  With a nonzero state and a
    first visible floor that is an index of the array and is not
    [UINT8_MAX], it writes that floor's entry and leaves every other
    entry as it was.  With a nonzero state and the first visible floor at
    [UINT8_MAX], it changes nothing. *)
Theorem setCompletelyCoveredCache_spec (state : Z) (t : Tile.Tile) :
  (state = 0 ->
   exists t',
     Tile.setCompletelyCoveredCache state t = Ok t'
     /\ Tile.m_currentFirstVisibleFloor t' = Tile.m_currentFirstVisibleFloor t
     /\ length (Tile.m_completelyCoveredCache t')
        = length (Tile.m_completelyCoveredCache t)
     /\ forall i, (i < length (Tile.m_completelyCoveredCache t))%nat ->
                  Tile.entry t' i = Some 0)
  /\ (state <> 0 ->
      Tile.m_currentFirstVisibleFloor t <> Tile.UINT8_MAX ->
      0 <= Tile.m_currentFirstVisibleFloor t
        < Z.of_nat (length (Tile.m_completelyCoveredCache t)) ->
      exists t',
        Tile.setCompletelyCoveredCache state t = Ok t'
        /\ Tile.m_currentFirstVisibleFloor t' = Tile.m_currentFirstVisibleFloor t
        /\ Tile.entry t' (Z.to_nat (Tile.m_currentFirstVisibleFloor t)) = Some state
        /\ forall i, i <> Z.to_nat (Tile.m_currentFirstVisibleFloor t) ->
                     Tile.entry t' i = Tile.entry t i)
  /\ (state <> 0 ->
      Tile.m_currentFirstVisibleFloor t = Tile.UINT8_MAX ->
      Tile.setCompletelyCoveredCache state t = Ok t).
Proof.
  unfold Tile.setCompletelyCoveredCache, Tile.entry.
  split; [| split].
  - intros ->. simpl. eexists. split; [reflexivity |]. simpl.
    split; [reflexivity |]. split.
    + unfold Tile.fill. apply length_replicate.
    + intros i Hi. apply fill_lookup. exact Hi.
  - intros Hs Hf Hb.
    destruct (Z.eqb_spec state 0) as [|_]; [contradiction |].
    destruct (Z.eqb_spec (Tile.m_currentFirstVisibleFloor t) Tile.UINT8_MAX)
      as [|_]; [contradiction |].
    simpl. rewrite (array_set_in_bounds _ _ _ Hb). simpl.
    eexists. split; [reflexivity |]. simpl.
    split; [reflexivity |]. split.
    + apply list_lookup_insert_eq. lia.
    + intros i Hi. apply list_lookup_insert_ne. congruence.
  - intros Hs Hf.
    destruct (Z.eqb_spec state 0) as [|_]; [contradiction |].
    rewrite Hf. reflexivity.
Qed.

(** ** DrawPool: the current pool *)

Section DrawPoolProperties.
Context {E : Externals}.

Lemma point_eqb_eq (a b : Point) : point_eqb a b = true <-> a = b.
Proof.
  unfold point_eqb. destruct a as [ax ay], b as [bx b_y]. simpl.
  rewrite andb_true_iff, !Z.eqb_eq. split.
  - intros [-> ->]. reflexivity.
  - intros H. inversion H. split; reflexivity.
Qed.

Lemma point_eqb_refl (a : Point) : point_eqb a a = true.
Proof. apply point_eqb_eq. reflexivity. Qed.

Lemma point_eqb_neq (a b : Point) : a <> b -> point_eqb a b = false.
Proof.
  intros H. destruct (point_eqb a b) eqn:Heq; [| reflexivity].
  apply point_eqb_eq in Heq. contradiction.
Qed.

Lemma currentPool_Ok (d : DrawPool.DrawPool) (p : Pool.Pool) :
  DrawPool.currentPool d = Ok p <->
  DrawPool.m_pools d !! DrawPool.m_currentPool d = Some p.
Proof.
  unfold DrawPool.currentPool.
  destruct (DrawPool.m_pools d !! DrawPool.m_currentPool d); split; congruence.
Qed.

Lemma withCurrentPool_Ok (f : Pool.Pool -> result Pool.Pool) (d : DrawPool.DrawPool)
    (p p' : Pool.Pool) :
  DrawPool.currentPool d = Ok p -> f p = Ok p' ->
  DrawPool.withCurrentPool f d = Ok (DrawPool.setCurrentPool p' d).
Proof.
  intros Hp Hf. unfold DrawPool.withCurrentPool. rewrite Hp. simpl.
  rewrite Hf. reflexivity.
Qed.

Lemma withCurrentPool_Err (f : Pool.Pool -> result Pool.Pool) (d : DrawPool.DrawPool)
    (p : Pool.Pool) (e : error) :
  DrawPool.currentPool d = Ok p -> f p = Err e ->
  DrawPool.withCurrentPool f d = Err e.
Proof.
  intros Hp Hf. unfold DrawPool.withCurrentPool. rewrite Hp. simpl.
  rewrite Hf. reflexivity.
Qed.

Lemma withCurrentPool_inv (f : Pool.Pool -> result Pool.Pool) (d d' : DrawPool.DrawPool) :
  DrawPool.withCurrentPool f d = Ok d' ->
  exists p p', DrawPool.currentPool d = Ok p /\ f p = Ok p'
               /\ d' = DrawPool.setCurrentPool p' d.
Proof.
  unfold DrawPool.withCurrentPool.
  destruct (DrawPool.currentPool d) as [p |]; simpl; [| discriminate].
  destruct (f p) as [p' |] eqn:Hf; simpl; [| discriminate].
  intros [= <-]. exists p, p'. auto.
Qed.

Lemma currentPool_setCurrentPool (d : DrawPool.DrawPool) (p p' : Pool.Pool) :
  DrawPool.currentPool d = Ok p ->
  DrawPool.currentPool (DrawPool.setCurrentPool p' d) = Ok p'.
Proof.
  intros Hp. apply currentPool_Ok in Hp. apply currentPool_Ok. simpl.
  apply list_lookup_insert_eq. eapply lookup_lt_Some. exact Hp.
Qed.

Lemma setCurrentPool_twice (d : DrawPool.DrawPool) (p p' : Pool.Pool) :
  DrawPool.setCurrentPool p' (DrawPool.setCurrentPool p d) = DrawPool.setCurrentPool p' d.
Proof.
  unfold DrawPool.setCurrentPool, DrawPool.set_pools. simpl.
  rewrite list_insert_insert_eq. reflexivity.
Qed.

Lemma setCurrentPool_same (d : DrawPool.DrawPool) (p : Pool.Pool) :
  DrawPool.currentPool d = Ok p -> DrawPool.setCurrentPool p d = d.
Proof.
  intros Hp. apply currentPool_Ok in Hp.
  unfold DrawPool.setCurrentPool, DrawPool.set_pools.
  rewrite list_insert_id by exact Hp. destruct d. reflexivity.
Qed.

(** ** Degenerate input *)

(** C5.  Every public [add*] entry point returns at once on degenerate
    input and leaves the whole batcher, hence the current pool's object
    list and its running content hash, exactly as it was: the textured
    entry points on an empty destination or source rect, the filled-rect
    entry points on an empty destination rect, [addFilledTriangle] when
    two of its points coincide, [addBoundingRect] on an empty rect or a
    zero inner line width. *)
Theorem degenerate_input_is_noop (cur : Painter.PainterState) (d : DrawPool.DrawPool) :
  (forall dest texture src color originalDest,
      rect_isEmpty dest = true \/ rect_isEmpty src = true ->
      DrawPool.addTexturedRect dest texture src color originalDest cur d = Ok d)
  /\ (forall dest t color,
      rect_isEmpty dest = true \/ rect_isEmpty (Rect_of Point_null (getSize t)) = true ->
      DrawPool.addTexturedRect3 dest (Some t) color cur d = Ok d)
  /\ (forall dest texture src color,
      rect_isEmpty dest = true \/ rect_isEmpty src = true ->
      DrawPool.addUpsideDownTexturedRect dest texture src color cur d = Ok d)
  /\ (forall dest texture src color,
      rect_isEmpty dest = true \/ rect_isEmpty src = true ->
      DrawPool.addRepeatedTexturedRect dest texture src color cur d = Ok d)
  /\ (forall dest t color,
      rect_isEmpty dest = true \/ rect_isEmpty (Rect_of Point_null (getSize t)) = true ->
      DrawPool.addRepeatedTexturedRect3 dest (Some t) color cur d = Ok d)
  /\ (forall dest texture src color,
      rect_isEmpty dest = true \/ rect_isEmpty src = true ->
      DrawPool.addRepeatedTexturedRepeatedRect dest texture src color cur d = Ok d)
  /\ (forall dest src color,
      rect_isEmpty dest = true ->
      DrawPool.addFilledRect dest src color cur d = Ok d
      /\ DrawPool.addFilledRect2 dest color cur d = Ok d
      /\ DrawPool.addRepeatedFilledRect dest src color cur d = Ok d
      /\ DrawPool.addRepeatedFilledRect2 dest color cur d = Ok d)
  /\ (forall a b c color,
      a = b \/ a = c \/ b = c ->
      DrawPool.addFilledTriangle a b c color cur d = Ok d)
  /\ (forall dest color innerLineWidth,
      rect_isEmpty dest = true \/ innerLineWidth = 0 ->
      DrawPool.addBoundingRect dest color innerLineWidth cur d = Ok d).
Proof.
  repeat split.
  - intros dest texture src color originalDest [H | H];
      unfold DrawPool.addTexturedRect; rewrite H, ?orb_true_r; reflexivity.
  - intros dest t color [H | H];
      unfold DrawPool.addTexturedRect3, DrawPool.addTexturedRect; simpl;
      rewrite H, ?orb_true_r; reflexivity.
  - intros dest texture src color [H | H];
      unfold DrawPool.addUpsideDownTexturedRect; rewrite H, ?orb_true_r; reflexivity.
  - intros dest texture src color [H | H];
      unfold DrawPool.addRepeatedTexturedRect; rewrite H, ?orb_true_r; reflexivity.
  - intros dest t color [H | H];
      unfold DrawPool.addRepeatedTexturedRect3, DrawPool.addRepeatedTexturedRect; simpl;
      rewrite H, ?orb_true_r; reflexivity.
  - intros dest texture src color [H | H];
      unfold DrawPool.addRepeatedTexturedRepeatedRect; rewrite H, ?orb_true_r;
      reflexivity.
  - unfold DrawPool.addFilledRect. rewrite H. reflexivity.
  - unfold DrawPool.addFilledRect2, DrawPool.addFilledRect. rewrite H. reflexivity.
  - unfold DrawPool.addRepeatedFilledRect. rewrite H. reflexivity.
  - unfold DrawPool.addRepeatedFilledRect2, DrawPool.addRepeatedFilledRect.
    rewrite H. reflexivity.
  - intros a b c color H. unfold DrawPool.addFilledTriangle.
    destruct H as [-> | [-> | ->]]; rewrite point_eqb_refl, ?orb_true_r; reflexivity.
  - intros dest color w [H | ->]; unfold DrawPool.addBoundingRect.
    + rewrite H. reflexivity.
    + rewrite Z.eqb_refl, orb_true_r. reflexivity.
Qed.


(** ** draw *)

Lemma forPools_lookup (body : nat -> Pool.Pool -> Pool.Pool * list DrawPool.event)
    (pools : list Pool.Pool) (i : nat) :
  fst (DrawPool.forPools body pools) !! i = (fun p => fst (body i p)) <$> pools !! i.
Proof.
  unfold DrawPool.forPools. simpl.
  rewrite list_lookup_fmap, list_lookup_imap.
  destruct (pools !! i); reflexivity.
Qed.

Lemma forPools_events (body : nat -> Pool.Pool -> Pool.Pool * list DrawPool.event)
    (pools : list Pool.Pool) (e : DrawPool.event) :
  In e (snd (DrawPool.forPools body pools)) <->
  exists i p, pools !! i = Some p /\ In e (snd (body i p)).
Proof.
  unfold DrawPool.forPools. simpl. rewrite in_concat. split.
  - intros (evs & Hin & He).
    apply list_elem_of_In, list_elem_of_fmap in Hin as (r & -> & Hr).
    apply elem_of_lookup_imap in Hr as (i & p & -> & Hp).
    exists i, p. auto.
  - intros (i & p & Hp & He). exists (snd (body i p)). split; [| exact He].
    apply list_elem_of_In, list_elem_of_fmap. exists (body i p). split; [reflexivity |].
    apply elem_of_lookup_imap. exists i, p. auto.
Qed.

Lemma draw_after (d : DrawPool.DrawPool) :
  DrawPool.m_pools (DrawPool.after (DrawPool.draw d))
  = fst (DrawPool.forPools DrawPool.drawPhase_pool
           (fst (DrawPool.forPools DrawPool.preDraw_pool (DrawPool.m_pools d)))).
Proof. reflexivity. Qed.

Lemma draw_preDrawEvents (d : DrawPool.DrawPool) :
  DrawPool.preDrawEvents (DrawPool.draw d)
  = snd (DrawPool.forPools DrawPool.preDraw_pool (DrawPool.m_pools d)).
Proof. reflexivity. Qed.

Lemma draw_drawEvents (d : DrawPool.DrawPool) :
  DrawPool.drawEvents (DrawPool.draw d)
  = snd (DrawPool.forPools DrawPool.drawPhase_pool
           (fst (DrawPool.forPools DrawPool.preDraw_pool (DrawPool.m_pools d)))).
Proof. reflexivity. Qed.

Lemma draw_lookup (d : DrawPool.DrawPool) (i : nat) :
  DrawPool.m_pools (DrawPool.after (DrawPool.draw d)) !! i
  = (fun p => fst (DrawPool.drawPhase_pool i (fst (DrawPool.preDraw_pool i p))))
      <$> DrawPool.m_pools d !! i.
Proof.
  rewrite draw_after, !forPools_lookup.
  destruct (DrawPool.m_pools d !! i); reflexivity.
Qed.

(** The first loop writes nothing but the framed pool's status. *)
Lemma preDraw_pool_keeps (i : nat) (p : Pool.Pool) :
  Pool.m_objects (fst (DrawPool.preDraw_pool i p)) = Pool.m_objects p
  /\ Pool.m_enabled (fst (DrawPool.preDraw_pool i p)) = Pool.m_enabled p
  /\ Pool.m_state (fst (DrawPool.preDraw_pool i p)) = Pool.m_state p
  /\ Pool.m_indexToStartSearching (fst (DrawPool.preDraw_pool i p))
     = Pool.m_indexToStartSearching p
  /\ (Pool.isEnabled p = false -> fst (DrawPool.preDraw_pool i p) = p).
Proof.
  unfold DrawPool.preDraw_pool, Pool.isEnabled.
  destruct (Pool.m_enabled p) eqn:Hen; simpl; [| auto].
  destruct (Pool.hasFrameBuffer p); simpl; [| split_and!; auto; discriminate].
  destruct (Pool.framed p) as [pf |]; [| split_and!; auto; discriminate].
  destruct (Pool.hasModification pf); [| split_and!; auto; discriminate].
  destruct (bool_decide (Pool.m_objects p = [])); simpl;
    split_and!; auto; discriminate.
Qed.

(** C2, as the code has it.  After one call of [draw] the object list
    of every enabled pool, framed or not, is empty; a disabled pool is
    skipped by both loops and keeps its object list (and everything
    else). *)
Theorem draw_clears_enabled_pools (d : DrawPool.DrawPool) (i : nat) (p : Pool.Pool) :
  DrawPool.m_pools d !! i = Some p ->
  exists p',
    DrawPool.m_pools (DrawPool.after (DrawPool.draw d)) !! i = Some p'
    /\ (Pool.isEnabled p = true -> Pool.m_objects p' = [])
    /\ (Pool.isEnabled p = false -> p' = p).
Proof.
  intros Hp. rewrite draw_lookup, Hp. simpl. eexists. split; [reflexivity |].
  destruct (preDraw_pool_keeps i p) as (Hobj & Hen & _ & _ & Hdis).
  unfold DrawPool.drawPhase_pool, Pool.isEnabled in *. rewrite Hen. split.
  - intros ->. reflexivity.
  - intros Hoff. rewrite Hoff. simpl. apply Hdis. exact Hoff.
Qed.


(** ** updateHash *)

Lemma fold_onlyIf (c : bool) (v : Z) (l : list Z) (h : Z) :
  fold_left hash_combine (DrawPool.onlyIf c v ++ l) h
  = fold_left hash_combine l (if c then hash_combine h v else h).
Proof. destruct c; reflexivity. Qed.

Lemma fold_onlyIf_last (c : bool) (v : Z) (h : Z) :
  fold_left hash_combine (DrawPool.onlyIf c v) h = if c then hash_combine h v else h.
Proof. destruct c; reflexivity. Qed.

Lemma fold_single (v : Z) (l : list Z) (h : Z) :
  fold_left hash_combine ([v] ++ l) h = fold_left hash_combine l (hash_combine h v).
Proof. reflexivity. Qed.

Lemma updateHash_pool_framed (state : Painter.PainterState) (method : Pool.DrawMethod)
    (p : Pool.Pool) (pf : Pool.FramedPool) :
  Pool.framed p = Some pf ->
  DrawPool.updateHash_pool state method p
  = Pool.set_framed
      (Pool.set_status
         (fst (Pool.m_status pf),
          hash_combine (snd (Pool.m_status pf)) (DrawPool.contentHash state method))
         (DrawPool.autoUpdated state pf)) p.
Proof.
  intros Hf. unfold DrawPool.updateHash_pool, DrawPool.contentHash, DrawPool.hashedFields.
  rewrite Hf. destruct (Pool.points method) as [[a b] c]. cbn [fst snd].
  destruct (Painter.texture state) as [t |];
    rewrite ?fold_single, ?app_nil_l, !fold_onlyIf, fold_onlyIf_last;
    unfold DrawPool.autoUpdated; destruct (Painter.shaderProgram state); reflexivity.
Qed.

Lemma updateHash_pool_unframed (state : Painter.PainterState) (method : Pool.DrawMethod)
    (p : Pool.Pool) :
  Pool.framed p = None -> DrawPool.updateHash_pool state method p = p.
Proof. intros Hf. unfold DrawPool.updateHash_pool. rewrite Hf. reflexivity. Qed.

Lemma updateHash_pool_keeps (state : Painter.PainterState) (method : Pool.DrawMethod)
    (p : Pool.Pool) :
  Pool.m_objects (DrawPool.updateHash_pool state method p) = Pool.m_objects p
  /\ Pool.m_enabled (DrawPool.updateHash_pool state method p) = Pool.m_enabled p
  /\ Pool.m_state (DrawPool.updateHash_pool state method p) = Pool.m_state p
  /\ Pool.m_indexToStartSearching (DrawPool.updateHash_pool state method p)
     = Pool.m_indexToStartSearching p.
Proof.
  destruct (Pool.framed p) as [pf |] eqn:Hf.
  - rewrite (updateHash_pool_framed _ _ _ _ Hf). auto.
  - rewrite (updateHash_pool_unframed _ _ _ Hf). auto.
Qed.

(** C8.  For a framed current pool, [updateHash] combines into the
    running hash the hash of the call, which folds, from seed 0 and in
    this order, the texture id (if a texture is bound), the opacity (if
    below 1), the color (if not white), the composition mode (if not
    normal), the clip rect (if valid), the method's two rects (each if
    valid), its three points (each if not null), its integer parameter
    (if nonzero) and its precomputed hash (if nonzero); the committed
    hash is not touched.  For a current pool without framebuffer it
    returns at once and changes nothing. *)
Theorem updateHash_folds_fields (state : Painter.PainterState)
    (method : Pool.DrawMethod) (d : DrawPool.DrawPool) (p : Pool.Pool) :
  DrawPool.currentPool d = Ok p ->
  (forall pf, Pool.framed p = Some pf ->
     exists pf',
       DrawPool.updateHash state method d
       = Ok (DrawPool.setCurrentPool (Pool.set_framed pf' p) d)
       /\ Pool.m_status pf'
          = (fst (Pool.m_status pf),
             hash_combine (snd (Pool.m_status pf))
               (fold_left hash_combine (DrawPool.hashedFields state method) 0)))
  /\ (Pool.framed p = None -> DrawPool.updateHash state method d = Ok d).
Proof.
  intros Hp. split.
  - intros pf Hf. eexists. split.
    + unfold DrawPool.updateHash. eapply withCurrentPool_Ok; [exact Hp |].
      rewrite (updateHash_pool_framed _ _ _ _ Hf). reflexivity.
    + reflexivity.
  - intros Hf. unfold DrawPool.updateHash.
    erewrite withCurrentPool_Ok; [| exact Hp | reflexivity].
    rewrite (updateHash_pool_unframed _ _ _ Hf). f_equal.
    apply setCurrentPool_same. exact Hp.
Qed.


(** ** add *)

Lemma hides_bound (state prevState : Painter.PainterState) (sameState : bool)
    (method m : Pool.DrawMethod) (t pt : Texture) :
  Painter.texture state = Some t -> Painter.texture prevState = Some pt ->
  DrawPool.hides state prevState sameState method m
  = Ok (DrawPool.hidden t pt sameState method m).
Proof.
  intros Ht Hpt. unfold DrawPool.hides, DrawPool.hidden. rewrite Ht, Hpt. simpl.
  destruct (point_eqb (Pool.dest m) (Pool.dest method)); simpl; [| reflexivity].
  destruct (sameState && rect_eqb (snd (Pool.rects m)) (snd (Pool.rects method)));
    simpl; [reflexivity |].
  destruct (isOpaque t); reflexivity.
Qed.

Lemma hides_other_dest (state prevState : Painter.PainterState) (sameState : bool)
    (method m : Pool.DrawMethod) :
  point_eqb (Pool.dest m) (Pool.dest method) = false ->
  DrawPool.hides state prevState sameState method m = Ok false.
Proof. intros H. unfold DrawPool.hides. rewrite H. reflexivity. Qed.

Lemma eraseHidden_other_dests (state prevState : Painter.PainterState)
    (sameState : bool) (method : Pool.DrawMethod) (ms : list Pool.DrawMethod) :
  Forall (fun m => point_eqb (Pool.dest m) (Pool.dest method) = false) ms ->
  DrawPool.eraseHidden state prevState sameState method ms = Ok ms.
Proof.
  induction 1 as [| m ms Hm _ IH]; simpl; [reflexivity |].
  rewrite (hides_other_dest _ _ _ _ _ Hm). simpl. rewrite IH. reflexivity.
Qed.

Lemma eraseHidden_first (state prevState : Painter.PainterState) (sameState : bool)
    (method : Pool.DrawMethod) (t pt : Texture)
    (before : list Pool.DrawMethod) (m : Pool.DrawMethod) (rest : list Pool.DrawMethod) :
  Painter.texture state = Some t -> Painter.texture prevState = Some pt ->
  Forall (fun x => DrawPool.hidden t pt sameState method x = false) before ->
  DrawPool.hidden t pt sameState method m = true ->
  DrawPool.eraseHidden state prevState sameState method (before ++ m :: rest)
  = Ok (before ++ rest).
Proof.
  intros Ht Hpt Hbefore Hm.
  induction Hbefore as [| x before Hx _ IH]; simpl.
  - rewrite (hides_bound _ _ _ _ _ _ _ Ht Hpt), Hm. reflexivity.
  - rewrite (hides_bound _ _ _ _ _ _ _ Ht Hpt), Hx. simpl. rewrite IH. reflexivity.
Qed.

Lemma first_true_split {A : Type} (f : A -> bool) (l : list A) :
  (exists x, In x l /\ f x = true) ->
  exists before x rest,
    l = before ++ x :: rest /\ Forall (fun y => f y = false) before /\ f x = true.
Proof.
  induction l as [| a l IH]; intros (x & Hin & Hx); [destruct Hin |].
  destruct (f a) eqn:Ha.
  - exists [], a, l. auto.
  - destruct Hin as [-> | Hin]; [congruence |].
    destruct IH as (before & y & rest & -> & Hb & Hy); [eauto |].
    exists (a :: before), y, rest. split; [reflexivity |]. split; [| exact Hy].
    constructor; assumption.
Qed.

Lemma methodCount_app (l l' : list Pool.DrawObject) :
  DrawPool.methodCount (l ++ l')
  = (DrawPool.methodCount l + DrawPool.methodCount l')%nat.
Proof.
  unfold DrawPool.methodCount. induction l as [| o l IH]; simpl; [reflexivity |].
  rewrite IH. lia.
Qed.

Lemma add_pool_snoc (state : Painter.PainterState) (method : Pool.DrawMethod)
    (drawMode : Painter.DrawMode) (p : Pool.Pool) (front : list Pool.DrawObject)
    (prevObj : Pool.DrawObject) :
  Pool.m_objects p = front ++ [prevObj] ->
  DrawPool.add_pool state method drawMode p
  = methods ←
      (if negb (point_isNull (Pool.dest method))
       then DrawPool.eraseHidden state (Pool.state prevObj)
              (Painter.state_eqb (Pool.state prevObj) state) method
              (Pool.drawMethods prevObj)
       else Ok (Pool.drawMethods prevObj));
    Ok (Pool.set_objects (front ++ DrawPool.trailing state method drawMode prevObj methods)
                         (DrawPool.updateHash_pool state method p)).
Proof.
  intros Hobj. unfold DrawPool.add_pool. cbv zeta.
  destruct (updateHash_pool_keeps state method p) as (-> & _).
  rewrite Hobj, last_snoc, removelast_last. unfold DrawPool.trailing.
  destruct (if negb (point_isNull (Pool.dest method)) then _ else _) as [ms |];
    simpl; [| reflexivity].
  destruct (Painter.state_eqb (Pool.state prevObj) state); reflexivity.
Qed.

Lemma add_pool_empty (state : Painter.PainterState) (method : Pool.DrawMethod)
    (drawMode : Painter.DrawMode) (p : Pool.Pool) :
  Pool.m_objects p = [] ->
  DrawPool.add_pool state method drawMode p
  = Ok (Pool.set_objects [DrawPool.newObject state drawMode method]
                         (DrawPool.updateHash_pool state method p)).
Proof.
  intros Hobj. unfold DrawPool.add_pool. cbv zeta.
  destruct (updateHash_pool_keeps state method p) as (-> & _).
  rewrite Hobj. reflexivity.
Qed.

Lemma list_snoc_cases {A : Type} (l : list A) :
  l = [] \/ exists front x, l = front ++ [x].
Proof.
  destruct l as [| a l] using rev_ind; [left; reflexivity |].
  right. eauto.
Qed.

Lemma add_pool_inv (state : Painter.PainterState) (method : Pool.DrawMethod)
    (drawMode : Painter.DrawMode) (p p' : Pool.Pool) :
  DrawPool.add_pool state method drawMode p = Ok p' ->
  exists l, p' = Pool.set_objects l (DrawPool.updateHash_pool state method p).
Proof.
  destruct (list_snoc_cases (Pool.m_objects p)) as [Hobj | (front & prevObj & Hobj)].
  - rewrite (add_pool_empty _ _ _ _ Hobj). intros [= <-]. eauto.
  - rewrite (add_pool_snoc _ _ _ _ _ _ Hobj).
    destruct (if negb (point_isNull (Pool.dest method)) then _ else _) as [ms |];
      simpl; [| discriminate].
    intros [= <-]. eauto.
Qed.


Lemma add_Ok (state : Painter.PainterState) (method : Pool.DrawMethod)
    (drawMode : Painter.DrawMode) (d : DrawPool.DrawPool) (p p' : Pool.Pool) :
  DrawPool.currentPool d = Ok p ->
  DrawPool.add_pool state method drawMode p = Ok p' ->
  DrawPool.add state method drawMode d = Ok (DrawPool.setCurrentPool p' d).
Proof. intros Hp Hadd. unfold DrawPool.add. eapply withCurrentPool_Ok; eassumption. Qed.

(** C3, as the code has it.  Let the current pool end with the object
    [prevObj].  (1) Whatever [add] does, the objects before [prevObj]
    stay as they are, and what replaces [prevObj] does not depend on
    them.  (2) Let the new method have a non-null destination and both
    the new state and [prevObj] have a texture.  If [prevObj] holds a
    method with the same destination such that either the states are
    equal and the source rects are equal, or the new texture is opaque
    and the texture of [prevObj] can be superimposed, then [add] erases
    the first such method, and that one only, before it appends the new
    method: to [prevObj] with draw mode Triangles when the states are
    equal, in a new object otherwise.  The number of methods in the pool
    is unchanged. *)
Theorem add_removes_first_hidden_method (state : Painter.PainterState)
    (method : Pool.DrawMethod) (drawMode : Painter.DrawMode) (d : DrawPool.DrawPool)
    (p : Pool.Pool) (front : list Pool.DrawObject) (prevObj : Pool.DrawObject) :
  DrawPool.currentPool d = Ok p ->
  Pool.m_objects p = front ++ [prevObj] ->
  (forall d', DrawPool.add state method drawMode d = Ok d' ->
     exists p' tail,
       d' = DrawPool.setCurrentPool p' d
       /\ Pool.m_objects p' = front ++ tail
       /\ forall p2 front2, Pool.m_objects p2 = front2 ++ [prevObj] ->
            exists p2', DrawPool.add_pool state method drawMode p2 = Ok p2'
                        /\ Pool.m_objects p2' = front2 ++ tail)
  /\ (forall t pt,
      point_isNull (Pool.dest method) = false ->
      Painter.texture state = Some t ->
      Painter.texture (Pool.state prevObj) = Some pt ->
      let sameState := Painter.state_eqb (Pool.state prevObj) state in
      (exists m, In m (Pool.drawMethods prevObj)
                 /\ DrawPool.hidden t pt sameState method m = true) ->
      exists before m rest p',
        Pool.drawMethods prevObj = before ++ m :: rest
        /\ Forall (fun x => DrawPool.hidden t pt sameState method x = false) before
        /\ DrawPool.hidden t pt sameState method m = true
        /\ DrawPool.add state method drawMode d = Ok (DrawPool.setCurrentPool p' d)
        /\ (sameState = true ->
            Pool.m_objects p'
            = front ++ [Pool.mkDrawObject (Pool.state prevObj) Painter.Triangles
                          (before ++ rest ++ [method]) (Pool.action prevObj)])
        /\ (sameState = false ->
            Pool.m_objects p'
            = front ++ [Pool.mkDrawObject (Pool.state prevObj) (Pool.drawMode prevObj)
                          (before ++ rest) (Pool.action prevObj);
                        DrawPool.newObject state drawMode method])
        /\ DrawPool.methodCount (Pool.m_objects p')
           = DrawPool.methodCount (Pool.m_objects p)).
Proof.
  intros Hp Hobj. split.
  - intros d' Hadd. unfold DrawPool.add in Hadd.
    apply withCurrentPool_inv in Hadd as (p0 & p' & Hp0 & Hadd & ->).
    assert (p0 = p) as -> by congruence.
    rewrite (add_pool_snoc _ _ _ _ _ _ Hobj) in Hadd.
    destruct (if negb (point_isNull (Pool.dest method)) then _ else _) as [ms |] eqn:Hms;
      simpl in Hadd; [| discriminate].
    injection Hadd as <-.
    exists (Pool.set_objects
              (front ++ DrawPool.trailing state method drawMode prevObj ms)
              (DrawPool.updateHash_pool state method p)),
           (DrawPool.trailing state method drawMode prevObj ms).
    split; [reflexivity |]. split; [reflexivity |].
    intros p2 front2 Hobj2. rewrite (add_pool_snoc _ _ _ _ _ _ Hobj2), Hms. simpl.
    eexists. split; reflexivity.
  - intros t pt Hdest Ht Hpt sameState Hex.
    destruct (first_true_split _ _ Hex) as (before & m & rest & Hsplit & Hbefore & Hm).
    exists before, m, rest.
    exists (Pool.set_objects
              (front ++ DrawPool.trailing state method drawMode prevObj (before ++ rest))
              (DrawPool.updateHash_pool state method p)).
    split; [exact Hsplit |]. split; [exact Hbefore |]. split; [exact Hm |].
    split; [| split; [| split]].
    + apply (add_Ok _ _ _ _ _ _ Hp).
      rewrite (add_pool_snoc _ _ _ _ _ _ Hobj), Hdest. simpl negb. cbv iota.
      rewrite Hsplit.
      rewrite (eraseHidden_first _ _ _ _ _ _ _ _ _ Ht Hpt Hbefore Hm).
      reflexivity.
    + intros Hsame. simpl. unfold DrawPool.trailing. fold sameState. rewrite Hsame.
      rewrite <- app_assoc. reflexivity.
    + intros Hsame. simpl. unfold DrawPool.trailing. fold sameState. rewrite Hsame.
      reflexivity.
    + simpl. rewrite Hobj, !methodCount_app. f_equal.
      unfold DrawPool.trailing. fold sameState.
      destruct sameState; simpl; rewrite Hsplit, ?length_app; simpl;
        rewrite ?length_app; simpl; lia.
Qed.


(** The scan removes one method or none. *)
Lemma eraseHidden_length (state prevState : Painter.PainterState) (sameState : bool)
    (method : Pool.DrawMethod) (ms ms' : list Pool.DrawMethod) :
  DrawPool.eraseHidden state prevState sameState method ms = Ok ms' ->
  ms' = ms \/ S (length ms') = length ms.
Proof.
  revert ms'. induction ms as [| m ms IH]; intros ms'; simpl.
  - intros [= <-]. left. reflexivity.
  - destruct (DrawPool.hides state prevState sameState method m) as [[|] |]; simpl;
      [| | discriminate].
    + intros [= <-]. right. reflexivity.
    + destruct (DrawPool.eraseHidden state prevState sameState method ms) as [rest |];
        simpl; [| discriminate].
      intros [= <-]. destruct (IH rest eq_refl) as [-> | Hlen].
      * left. reflexivity.
      * right. simpl. rewrite Hlen. reflexivity.
Qed.

Lemma scan_length (state prevState : Painter.PainterState) (sameState : bool)
    (method : Pool.DrawMethod) (ms ms' : list Pool.DrawMethod) :
  (if negb (point_isNull (Pool.dest method))
   then DrawPool.eraseHidden state prevState sameState method ms
   else Ok ms) = Ok ms' ->
  (ms' = ms \/ S (length ms') = length ms)
  /\ (point_isNull (Pool.dest method) = true -> ms' = ms).
Proof.
  destruct (point_isNull (Pool.dest method)); simpl.
  - intros [= <-]. split; [left; reflexivity | reflexivity].
  - intros H. split; [eapply eraseHidden_length; exact H | discriminate].
Qed.

Lemma eraseHidden_safe (state prevState : Painter.PainterState) (sameState : bool)
    (method : Pool.DrawMethod) (ms : list Pool.DrawMethod) :
  point_isNull (Pool.dest method) = false ->
  is_Some (Painter.texture state) ->
  (forall m, m ∈ ms -> point_isNull (Pool.dest m) = false ->
             is_Some (Painter.texture prevState)) ->
  exists ms', DrawPool.eraseHidden state prevState sameState method ms = Ok ms'
              /\ ms' ⊆ ms.
Proof.
  intros Hnull [t Ht] Hprev. induction ms as [| m ms IH]; simpl.
  - exists []. split; [reflexivity | done].
  - assert (Hh : exists b, DrawPool.hides state prevState sameState method m = Ok b).
    { destruct (point_eqb (Pool.dest m) (Pool.dest method)) eqn:Heq.
      - apply point_eqb_eq in Heq.
        destruct (Hprev m) as [pt Hpt]; [apply list_elem_of_here | congruence |].
        rewrite (hides_bound _ _ _ _ _ _ _ Ht Hpt). eauto.
      - rewrite (hides_other_dest _ _ _ _ _ Heq). eauto. }
    destruct Hh as (b & ->). simpl. destruct b.
    + exists ms. split; [reflexivity |].
      intros x Hx. apply list_elem_of_further. exact Hx.
    + destruct IH as (ms' & -> & Hsub).
      { intros m' Hin. apply Hprev. apply list_elem_of_further. exact Hin. }
      simpl. exists (m :: ms'). split; [reflexivity |].
      intros x Hx. apply elem_of_cons in Hx as [-> | Hx].
      * apply list_elem_of_here.
      * apply list_elem_of_further. apply Hsub. exact Hx.
Qed.

(** ** Sequences of calls on the current pool *)

Lemma runCall_lift (c : DrawPool.call) (d : DrawPool.DrawPool) :
  DrawPool.runCall c d = DrawPool.withCurrentPool (DrawPool.runCall_pool c) d.
Proof. destruct c; reflexivity. Qed.

Lemma runCalls_lift (cs : list DrawPool.call) (d : DrawPool.DrawPool) (p : Pool.Pool) :
  DrawPool.currentPool d = Ok p ->
  DrawPool.runCalls cs d
  = p' ← DrawPool.runCalls_pool cs p; Ok (DrawPool.setCurrentPool p' d).
Proof.
  revert d p. induction cs as [| c cs IH]; intros d p Hp; simpl.
  - rewrite (setCurrentPool_same _ _ Hp). reflexivity.
  - rewrite runCall_lift.
    destruct (DrawPool.runCall_pool c p) as [p1 | e] eqn:Hc; simpl.
    + rewrite (withCurrentPool_Ok _ _ _ _ Hp Hc). simpl.
      rewrite (IH _ p1 (currentPool_setCurrentPool _ _ _ Hp)).
      destruct (DrawPool.runCalls_pool cs p1) as [p2 |]; simpl; [| reflexivity].
      rewrite setCurrentPool_twice. reflexivity.
    + rewrite (withCurrentPool_Err _ _ _ _ Hp Hc). reflexivity.
Qed.

(** No method of [ms] has the destination of [m], when that one is not
    null. *)
Lemma other_dests (ms : list Pool.DrawMethod) (m : Pool.DrawMethod)
    (l : list Pool.DrawMethod) :
  DrawPool.distinctDests (ms ++ m :: l) ->
  point_isNull (Pool.dest m) = false ->
  Forall (fun m' => point_eqb (Pool.dest m') (Pool.dest m) = false) ms.
Proof.
  unfold DrawPool.distinctDests.
  rewrite fmap_app, fmap_cons, List.filter_app. cbn [List.filter].
  intros Hnd Hnull. rewrite Hnull in Hnd. cbn [negb] in Hnd.
  apply NoDup_app in Hnd as (_ & Hdisj & _).
  apply Forall_forall. intros m' Hin. apply point_eqb_neq. intros Heq.
  apply (Hdisj (Pool.dest m')).
  - apply list_elem_of_In, List.filter_In. split.
    + apply list_elem_of_In, list_elem_of_fmap. exists m'. split; [reflexivity | exact Hin].
    + rewrite Heq, Hnull. reflexivity.
  - rewrite Heq. apply list_elem_of_here.
Qed.

Lemma distinctDests_tail (m : Pool.DrawMethod) (l : list Pool.DrawMethod) :
  DrawPool.distinctDests (m :: l) -> DrawPool.distinctDests l.
Proof.
  unfold DrawPool.distinctDests. rewrite fmap_cons. cbn [List.filter].
  destruct (negb (point_isNull (Pool.dest m))); [| auto].
  intros H. apply NoDup_cons in H as [_ H]. exact H.
Qed.

(** The scan removes nothing when the destinations that are not null are
    distinct. *)
Lemma scan_distinct_dests (state prevState : Painter.PainterState) (sameState : bool)
    (m : Pool.DrawMethod) (ms l : list Pool.DrawMethod) :
  DrawPool.distinctDests (ms ++ m :: l) ->
  (if negb (point_isNull (Pool.dest m))
   then DrawPool.eraseHidden state prevState sameState m ms
   else Ok ms) = Ok ms.
Proof.
  intros H. destruct (point_isNull (Pool.dest m)) eqn:Hnull; [reflexivity |].
  apply eraseHidden_other_dests. apply (other_dests _ _ _ H Hnull).
Qed.

Lemma merge_run (s0 : Painter.PainterState) (a0 : Action) (rest : list DrawPool.addArgs) :
  forall (p : Pool.Pool) (dm : Painter.DrawMode) (ms : list Pool.DrawMethod),
    Pool.m_objects p = [Pool.mkDrawObject s0 dm ms a0] ->
    Forall (fun a => Painter.state_eqb s0 (DrawPool.argState a) = true) rest ->
    DrawPool.distinctDests (ms ++ (DrawPool.argMethod <$> rest)) ->
    exists p',
      DrawPool.runCalls_pool (DrawPool.addCall <$> rest) p = Ok p'
      /\ Pool.m_objects p'
         = [Pool.mkDrawObject s0 (match rest with [] => dm | _ => Painter.Triangles end)
                              (ms ++ (DrawPool.argMethod <$> rest)) a0].
Proof.
  induction rest as [| a rest IH]; intros p dm ms Hobj Heq Hnd.
  - exists p. simpl. rewrite app_nil_r. auto.
  - inversion Heq as [| ? ? Ha Hrest]; subst.
    rewrite fmap_cons in Hnd.
    cbn [fmap list_fmap DrawPool.runCalls_pool DrawPool.addCall DrawPool.runCall_pool].
    rewrite (add_pool_snoc _ _ _ _ [] _ Hobj). cbn [Pool.state Pool.drawMethods].
    rewrite (scan_distinct_dests _ _ _ _ _ _ Hnd).
    cbn [mbind result_bind]. unfold DrawPool.trailing. cbn [Pool.state].
    rewrite Ha. cbn [app Pool.action].
    edestruct (IH (Pool.set_objects
                     [Pool.mkDrawObject s0 Painter.Triangles
                                        (ms ++ [DrawPool.argMethod a]) a0]
                     (DrawPool.updateHash_pool (DrawPool.argState a)
                                               (DrawPool.argMethod a) p))
                  Painter.Triangles (ms ++ [DrawPool.argMethod a]))
      as (p' & Hrun & Hobj').
    + reflexivity.
    + exact Hrest.
    + rewrite <- app_assoc. exact Hnd.
    + exists p'. split; [exact Hrun |]. rewrite Hobj', <- app_assoc.
      destruct rest; reflexivity.
Qed.

Lemma sibling_run (rest : list DrawPool.addArgs) :
  forall (p : Pool.Pool) (front : list Pool.DrawObject) (a : DrawPool.addArgs),
    Pool.m_objects p = front ++ [DrawPool.objectOf a] ->
    DrawPool.statesAlternate (a :: rest) ->
    DrawPool.distinctDests (DrawPool.argMethod <$> a :: rest) ->
    exists p',
      DrawPool.runCalls_pool (DrawPool.addCall <$> rest) p = Ok p'
      /\ Pool.m_objects p' = front ++ (DrawPool.objectOf <$> a :: rest).
Proof.
  induction rest as [| b rest IH]; intros p front a Hobj Halt Hnd.
  - exists p. auto.
  - cbn [fmap list_fmap DrawPool.runCalls_pool DrawPool.addCall DrawPool.runCall_pool].
    rewrite (add_pool_snoc _ _ _ _ _ _ Hobj).
    cbn [DrawPool.objectOf DrawPool.newObject Pool.state Pool.drawMethods].
    rewrite !fmap_cons in Hnd.
    rewrite (scan_distinct_dests _ _ _ (DrawPool.argMethod b) [DrawPool.argMethod a] _ Hnd).
    cbn [mbind result_bind]. unfold DrawPool.trailing.
    cbn [Pool.state Pool.drawMode Pool.action DrawPool.objectOf DrawPool.newObject].
    rewrite (Halt O a b eq_refl eq_refl).
    edestruct (IH (Pool.set_objects
                     (front ++ [DrawPool.objectOf a; DrawPool.objectOf b])
                     (DrawPool.updateHash_pool (DrawPool.argState b)
                                               (DrawPool.argMethod b) p))
                  (front ++ [DrawPool.objectOf a]) b)
      as (p' & Hrun & Hobj').
    + simpl. rewrite <- app_assoc. reflexivity.
    + intros i x y Hx Hy. apply (Halt (S i) x y); assumption.
    + apply distinctDests_tail in Hnd. rewrite !fmap_cons. exact Hnd.
    + exists p'. split; [exact Hrun |]. rewrite Hobj', <- app_assoc. reflexivity.
Qed.

(** What the scan of a call leaves of the single method of the object
    before it. *)
Lemma scan_single (state prevState : Painter.PainterState) (sameState : bool)
    (m m0 : Pool.DrawMethod) (ms : list Pool.DrawMethod) :
  (if negb (point_isNull (Pool.dest m))
   then DrawPool.eraseHidden state prevState sameState m [m0]
   else Ok [m0]) = Ok ms ->
  ms = [m0] \/ ms = [].
Proof.
  intros H. apply scan_length in H as [[-> | H] _]; [left; reflexivity |].
  right. destruct ms; [reflexivity | discriminate].
Qed.

(** Calls whose states alternate, whatever their destinations: one
    object for each call. *)
Lemma sibling_any (rest : list DrawPool.addArgs) :
  forall (p p' : Pool.Pool) (front : list Pool.DrawObject) (a : DrawPool.addArgs),
    Pool.m_objects p = front ++ [DrawPool.objectOf a] ->
    DrawPool.statesAlternate (a :: rest) ->
    DrawPool.runCalls_pool (DrawPool.addCall <$> rest) p = Ok p' ->
    exists objs,
      Pool.m_objects p' = front ++ objs
      /\ Forall2 DrawPool.siblingOf (a :: rest) objs
      /\ last objs = DrawPool.objectOf <$> last (a :: rest).
Proof.
  induction rest as [| b rest IH]; intros p p' front a Hobj Halt.
  - intros [= <-]. exists [DrawPool.objectOf a]. split; [exact Hobj |]. split.
    + apply Forall2_cons. split; [| apply Forall2_nil_2].
      repeat split. left. reflexivity.
    + reflexivity.
  - cbn [fmap list_fmap DrawPool.runCalls_pool DrawPool.addCall DrawPool.runCall_pool].
    rewrite (add_pool_snoc _ _ _ _ _ _ Hobj).
    cbn [DrawPool.objectOf DrawPool.newObject Pool.state Pool.drawMethods].
    match goal with
    | |- mbind _ (mbind _ ?scan) = _ -> _ => destruct scan as [methods |] eqn:Hscan
    end; cbn [mbind result_bind]; [| discriminate].
    unfold DrawPool.trailing.
    cbn [Pool.state Pool.drawMode Pool.action DrawPool.objectOf DrawPool.newObject].
    rewrite (Halt O a b eq_refl eq_refl).
    set (obj := Pool.mkDrawObject (DrawPool.argState a) (DrawPool.argDrawMode a) methods None).
    intros Hrun.
    destruct (IH (Pool.set_objects (front ++ [obj; DrawPool.objectOf b])
                    (DrawPool.updateHash_pool (DrawPool.argState b)
                                              (DrawPool.argMethod b) p))
                 p' (front ++ [obj]) b) as (objs & Hobj' & Hall & Hlast).
    + simpl. rewrite <- app_assoc. reflexivity.
    + intros i x y Hx Hy. apply (Halt (S i) x y); assumption.
    + exact Hrun.
    + exists (obj :: objs). split; [rewrite Hobj', <- app_assoc; reflexivity |]. split.
      * apply Forall2_cons. split; [| exact Hall].
        repeat split. apply (scan_single _ _ _ _ _ _ Hscan).
      * inversion Hall as [| ? o ? objs' ? ? Heq]; subst.
        change (last (obj :: o :: objs')) with (last (o :: objs')).
        rewrite Hlast. reflexivity.
Qed.

(** They return when each call with a destination binds a texture. *)
Lemma sibling_total (rest : list DrawPool.addArgs) :
  forall (p : Pool.Pool) (front : list Pool.DrawObject) (a : DrawPool.addArgs),
    Pool.m_objects p = front ++ [DrawPool.objectOf a] ->
    DrawPool.statesAlternate (a :: rest) ->
    Forall DrawPool.texturedArgs (a :: rest) ->
    exists p', DrawPool.runCalls_pool (DrawPool.addCall <$> rest) p = Ok p'.
Proof.
  induction rest as [| b rest IH]; intros p front a Hobj Halt Htex.
  - exists p. reflexivity.
  - inversion Htex as [| ? ? Ha Htex']; subst.
    inversion Htex' as [| ? ? Hb _]; subst.
    cbn [fmap list_fmap DrawPool.runCalls_pool DrawPool.addCall DrawPool.runCall_pool].
    rewrite (add_pool_snoc _ _ _ _ _ _ Hobj).
    cbn [DrawPool.objectOf DrawPool.newObject Pool.state Pool.drawMethods].
    assert (Hscan : exists methods,
               (if negb (point_isNull (Pool.dest (DrawPool.argMethod b)))
                then DrawPool.eraseHidden (DrawPool.argState b) (DrawPool.argState a)
                       (Painter.state_eqb (DrawPool.argState a) (DrawPool.argState b))
                       (DrawPool.argMethod b) [DrawPool.argMethod a]
                else Ok [DrawPool.argMethod a]) = Ok methods).
    { destruct (point_isNull (Pool.dest (DrawPool.argMethod b))) eqn:Hnull; [eauto |].
      destruct (eraseHidden_safe (DrawPool.argState b) (DrawPool.argState a)
                  (Painter.state_eqb (DrawPool.argState a) (DrawPool.argState b))
                  (DrawPool.argMethod b) [DrawPool.argMethod a] Hnull (Hb Hnull))
        as (ms' & Hms' & _); [| eauto].
      intros m Hm Hm0. apply list_elem_of_singleton in Hm as ->. apply (Ha Hm0). }
    destruct Hscan as (methods & ->). cbn [mbind result_bind].
    unfold DrawPool.trailing.
    cbn [Pool.state Pool.drawMode Pool.action DrawPool.objectOf DrawPool.newObject].
    rewrite (Halt O a b eq_refl eq_refl).
    set (obj := Pool.mkDrawObject (DrawPool.argState a) (DrawPool.argDrawMode a) methods None).
    apply (IH (Pool.set_objects (front ++ [obj; DrawPool.objectOf b])
                 (DrawPool.updateHash_pool (DrawPool.argState b)
                                           (DrawPool.argMethod b) p))
              (front ++ [obj]) b).
    + simpl. rewrite <- app_assoc. reflexivity.
    + intros i x y Hx Hy. apply (Halt (S i) x y); assumption.
    + exact Htex'.
Qed.

(** C4.  A sequence of [add] calls into an empty current pool.

    If the states of the calls are all equal and the destinations that
    are not null are pairwise distinct (a method with a null destination
    never starts the scan, so such methods may be as many as one likes),
    the pool ends with exactly one object: it has the first call's
    state, holds every method in call order, and its draw mode is
    Triangles as soon as there is a second call (the first call's draw
    mode until then).

    If every call's state differs from the state of the call before it,
    then, whatever the destinations: whenever the calls return, the pool
    holds one object per call, in call order, each with the state and
    the draw mode of its call and with the call's method, unless the
    scan of the next call removed it, and the last one as its call made
    it; the calls do return when each call with a destination binds a
    texture; and when the destinations that are not null are pairwise
    distinct, every object is as its call made it. *)
Theorem add_merges_equal_states (d : DrawPool.DrawPool) (p : Pool.Pool)
    (a : DrawPool.addArgs) (rest : list DrawPool.addArgs) :
  DrawPool.currentPool d = Ok p ->
  Pool.m_objects p = [] ->
  ((forall x y, x ∈ a :: rest -> y ∈ a :: rest ->
                Painter.state_eqb (DrawPool.argState x) (DrawPool.argState y) = true) ->
   DrawPool.distinctDests (DrawPool.argMethod <$> a :: rest) ->
   exists p',
     DrawPool.runCalls (DrawPool.addCall <$> a :: rest) d
     = Ok (DrawPool.setCurrentPool p' d)
     /\ Pool.m_objects p'
        = [Pool.mkDrawObject
             (DrawPool.argState a)
             (match rest with [] => DrawPool.argDrawMode a | _ => Painter.Triangles end)
             (DrawPool.argMethod <$> a :: rest) None])
  /\ (DrawPool.statesAlternate (a :: rest) ->
      (forall d',
          DrawPool.runCalls (DrawPool.addCall <$> a :: rest) d = Ok d' ->
          exists p',
            d' = DrawPool.setCurrentPool p' d
            /\ Forall2 DrawPool.siblingOf (a :: rest) (Pool.m_objects p')
            /\ last (Pool.m_objects p') = DrawPool.objectOf <$> last (a :: rest))
      /\ (Forall DrawPool.texturedArgs (a :: rest) ->
          exists d', DrawPool.runCalls (DrawPool.addCall <$> a :: rest) d = Ok d')
      /\ (DrawPool.distinctDests (DrawPool.argMethod <$> a :: rest) ->
          exists p',
            DrawPool.runCalls (DrawPool.addCall <$> a :: rest) d
            = Ok (DrawPool.setCurrentPool p' d)
            /\ Pool.m_objects p' = DrawPool.objectOf <$> a :: rest)).
Proof.
  intros Hp Hobj.
  rewrite (runCalls_lift _ _ _ Hp).
  cbn [fmap list_fmap DrawPool.runCalls_pool DrawPool.addCall DrawPool.runCall_pool].
  rewrite (add_pool_empty _ _ _ _ Hobj). cbn [mbind result_bind].
  change (list_fmap _ _ DrawPool.addCall rest) with (DrawPool.addCall <$> rest).
  set (p1 := Pool.set_objects
               [DrawPool.newObject (DrawPool.argState a) (DrawPool.argDrawMode a)
                                   (DrawPool.argMethod a)]
               (DrawPool.updateHash_pool (DrawPool.argState a) (DrawPool.argMethod a) p)).
  split.
  - intros Heq Hnd.
    edestruct (merge_run (DrawPool.argState a) None rest p1
                 (DrawPool.argDrawMode a) [DrawPool.argMethod a])
      as (p' & Hrun & Hobj').
    + reflexivity.
    + apply Forall_forall. intros x Hx. apply Heq.
      * apply list_elem_of_here.
      * apply list_elem_of_further. exact Hx.
    + exact Hnd.
    + exists p'. rewrite Hrun. split; [reflexivity | exact Hobj'].
  - intros Halt. split; [| split].
    + intros d' Hrun.
      destruct (DrawPool.runCalls_pool (DrawPool.addCall <$> rest) p1) as [p' |] eqn:Hp';
        cbn [mbind result_bind] in Hrun; [| discriminate].
      injection Hrun as <-.
      destruct (sibling_any rest p1 p' [] a eq_refl Halt Hp') as (objs & Hobjs & Hall & Hlast).
      exists p'. split; [reflexivity |]. rewrite Hobjs. auto.
    + intros Htex.
      destruct (sibling_total rest p1 [] a eq_refl Halt Htex) as (p' & ->). eauto.
    + intros Hnd.
      destruct (sibling_run rest p1 [] a eq_refl Halt Hnd) as (p' & Hrun & Hobj').
      exists p'. rewrite Hrun. split; [reflexivity | exact Hobj'].
Qed.


(** ** addRepeated *)

Lemma find_if_Some {A : Type} (f : A -> bool) (l : list A) (k : nat) :
  DrawPool.find_if f l = Some k ->
  exists x, l !! k = Some x /\ f x = true
            /\ forall j y, (j < k)%nat -> l !! j = Some y -> f y = false.
Proof.
  revert k. induction l as [| a l IH]; intros k; simpl; [discriminate |].
  destruct (f a) eqn:Ha.
  - intros [= <-]. exists a. split; [reflexivity |]. split; [exact Ha |]. lia.
  - destruct (DrawPool.find_if f l) as [k' |]; simpl; [| discriminate].
    intros [= <-]. destruct (IH k' eq_refl) as (x & Hx & Hfx & Hbefore).
    exists x. split; [exact Hx |]. split; [exact Hfx |].
    intros [| j] y Hj; simpl.
    + intros [= <-]. exact Ha.
    + apply Hbefore. lia.
Qed.

Lemma find_if_None {A : Type} (f : A -> bool) (l : list A) :
  DrawPool.find_if f l = None -> forall j y, l !! j = Some y -> f y = false.
Proof.
  induction l as [| a l IH]; simpl; intros H j y; [discriminate |].
  destruct (f a) eqn:Ha; [discriminate |].
  destruct (DrawPool.find_if f l); [discriminate |].
  destruct j as [| j]; simpl.
  - intros [= <-]. exact Ha.
  - apply IH. reflexivity.
Qed.

Lemma find_if_first {A : Type} (f : A -> bool) (l : list A) (k : nat) (x : A) :
  l !! k = Some x -> f x = true ->
  (forall j y, (j < k)%nat -> l !! j = Some y -> f y = false) ->
  DrawPool.find_if f l = Some k.
Proof.
  revert k. induction l as [| a l IH]; intros k Hx Hfx Hbefore; [discriminate |].
  destruct k as [| k]; simpl in *.
  - injection Hx as ->. rewrite Hfx. reflexivity.
  - rewrite (Hbefore O a) by (lia || reflexivity).
    rewrite (IH k Hx Hfx); [reflexivity |].
    intros j y Hj Hy. apply (Hbefore (S j) y); [lia | exact Hy].
Qed.

Lemma find_if_none {A : Type} (f : A -> bool) (l : list A) :
  (forall j y, l !! j = Some y -> f y = false) -> DrawPool.find_if f l = None.
Proof.
  induction l as [| a l IH]; intros H; simpl; [reflexivity |].
  rewrite (H O a eq_refl). rewrite IH; [reflexivity |].
  intros j y Hy. apply (H (S j) y Hy).
Qed.

Lemma startIndex_updateHash (state : Painter.PainterState) (method : Pool.DrawMethod)
    (p : Pool.Pool) :
  DrawPool.startIndex (DrawPool.updateHash_pool state method p) = DrawPool.startIndex p.
Proof.
  unfold DrawPool.startIndex.
  destruct (updateHash_pool_keeps state method p) as (_ & _ & _ & ->). reflexivity.
Qed.

Lemma addRepeated_pool_found (state : Painter.PainterState) (method : Pool.DrawMethod)
    (drawMode : Painter.DrawMode) (p : Pool.Pool) (k : nat) (obj : Pool.DrawObject) :
  (Z.to_nat (DrawPool.startIndex p) <= length (Pool.m_objects p))%nat ->
  DrawPool.firstMatch state (Z.to_nat (DrawPool.startIndex p)) (Pool.m_objects p) k obj ->
  DrawPool.addRepeated_pool state method drawMode p
  = Ok (Pool.set_objects (alter (DrawPool.push_back_method method) k (Pool.m_objects p))
                         (DrawPool.updateHash_pool state method p)).
Proof.
  intros Hle (Hk & Hstart & Heq & Hbefore).
  unfold DrawPool.addRepeated_pool. cbv zeta. rewrite startIndex_updateHash.
  destruct (updateHash_pool_keeps state method p) as (-> & _).
  set (start := Z.to_nat (DrawPool.startIndex p)) in *.
  rewrite (leb_correct _ _ Hle).
  rewrite (find_if_first _ _ (k - start) obj).
  - replace (start + (k - start))%nat with k by lia. reflexivity.
  - rewrite lookup_drop. replace (start + (k - start))%nat with k by lia. exact Hk.
  - exact Heq.
  - intros j o Hj. rewrite lookup_drop. apply Hbefore; lia.
Qed.

Lemma addRepeated_pool_notfound (state : Painter.PainterState)
    (method : Pool.DrawMethod) (drawMode : Painter.DrawMode) (p : Pool.Pool) :
  (Z.to_nat (DrawPool.startIndex p) <= length (Pool.m_objects p))%nat ->
  DrawPool.noMatch state (Z.to_nat (DrawPool.startIndex p)) (Pool.m_objects p) ->
  DrawPool.addRepeated_pool state method drawMode p
  = Ok (Pool.set_objects
          (Pool.m_objects p ++ [DrawPool.newObject state drawMode method])
          (DrawPool.updateHash_pool state method p)).
Proof.
  intros Hle Hno.
  unfold DrawPool.addRepeated_pool. cbv zeta. rewrite startIndex_updateHash.
  destruct (updateHash_pool_keeps state method p) as (-> & _).
  set (start := Z.to_nat (DrawPool.startIndex p)) in *.
  rewrite (leb_correct _ _ Hle).
  rewrite find_if_none; [reflexivity |].
  intros j o. rewrite lookup_drop. apply Hno. lia.
Qed.

(** Where the method of a successful [addRepeated] went. *)
Lemma addRepeated_pool_landing (state : Painter.PainterState)
    (method : Pool.DrawMethod) (drawMode : Painter.DrawMode) (p p1 : Pool.Pool) :
  Painter.state_eqb state state = true ->
  DrawPool.addRepeated_pool state method drawMode p = Ok p1 ->
  exists k obj1,
    DrawPool.firstMatch state (Z.to_nat (DrawPool.startIndex p)) (Pool.m_objects p1) k obj1
    /\ last (Pool.drawMethods obj1) = Some method.
Proof.
  intros Hrefl. unfold DrawPool.addRepeated_pool. cbv zeta.
  rewrite startIndex_updateHash.
  destruct (updateHash_pool_keeps state method p) as (-> & _).
  set (start := Z.to_nat (DrawPool.startIndex p)) in *.
  destruct (start <=? length (Pool.m_objects p))%nat eqn:Hle; [| discriminate].
  apply Nat.leb_le in Hle.
  destruct (DrawPool.find_if _ _) as [k' |] eqn:Hfind; intros [= <-]; simpl.
  - apply find_if_Some in Hfind as (obj & Hobj & Heq & Hbefore).
    rewrite lookup_drop in Hobj.
    exists (start + k')%nat, (DrawPool.push_back_method method obj).
    split; [| apply last_snoc].
    split; [| split; [lia | split; [exact Heq |]]].
    + rewrite list_lookup_alter_eq, Hobj. reflexivity.
    + intros j o Hj Hjk. rewrite list_lookup_alter_ne by lia. intros Ho.
      apply (Hbefore (j - start)%nat o); [lia |].
      rewrite lookup_drop. replace (start + (j - start))%nat with j by lia. exact Ho.
  - exists (length (Pool.m_objects p)), (DrawPool.newObject state drawMode method).
    split; [| reflexivity].
    split; [| split; [exact Hle | split; [exact Hrefl |]]].
    + apply list_lookup_middle. reflexivity.
    + intros j o Hj Hjk. rewrite lookup_app_l by exact Hjk. intros Ho.
      apply (find_if_None _ _ Hfind (j - start)%nat o).
      rewrite lookup_drop. replace (start + (j - start))%nat with j by lia. exact Ho.
Qed.


Lemma addRepeated_pool_total (state : Painter.PainterState) (method : Pool.DrawMethod)
    (drawMode : Painter.DrawMode) (p : Pool.Pool) :
  (Z.to_nat (DrawPool.startIndex p) <= length (Pool.m_objects p))%nat ->
  exists p1, DrawPool.addRepeated_pool state method drawMode p = Ok p1.
Proof.
  intros Hle. unfold DrawPool.addRepeated_pool. cbv zeta.
  rewrite startIndex_updateHash.
  destruct (updateHash_pool_keeps state method p) as (-> & _).
  rewrite (leb_correct _ _ Hle).
  destruct (DrawPool.find_if _ _); eauto.
Qed.

Lemma addRepeated_Ok (state : Painter.PainterState) (method : Pool.DrawMethod)
    (drawMode : Painter.DrawMode) (d : DrawPool.DrawPool) (p p' : Pool.Pool) :
  DrawPool.currentPool d = Ok p ->
  DrawPool.addRepeated_pool state method drawMode p = Ok p' ->
  DrawPool.addRepeated state method drawMode d = Ok (DrawPool.setCurrentPool p' d).
Proof.
  intros Hp Hadd. unfold DrawPool.addRepeated. eapply withCurrentPool_Ok; eassumption.
Qed.

(** C6, as the code has it.  The search of [addRepeated] starts at
    position 0 when [m_indexToStartSearching] is 0, and at the position
    one before [m_indexToStartSearching] otherwise.  With that start
    inside the list, [addRepeated] appends the method to the first
    object from the start on whose state equals the given state, and
    appends a new object with that method when there is none.  Hence,
    for a state that equals itself: the first call puts its method in
    some object, at a position [k]; and whatever objects are appended
    before a second call with the same state, as long as the start has
    not moved back and has not moved past [k], the second call puts its
    method in that same object and adds no object. *)
Theorem addRepeated_appends_to_first_match (state : Painter.PainterState)
    (method : Pool.DrawMethod) (drawMode : Painter.DrawMode) (d : DrawPool.DrawPool)
    (p : Pool.Pool) :
  DrawPool.currentPool d = Ok p ->
  let start := Z.to_nat (DrawPool.startIndex p) in
  (start <= length (Pool.m_objects p))%nat ->
  (Pool.m_indexToStartSearching p = 0 -> start = O)
  /\ (0 < Pool.m_indexToStartSearching p <= 65536 ->
      start = Z.to_nat (Pool.m_indexToStartSearching p - 1))
  /\ (forall k obj,
      DrawPool.firstMatch state start (Pool.m_objects p) k obj ->
      exists p',
        DrawPool.addRepeated state method drawMode d = Ok (DrawPool.setCurrentPool p' d)
        /\ Pool.m_objects p'
           = alter (DrawPool.push_back_method method) k (Pool.m_objects p)
        /\ Pool.m_objects p' !! k = Some (DrawPool.push_back_method method obj))
  /\ (DrawPool.noMatch state start (Pool.m_objects p) ->
      exists p',
        DrawPool.addRepeated state method drawMode d = Ok (DrawPool.setCurrentPool p' d)
        /\ Pool.m_objects p'
           = Pool.m_objects p ++ [DrawPool.newObject state drawMode method])
  /\ (Painter.state_eqb state state = true ->
      exists p1 k obj1,
        DrawPool.addRepeated state method drawMode d = Ok (DrawPool.setCurrentPool p1 d)
        /\ Pool.m_objects p1 !! k = Some obj1
        /\ last (Pool.drawMethods obj1) = Some method
        /\ forall d2 p2 extra method2 drawMode2,
             DrawPool.currentPool d2 = Ok p2 ->
             Pool.m_objects p2 = Pool.m_objects p1 ++ extra ->
             (start <= Z.to_nat (DrawPool.startIndex p2) <= k)%nat ->
             exists p3,
               DrawPool.addRepeated state method2 drawMode2 d2
               = Ok (DrawPool.setCurrentPool p3 d2)
               /\ length (Pool.m_objects p3) = length (Pool.m_objects p2)
               /\ Pool.m_objects p3 !! k
                  = Some (DrawPool.push_back_method method2 obj1)).
Proof.
  intros Hp start Hle. split; [| split; [| split; [| split]]].
  - intros H0. unfold start, DrawPool.startIndex. rewrite H0. reflexivity.
  - intros Hidx. unfold start, DrawPool.startIndex.
    destruct (Z.eqb_spec (Pool.m_indexToStartSearching p) 0); [lia |].
    rewrite Z.mod_small by lia. reflexivity.
  - intros k obj Hmatch. eexists. split; [| split].
    + apply (addRepeated_Ok _ _ _ _ _ _ Hp).
      apply (addRepeated_pool_found _ _ _ _ _ _ Hle Hmatch).
    + reflexivity.
    + simpl. destruct Hmatch as (Hk & _). rewrite list_lookup_alter_eq, Hk. reflexivity.
  - intros Hno. eexists. split.
    + apply (addRepeated_Ok _ _ _ _ _ _ Hp).
      apply (addRepeated_pool_notfound _ _ _ _ Hle Hno).
    + reflexivity.
  - intros Hrefl.
    destruct (addRepeated_pool_total state method drawMode p Hle) as (p1 & Hadd).
    destruct (addRepeated_pool_landing _ _ _ _ _ Hrefl Hadd)
      as (k & obj1 & (Hk & Hstart & Heq & Hbefore) & Hlast).
    exists p1, k, obj1.
    split; [apply (addRepeated_Ok _ _ _ _ _ _ Hp Hadd) |].
    split; [exact Hk |]. split; [exact Hlast |].
    intros d2 p2 extra method2 drawMode2 Hp2 Hobj2 [Hlo Hhi].
    pose proof (lookup_lt_Some _ _ _ Hk) as Hklt.
    assert (Hmatch2 : DrawPool.firstMatch state (Z.to_nat (DrawPool.startIndex p2))
                        (Pool.m_objects p2) k obj1).
    { rewrite Hobj2. split; [| split; [exact Hhi | split; [exact Heq |]]].
      - apply lookup_app_l_Some. exact Hk.
      - intros j o Hj Hjk. rewrite lookup_app_l by lia. apply Hbefore; fold start; lia. }
    assert (Hle2 : (Z.to_nat (DrawPool.startIndex p2) <= length (Pool.m_objects p2))%nat).
    { rewrite Hobj2, length_app. lia. }
    eexists. split; [| split].
    + apply (addRepeated_Ok _ _ _ _ _ _ Hp2).
      apply (addRepeated_pool_found _ _ _ _ _ _ Hle2 Hmatch2).
    + simpl. apply length_alter.
    + simpl. destruct Hmatch2 as (Hk2 & _).
      rewrite list_lookup_alter_eq, Hk2. reflexivity.
Qed.


(** ** Requests *)

(** What a successful request comes to. *)
Lemma runRequest_cases (cur : Painter.PainterState) (r : DrawPool.request)
    (d d' : DrawPool.DrawPool) :
  DrawPool.runRequest cur r d = Ok d' ->
  d' = d
  \/ (exists c, DrawPool.runCall c d = Ok d' /\ DrawPool.callFrom r c)
  \/ (exists pool, DrawPool.use pool d = Ok d')
  \/ (exists pool dest src, DrawPool.useFramed pool dest src d = Ok d')
  \/ (exists f, DrawPool.setter r = Some f
                /\ DrawPool.withCurrentPool (fun p => Ok (f p)) d = Ok d')
  \/ d' = DrawPool.after (DrawPool.draw d).
Proof.
  destruct r; cbn [DrawPool.runRequest];
    unfold DrawPool.addTexturedRect3, DrawPool.addRepeatedTexturedRect3,
      DrawPool.addRepeatedFilledRect2, DrawPool.addFilledRect2,
      DrawPool.addTexturedRect, DrawPool.addUpsideDownTexturedRect,
      DrawPool.addRepeatedTexturedRect, DrawPool.addRepeatedTexturedRepeatedRect,
      DrawPool.addRepeatedFilledRect, DrawPool.addFilledRect,
      DrawPool.addFilledTriangle, DrawPool.addBoundingRect, DrawPool.generateState;
    try (destruct texture as [t |];
         cbn [DrawPool.deref mbind mret result_bind result_ret]; [| discriminate]);
    try (match goal with
         | |- (if ?c then _ else _) = _ -> _ =>
           destruct c eqn:?; [intros [= <-]; left; reflexivity |]
         end;
         destruct (DrawPool.currentPool d) as [p |];
         cbn [mbind mret result_bind result_ret]; [| discriminate];
         intros Hrun; right; left;
         match type of Hrun with
         | DrawPool.add ?s ?m ?dm _ = _ => exists (DrawPool.CallAdd s m dm)
         | DrawPool.addRepeated ?s ?m ?dm _ = _ => exists (DrawPool.CallAddRepeated s m dm)
         end;
         (split; [exact Hrun |]); simpl; intros Hnull;
         first [discriminate Hnull | split; [reflexivity |]; eauto 8]).
  - intros H. right. left. eexists (DrawPool.CallAddAction _). split; [exact H | exact I].
  - intros H. right. right. left. eauto.
  - intros H. right. right. right. left. eauto.
  - intros H. right. right. right. right. left. eauto.
  - intros H. right. right. right. right. left. eauto.
  - intros [= <-]. right. right. right. right. right. reflexivity.
Qed.


Lemma poolwise_refl (R : Pool.Pool -> Pool.Pool -> Prop) (d : DrawPool.DrawPool) :
  (forall p, R p p) -> DrawPool.poolwise R d d.
Proof. intros Hrefl. split; [reflexivity |]. intros i p Hp. eauto. Qed.

Lemma poolwise_trans (R : Pool.Pool -> Pool.Pool -> Prop) (d1 d2 d3 : DrawPool.DrawPool) :
  (forall p q r, R p q -> R q r -> R p r) ->
  DrawPool.poolwise R d1 d2 -> DrawPool.poolwise R d2 d3 -> DrawPool.poolwise R d1 d3.
Proof.
  intros Htrans [Hl12 H12] [Hl23 H23]. split; [congruence |]. intros i p Hp.
  destruct (H12 i p Hp) as (q & Hq & Hpq).
  destruct (H23 i q Hq) as (r & Hr & Hqr). eauto.
Qed.

Lemma insert_poolwise (R : Pool.Pool -> Pool.Pool -> Prop) (d : DrawPool.DrawPool)
    (k : nat) (p p' : Pool.Pool) :
  (forall q, R q q) -> DrawPool.m_pools d !! k = Some p -> R p p' ->
  DrawPool.poolwise R d (DrawPool.set_pools (<[k := p']> (DrawPool.m_pools d)) d).
Proof.
  intros Hrefl Hk HR. split; [apply length_insert |]. intros i q Hq. simpl.
  destruct (decide (k = i)) as [-> | Hne].
  - rewrite list_lookup_insert_eq by (eapply lookup_lt_Some; exact Hq).
    assert (q = p) as -> by congruence. eauto.
  - rewrite list_lookup_insert_ne by exact Hne. eauto.
Qed.

Lemma withCurrentPool_poolwise (R : Pool.Pool -> Pool.Pool -> Prop)
    (f : Pool.Pool -> result Pool.Pool) (d d' : DrawPool.DrawPool) :
  (forall q, R q q) -> (forall p p', f p = Ok p' -> R p p') ->
  DrawPool.withCurrentPool f d = Ok d' -> DrawPool.poolwise R d d'.
Proof.
  intros Hrefl Hf Hrun.
  apply withCurrentPool_inv in Hrun as (p & p' & Hp & Hfp & ->).
  apply currentPool_Ok in Hp.
  apply (insert_poolwise R d _ p p' Hrefl Hp (Hf _ _ Hfp)).
Qed.

Lemma draw_poolwise (R : Pool.Pool -> Pool.Pool -> Prop) (d : DrawPool.DrawPool) :
  (forall i p, R p (DrawPool.draw_pool i p)) ->
  DrawPool.poolwise R d (DrawPool.after (DrawPool.draw d)).
Proof.
  intros HR. split.
  - rewrite draw_after. unfold DrawPool.forPools. simpl.
    rewrite !length_fmap, !length_imap, !length_fmap, !length_imap. reflexivity.
  - intros i p Hp. rewrite draw_lookup, Hp. simpl. eexists. split; [reflexivity |].
    apply HR.
Qed.

(** A property of pools that [R] carries over holds of every pool
    afterwards. *)
Lemma poolwise_Forall (R : Pool.Pool -> Pool.Pool -> Prop) (I : Pool.Pool -> Prop)
    (d d' : DrawPool.DrawPool) :
  (forall p p', R p p' -> I p -> I p') ->
  DrawPool.poolwise R d d' ->
  Forall I (DrawPool.m_pools d) -> Forall I (DrawPool.m_pools d').
Proof.
  intros HRI [Hlen Hpools] Hall. apply Forall_lookup. intros i p' Hp'.
  destruct (DrawPool.m_pools d !! i) as [p |] eqn:Hp.
  - destruct (Hpools i p Hp) as (p'' & Hp'' & HR).
    assert (p'' = p') as -> by congruence.
    apply (HRI p p' HR). apply (Forall_lookup_1 _ _ _ _ Hall Hp).
  - apply lookup_ge_None in Hp. apply lookup_lt_Some in Hp'. lia.
Qed.

(** A successful request moves every pool by steps of [poolStep]. *)
Lemma runRequest_steps (P : DrawPool.call -> Prop) (cur : Painter.PainterState)
    (r : DrawPool.request) (d d' : DrawPool.DrawPool) :
  (forall c, DrawPool.callFrom r c -> P c) ->
  DrawPool.runRequest cur r d = Ok d' ->
  DrawPool.poolwise (rtc (DrawPool.poolStep P)) d d'.
Proof.
  intros HP Hrun.
  assert (Hrefl : forall q, rtc (DrawPool.poolStep P) q q) by (intros; apply rtc_refl).
  apply runRequest_cases in Hrun
    as [-> | [(c & Hc & Hfrom) | [(pool & Huse) | [(pool & dest & src & Huse)
       | [(f & Hf & Hset) | ->]]]]].
  - apply poolwise_refl. exact Hrefl.
  - rewrite runCall_lift in Hc.
    apply (withCurrentPool_poolwise _ _ _ _ Hrefl) in Hc; [exact Hc |].
    intros p p' Hp. apply rtc_once. eapply DrawPool.step_call; [apply HP; exact Hfrom | exact Hp].
  - unfold DrawPool.use in Huse.
    apply (withCurrentPool_poolwise (rtc (DrawPool.poolStep P)) _ _ _ Hrefl) in Huse.
    + exact Huse.
    + intros p p' [= <-]. apply rtc_once. apply DrawPool.step_use.
  - unfold DrawPool.useFramed in Huse.
    destruct (DrawPool.use (Some pool) d) as [d1 |] eqn:Hd1; simpl in Huse; [| discriminate].
    unfold DrawPool.use in Hd1.
    apply (withCurrentPool_poolwise (rtc (DrawPool.poolStep P)) _ _ _ Hrefl) in Hd1.
    2: { intros p p' [= <-]. apply rtc_once. apply DrawPool.step_use. }
    destruct (DrawPool.m_pools d1 !! pool) as [p1 |] eqn:Hp1; [| discriminate].
    destruct (Pool.framed p1) as [pf |] eqn:Hpf; [| discriminate].
    injection Huse as <-.
    eapply poolwise_trans; [intros; etrans; eassumption | exact Hd1 |].
    apply (insert_poolwise _ d1 pool p1 _ Hrefl Hp1).
    apply rtc_once. apply (DrawPool.step_useFramed P dest src pf p1 Hpf).
  - apply (withCurrentPool_poolwise (rtc (DrawPool.poolStep P)) _ _ _ Hrefl) in Hset.
    + exact Hset.
    + intros p p' [= <-]. apply rtc_once. eapply DrawPool.step_setter. exact Hf.
  - apply draw_poolwise. intros i p. apply rtc_once. apply DrawPool.step_draw.
Qed.

Lemma runRequests_steps (P : DrawPool.call -> Prop)
    (rs : list (Painter.PainterState * DrawPool.request)) :
  forall d d',
    Forall (fun cr => forall c, DrawPool.callFrom (snd cr) c -> P c) rs ->
    DrawPool.runRequests rs d = Ok d' ->
    DrawPool.poolwise (rtc (DrawPool.poolStep P)) d d'.
Proof.
  induction rs as [| [cur r] rs IH]; intros d d' HP; simpl.
  - intros [= <-]. apply poolwise_refl. intros; apply rtc_refl.
  - inversion HP as [| ? ? Hr Hrs]; subst.
    destruct (DrawPool.runRequest cur r d) as [d1 |] eqn:Hd1; simpl; [| discriminate].
    intros Hrun. eapply poolwise_trans.
    + intros; etrans; eassumption.
    + apply (runRequest_steps P cur r d d1 Hr Hd1).
    + apply (IH _ _ Hrs Hrun).
Qed.


(** ** Auto-update *)

Lemma addRepeated_pool_inv (state : Painter.PainterState) (method : Pool.DrawMethod)
    (drawMode : Painter.DrawMode) (p p' : Pool.Pool) :
  DrawPool.addRepeated_pool state method drawMode p = Ok p' ->
  exists l, p' = Pool.set_objects l (DrawPool.updateHash_pool state method p).
Proof.
  unfold DrawPool.addRepeated_pool. cbv zeta.
  destruct (_ <=? _)%nat; [| discriminate].
  destruct (DrawPool.find_if _ _); intros [= <-]; eauto.
Qed.

Lemma updateHash_pool_auto (state : Painter.PainterState) (method : Pool.DrawMethod)
    (p : Pool.Pool) :
  DrawPool.hasAutoUpdate p ->
  DrawPool.hasAutoUpdate (DrawPool.updateHash_pool state method p).
Proof.
  intros (pf & Hf & Hauto). rewrite (updateHash_pool_framed _ _ _ _ Hf).
  eexists. split; [reflexivity |]. simpl. unfold DrawPool.autoUpdated.
  destruct (Painter.shaderProgram state); [reflexivity | exact Hauto].
Qed.

Lemma updateHash_pool_shader (state : Painter.PainterState) (method : Pool.DrawMethod)
    (p : Pool.Pool) (pf : Pool.FramedPool) (sh : Z) :
  Pool.framed p = Some pf -> Painter.shaderProgram state = Some sh ->
  DrawPool.hasAutoUpdate (DrawPool.updateHash_pool state method p).
Proof.
  intros Hf Hsh. rewrite (updateHash_pool_framed _ _ _ _ Hf).
  eexists. split; [reflexivity |]. simpl. unfold DrawPool.autoUpdated.
  rewrite Hsh. reflexivity.
Qed.

Lemma draw_pool_framed (i : nat) (p : Pool.Pool) :
  Pool.framed (DrawPool.draw_pool i p)
  = (if Pool.isEnabled p
     then fun pf => if Pool.hasModification pf then Pool.updateStatus pf else pf
     else fun pf => pf) <$> Pool.framed p.
Proof.
  unfold DrawPool.draw_pool, DrawPool.drawPhase_pool, DrawPool.preDraw_pool,
    Pool.isEnabled, Pool.hasFrameBuffer.
  destruct (Pool.m_enabled p) eqn:Hen; simpl.
  - destruct (Pool.framed p) as [pf |] eqn:Hf; simpl.
    + destruct (Pool.hasModification pf); simpl.
      * destruct (bool_decide _); simpl; rewrite Hen; reflexivity.
      * rewrite Hen. simpl. exact Hf.
    + rewrite Hen. simpl. exact Hf.
  - rewrite Hen. simpl. destruct (Pool.framed p); reflexivity.
Qed.

Lemma poolStep_keeps_auto (P : DrawPool.call -> Prop) (p p' : Pool.Pool) :
  DrawPool.poolStep P p p' -> DrawPool.hasAutoUpdate p -> DrawPool.hasAutoUpdate p'.
Proof.
  intros Hstep Hauto. destruct Hstep as [c p p' _ Hc | p | dest src pf p Hpf | r f p Hf | i p].
  - destruct c as [state method dm | state method dm | a]; simpl in Hc.
    + apply add_pool_inv in Hc as (l & ->).
      apply (updateHash_pool_auto state method) in Hauto. exact Hauto.
    + apply addRepeated_pool_inv in Hc as (l & ->).
      apply (updateHash_pool_auto state method) in Hauto. exact Hauto.
    + injection Hc as <-. exact Hauto.
  - destruct Hauto as (pf & Hf & Ha). unfold DrawPool.use_pool, DrawPool.resetState.
    simpl. rewrite Hf. eexists. split; [reflexivity | exact Ha].
  - destruct Hauto as (pf' & Hf & Ha). assert (pf' = pf) as -> by congruence.
    eexists. split; [reflexivity | exact Ha].
  - destruct r; try discriminate; injection Hf as <-; exact Hauto.
  - destruct Hauto as (pf & Hf & Ha). unfold DrawPool.hasAutoUpdate.
    rewrite draw_pool_framed, Hf. simpl. eexists. split; [reflexivity |].
    destruct (Pool.isEnabled p); [| exact Ha].
    destruct (Pool.hasModification pf); exact Ha.
Qed.

Lemma steps_keep_auto (P : DrawPool.call -> Prop) (p p' : Pool.Pool) :
  rtc (DrawPool.poolStep P) p p' ->
  DrawPool.hasAutoUpdate p -> DrawPool.hasAutoUpdate p'.
Proof.
  induction 1 as [| p q r Hstep _ IH]; [auto |].
  intros Hauto. apply IH. apply (poolStep_keeps_auto _ _ _ Hstep Hauto).
Qed.

Lemma preDraw_binds (d : DrawPool.DrawPool) (i : nat) (p : Pool.Pool)
    (pf : Pool.FramedPool) :
  DrawPool.m_pools d !! i = Some p -> Pool.framed p = Some pf ->
  Pool.isEnabled p = true -> Pool.hasModification pf = true ->
  Pool.m_objects p <> [] ->
  In (DrawPool.EvBind i) (DrawPool.preDrawEvents (DrawPool.draw d)).
Proof.
  intros Hp Hf Hen Hmod Hobj. rewrite draw_preDrawEvents.
  apply forPools_events. exists i, p. split; [exact Hp |].
  unfold DrawPool.preDraw_pool, Pool.hasFrameBuffer. rewrite Hen, Hf, Hmod. simpl.
  rewrite bool_decide_eq_false_2 by exact Hobj. simpl. left. reflexivity.
Qed.


(** C7.  (1) On a framed pool, [updateHash] with a state that has a
    shader program bound sets the auto-update flag, so that
    [hasModification] holds, and the running hash it leaves is the same
    whatever shader program the state has.  (2) So does every successful
    [add] and [addRepeated] into a framed current pool.  (3) Once the
    flag is set, it stays set through every sequence of requests, [draw]
    and [use] included: after any of them [hasModification] holds, and
    the next [draw] binds the framebuffer again if the pool is enabled
    and has objects. *)
Theorem shader_forces_autoUpdate :
  (forall state method p pf sh,
      Pool.framed p = Some pf -> Painter.shaderProgram state = Some sh ->
      exists pf',
        Pool.framed (DrawPool.updateHash_pool state method p) = Some pf'
        /\ Pool.m_autoUpdate pf' = true
        /\ Pool.hasModification pf' = true
        /\ forall sh', exists pf'',
             Pool.framed (DrawPool.updateHash_pool
                            (Painter.set_shaderProgram sh' state) method p) = Some pf''
             /\ Pool.m_status pf'' = Pool.m_status pf')
  /\ (forall state method drawMode d d' p pf sh,
      DrawPool.currentPool d = Ok p ->
      Pool.framed p = Some pf -> Painter.shaderProgram state = Some sh ->
      DrawPool.add state method drawMode d = Ok d'
      \/ DrawPool.addRepeated state method drawMode d = Ok d' ->
      exists p', DrawPool.currentPool d' = Ok p' /\ DrawPool.hasAutoUpdate p')
  /\ (forall rs d d' i p,
      DrawPool.m_pools d !! i = Some p ->
      DrawPool.hasAutoUpdate p ->
      DrawPool.runRequests rs d = Ok d' ->
      exists p' pf',
        DrawPool.m_pools d' !! i = Some p'
        /\ Pool.framed p' = Some pf'
        /\ Pool.m_autoUpdate pf' = true
        /\ Pool.hasModification pf' = true
        /\ (Pool.isEnabled p' = true -> Pool.m_objects p' <> [] ->
            In (DrawPool.EvBind i) (DrawPool.preDrawEvents (DrawPool.draw d')))).
Proof.
  split; [| split].
  - intros state method p pf sh Hf Hsh.
    rewrite (updateHash_pool_framed _ _ _ _ Hf). eexists. split; [reflexivity |].
    assert (Hauto : Pool.m_autoUpdate (DrawPool.autoUpdated state pf) = true)
      by (unfold DrawPool.autoUpdated; rewrite Hsh; reflexivity).
    split; [exact Hauto |]. split.
    + unfold Pool.hasModification. simpl. rewrite Hauto. apply orb_true_r.
    + intros sh'. rewrite (updateHash_pool_framed _ _ _ _ Hf).
      eexists. split; reflexivity.
  - intros state method drawMode d d' p pf sh Hp Hf Hsh Hrun.
    assert (Hcall : exists c, DrawPool.runCall c d = Ok d'
                              /\ forall q q', DrawPool.runCall_pool c q = Ok q' ->
                                   exists l, q' = Pool.set_objects l
                                     (DrawPool.updateHash_pool state method q)).
    { destruct Hrun as [Hrun | Hrun].
      - exists (DrawPool.CallAdd state method drawMode). split; [exact Hrun |].
        intros q q'. apply add_pool_inv.
      - exists (DrawPool.CallAddRepeated state method drawMode). split; [exact Hrun |].
        intros q q'. apply addRepeated_pool_inv. }
    destruct Hcall as (c & Hc & Hinv). rewrite runCall_lift in Hc.
    apply withCurrentPool_inv in Hc as (p0 & p' & Hp0 & Hc & ->).
    assert (p0 = p) as -> by congruence.
    exists p'. split; [apply (currentPool_setCurrentPool _ _ _ Hp) |].
    destruct (Hinv _ _ Hc) as (l & ->).
    apply (updateHash_pool_shader state method p pf sh Hf Hsh).
  - intros rs d d' i p Hp Hauto Hrun.
    apply (runRequests_steps (fun _ => True)) in Hrun.
    2: { apply Forall_forall. intros; exact I. }
    destruct Hrun as [_ Hrun]. destruct (Hrun i p Hp) as (p' & Hp' & Hsteps).
    destruct (steps_keep_auto _ _ _ Hsteps Hauto) as (pf' & Hf' & Hauto').
    assert (Hmod : Pool.hasModification pf' = true)
      by (unfold Pool.hasModification; rewrite Hauto'; apply orb_true_r).
    exists p', pf'. split; [exact Hp' |]. split; [exact Hf' |].
    split; [exact Hauto' |]. split; [exact Hmod |].
    intros Hen Hobj. apply (preDraw_binds d' i p' pf' Hp' Hf' Hen Hmod Hobj).
Qed.


(** ** Frames *)

Lemma updateHash_pool_framedAs (state : Painter.PainterState) (method : Pool.DrawMethod)
    (p : Pool.Pool) (committed running : Z) (auto enabled : bool) (l : list Pool.DrawObject) :
  DrawPool.framedAs p (committed, running) auto enabled ->
  Painter.shaderProgram state = None ->
  DrawPool.framedAs (Pool.set_objects l (DrawPool.updateHash_pool state method p))
           (committed, hash_combine running (DrawPool.contentHash state method))
           auto enabled.
Proof.
  intros (pf & Hf & Hst & Hauto & Hen) Hsh.
  rewrite (updateHash_pool_framed _ _ _ _ Hf). eexists. split; [reflexivity |].
  simpl. rewrite Hst. simpl. split; [reflexivity |].
  unfold DrawPool.autoUpdated. rewrite Hsh. auto.
Qed.

Lemma runCall_pool_framedAs (c : DrawPool.call) (p p' : Pool.Pool)
    (committed running : Z) (auto enabled : bool) :
  DrawPool.framedAs p (committed, running) auto enabled ->
  DrawPool.shaderFree c ->
  DrawPool.runCall_pool c p = Ok p' ->
  DrawPool.framedAs p' (committed, DrawPool.callHash c running) auto enabled.
Proof.
  intros Hp Hsh Hc. destruct c as [state method dm | state method dm | a]; simpl in *.
  - apply add_pool_inv in Hc as (l & ->). apply updateHash_pool_framedAs; assumption.
  - apply addRepeated_pool_inv in Hc as (l & ->).
    apply updateHash_pool_framedAs; assumption.
  - injection Hc as <-. exact Hp.
Qed.

Lemma runCalls_pool_framedAs (cs : list DrawPool.call) :
  forall (p p' : Pool.Pool) (committed running : Z) (auto enabled : bool),
    DrawPool.framedAs p (committed, running) auto enabled ->
    Forall DrawPool.shaderFree cs ->
    DrawPool.runCalls_pool cs p = Ok p' ->
    DrawPool.framedAs p' (committed, DrawPool.frameHash cs running) auto enabled.
Proof.
  induction cs as [| c cs IH]; intros p p' committed running auto enabled Hp Hsh; simpl.
  - intros [= <-]. exact Hp.
  - inversion Hsh as [| ? ? Hc Hcs]; subst.
    destruct (DrawPool.runCall_pool c p) as [p1 |] eqn:Hp1; simpl; [| discriminate].
    intros Hrun. apply (IH p1 p' _ _ _ _ (runCall_pool_framedAs _ _ _ _ _ _ _ Hp Hc Hp1) Hcs Hrun).
Qed.

Lemma use_pool_framedAs (p : Pool.Pool) (committed running : Z) (auto enabled : bool) :
  DrawPool.framedAs p (committed, running) auto enabled ->
  DrawPool.framedAs (DrawPool.use_pool p) (committed, 0) auto enabled.
Proof.
  intros (pf & Hf & Hst & Hauto & Hen). unfold DrawPool.use_pool, DrawPool.resetState.
  simpl. rewrite Hf. eexists. split; [reflexivity |]. simpl. rewrite Hst. auto.
Qed.

Lemma draw_pool_framedAs (i : nat) (p : Pool.Pool) (committed running : Z) :
  DrawPool.framedAs p (committed, running) false true ->
  DrawPool.framedAs (DrawPool.draw_pool i p) (running, running) false true.
Proof.
  intros (pf & Hf & Hst & Hauto & Hen).
  assert (Hen' : Pool.m_enabled (DrawPool.draw_pool i p) = true).
  { unfold DrawPool.draw_pool, DrawPool.drawPhase_pool.
    destruct (preDraw_pool_keeps i p) as (_ & Hen1 & _).
    unfold Pool.isEnabled. rewrite Hen1, Hen. simpl. rewrite Hen1. exact Hen. }
  unfold DrawPool.framedAs. rewrite draw_pool_framed, Hf. unfold Pool.isEnabled. rewrite Hen.
  simpl. eexists. split; [reflexivity |].
  unfold Pool.hasModification. rewrite Hst, Hauto, orb_false_r. simpl.
  destruct (Z.eqb_spec committed running) as [-> | Hne]; simpl; rewrite Hst; auto.
Qed.

(** [use] makes the pool current and applies [use_pool] to it. *)
Lemma use_Some (i : nat) (d d1 : DrawPool.DrawPool) :
  DrawPool.use (Some i) d = Ok d1 ->
  exists p, DrawPool.m_pools d !! i = Some p
            /\ DrawPool.currentPool d1 = Ok (DrawPool.use_pool p)
            /\ DrawPool.m_currentPool d1 = i.
Proof.
  unfold DrawPool.use. intros Huse.
  apply withCurrentPool_inv in Huse as (p & p' & Hp & [= <-] & ->).
  exists p. split; [apply currentPool_Ok in Hp; exact Hp |].
  split; [apply (currentPool_setCurrentPool _ _ _ Hp) | reflexivity].
Qed.

Lemma runCalls_current (cs : list DrawPool.call) (d d' : DrawPool.DrawPool) (p : Pool.Pool) :
  DrawPool.currentPool d = Ok p ->
  DrawPool.runCalls cs d = Ok d' ->
  exists p', DrawPool.runCalls_pool cs p = Ok p'
             /\ DrawPool.m_pools d' !! DrawPool.m_currentPool d = Some p'.
Proof.
  intros Hp. rewrite (runCalls_lift _ _ _ Hp).
  destruct (DrawPool.runCalls_pool cs p) as [p' |]; simpl; [| discriminate].
  intros [= <-]. exists p'. split; [reflexivity |].
  apply (proj1 (currentPool_Ok (DrawPool.setCurrentPool p' d) p')).
  apply (currentPool_setCurrentPool _ _ _ Hp).
Qed.

(** What the first loop of [draw] can emit for the pool at [j]. *)
Lemma preDraw_pool_events (j : nat) (p : Pool.Pool) (e : DrawPool.event) :
  In e (snd (DrawPool.preDraw_pool j p)) ->
  (e = DrawPool.EvBind j \/ e = DrawPool.EvRelease j
   \/ exists obj, e = DrawPool.EvDrawObject j obj)
  /\ Pool.isEnabled p = true
  /\ exists pf, Pool.framed p = Some pf /\ Pool.hasModification pf = true.
Proof.
  unfold DrawPool.preDraw_pool.
  destruct (Pool.isEnabled p); simpl; [| intros []].
  destruct (Pool.hasFrameBuffer p); simpl; [| intros []].
  destruct (Pool.framed p) as [pf |]; [| intros []].
  destruct (Pool.hasModification pf) eqn:Hmod; [| intros []].
  destruct (bool_decide _); simpl; [intros [] |].
  intros [<- | Hin].
  - split; [auto |]. split; [reflexivity |]. eauto.
  - split; [| split; [reflexivity | eauto]].
    apply in_app_or in Hin as [Hin | [<- | []]]; [| auto].
    apply list_elem_of_In, list_elem_of_fmap in Hin as (obj & -> & _). eauto.
Qed.


(** Whether a call succeeds, and the objects it leaves, depend on the
    pool's objects and search start index only. *)
Lemma runCall_pool_sameContent (c : DrawPool.call) (p q p' : Pool.Pool) :
  DrawPool.sameContent p q ->
  DrawPool.runCall_pool c p = Ok p' ->
  exists q', DrawPool.runCall_pool c q = Ok q' /\ DrawPool.sameContent p' q'.
Proof.
  intros [Hobj Hidx]. destruct c as [state method dm | state method dm | a]; simpl.
  - destruct (list_snoc_cases (Pool.m_objects p)) as [Hp | (front & prevObj & Hp)].
    + rewrite (add_pool_empty _ _ _ _ Hp).
      rewrite (add_pool_empty state method dm q) by congruence.
      intros [= <-]. eexists. split; [reflexivity |]. split; simpl; [reflexivity |].
      destruct (updateHash_pool_keeps state method p) as (_ & _ & _ & ->).
      destruct (updateHash_pool_keeps state method q) as (_ & _ & _ & ->). exact Hidx.
    + rewrite (add_pool_snoc _ _ _ _ _ _ Hp).
      rewrite (add_pool_snoc state method dm q front prevObj) by congruence.
      destruct (if negb (point_isNull (Pool.dest method)) then _ else _) as [ms |];
        simpl; [| discriminate].
      intros [= <-]. eexists. split; [reflexivity |]. split; simpl; [reflexivity |].
      destruct (updateHash_pool_keeps state method p) as (_ & _ & _ & ->).
      destruct (updateHash_pool_keeps state method q) as (_ & _ & _ & ->). exact Hidx.
  - unfold DrawPool.addRepeated_pool. cbv zeta. rewrite !startIndex_updateHash.
    destruct (updateHash_pool_keeps state method p) as (-> & _ & _ & Hip).
    destruct (updateHash_pool_keeps state method q) as (-> & _ & _ & Hiq).
    assert (Hstart : DrawPool.startIndex q = DrawPool.startIndex p)
      by (unfold DrawPool.startIndex; rewrite Hidx; reflexivity).
    rewrite Hstart, <- Hobj.
    destruct (_ <=? _)%nat; [| discriminate].
    destruct (DrawPool.find_if _ _); intros [= <-]; eexists;
      (split; [reflexivity |]); split; simpl; congruence.
  - intros [= <-]. eexists. split; [reflexivity |].
    unfold DrawPool.addAction_pool. split; simpl; congruence.
Qed.

Lemma runCalls_pool_sameContent (cs : list DrawPool.call) :
  forall p q p',
    DrawPool.sameContent p q ->
    DrawPool.runCalls_pool cs p = Ok p' ->
    exists q', DrawPool.runCalls_pool cs q = Ok q' /\ DrawPool.sameContent p' q'.
Proof.
  induction cs as [| c cs IH]; intros p q p' Hsame; simpl.
  - intros [= <-]. eauto.
  - destruct (DrawPool.runCall_pool c p) as [p1 |] eqn:Hp1; simpl; [| discriminate].
    destruct (runCall_pool_sameContent _ _ _ _ Hsame Hp1) as (q1 & -> & Hsame1).
    simpl. apply IH. exact Hsame1.
Qed.

Lemma runCalls_pool_index (cs : list DrawPool.call) :
  forall p p', DrawPool.runCalls_pool cs p = Ok p' ->
               Pool.m_indexToStartSearching p' = Pool.m_indexToStartSearching p
               /\ Pool.m_enabled p' = Pool.m_enabled p.
Proof.
  induction cs as [| c cs IH]; intros p p'; simpl.
  - intros [= <-]. auto.
  - destruct (DrawPool.runCall_pool c p) as [p1 |] eqn:Hp1; simpl; [| discriminate].
    intros Hrun. destruct (IH _ _ Hrun) as [-> ->].
    destruct c as [state method dm | state method dm | a]; simpl in Hp1.
    + apply add_pool_inv in Hp1 as (l & ->). simpl.
      destruct (updateHash_pool_keeps state method p) as (_ & -> & _ & ->). auto.
    + apply addRepeated_pool_inv in Hp1 as (l & ->). simpl.
      destruct (updateHash_pool_keeps state method p) as (_ & -> & _ & ->). auto.
    + injection Hp1 as <-. auto.
Qed.

Lemma draw_pool_content (i : nat) (p : Pool.Pool) :
  Pool.isEnabled p = true ->
  Pool.m_objects (DrawPool.draw_pool i p) = []
  /\ Pool.m_indexToStartSearching (DrawPool.draw_pool i p)
     = Pool.m_indexToStartSearching p.
Proof.
  intros Hen. unfold DrawPool.draw_pool, DrawPool.drawPhase_pool.
  destruct (preDraw_pool_keeps i p) as (_ & Hen1 & _ & Hidx & _).
  unfold Pool.isEnabled in *. rewrite Hen1, Hen. simpl. auto.
Qed.

Lemma use_pool_content (p : Pool.Pool) :
  Pool.m_objects (DrawPool.use_pool p) = Pool.m_objects p
  /\ Pool.m_indexToStartSearching (DrawPool.use_pool p) = Pool.m_indexToStartSearching p.
Proof.
  unfold DrawPool.use_pool, DrawPool.resetState. simpl.
  destruct (Pool.framed p); auto.
Qed.

(** A frame succeeds when its calls succeed on the pool. *)
Lemma frame_Ok (i : nat) (cs : list DrawPool.call) (d : DrawPool.DrawPool)
    (p p2 : Pool.Pool) :
  DrawPool.m_pools d !! i = Some p ->
  DrawPool.runCalls_pool cs (DrawPool.use_pool p) = Ok p2 ->
  exists r, DrawPool.frame i cs d = Ok r.
Proof.
  intros Hp Hrun. unfold DrawPool.frame, DrawPool.use.
  erewrite withCurrentPool_Ok; [| apply currentPool_Ok; exact Hp | reflexivity].
  simpl.
  erewrite runCalls_lift.
  2: { apply (currentPool_setCurrentPool _ p). apply currentPool_Ok. exact Hp. }
  rewrite Hrun. simpl. eauto.
Qed.

(** The state in which a frame reaches [draw]. *)
Lemma frame_inv (i : nat) (cs : list DrawPool.call) (d : DrawPool.DrawPool)
    (r : DrawPool.drawn) (p : Pool.Pool) :
  DrawPool.m_pools d !! i = Some p ->
  DrawPool.frame i cs d = Ok r ->
  exists d2 p2,
    r = DrawPool.draw d2
    /\ DrawPool.runCalls_pool cs (DrawPool.use_pool p) = Ok p2
    /\ DrawPool.m_pools d2 !! i = Some p2.
Proof.
  intros Hp. unfold DrawPool.frame.
  destruct (DrawPool.use (Some i) d) as [d1 |] eqn:Huse; simpl; [| discriminate].
  destruct (DrawPool.runCalls cs d1) as [d2 |] eqn:Hrun; simpl; [| discriminate].
  intros [= <-].
  apply use_Some in Huse as (p' & Hp' & Hcur & Hi).
  assert (p' = p) as -> by congruence.
  destruct (runCalls_current _ _ _ _ Hcur Hrun) as (p2 & Hp2 & Hlook).
  rewrite Hi in Hlook. eauto.
Qed.

(** C1.  (1) The first loop of [draw] binds the framebuffer of the pool
    at [i], or replays an object into it, only if that pool is enabled,
    framed, and [hasModification] holds for it.  (2) Let the pool at [i]
    be framed and enabled, with auto-update off, and let two consecutive
    frames [use] it, make the same calls of [add], [addRepeated] and
    [addAction], none with a shader program bound, and [draw].  Then in
    the second frame the pool reaches [draw] with [hasModification]
    false; the first loop neither binds its framebuffer nor replays an
    object into it; and the second loop composites the framebuffer.
    (3) The second frame does run to its [draw] when the first one did
    and started with the pool enabled and empty. *)
Theorem unchanged_frame_is_not_redrawn :
  (forall d i e,
      In e (DrawPool.preDrawEvents (DrawPool.draw d)) ->
      e = DrawPool.EvBind i \/ (exists obj, e = DrawPool.EvDrawObject i obj) ->
      exists p pf,
        DrawPool.m_pools d !! i = Some p
        /\ Pool.isEnabled p = true
        /\ Pool.framed p = Some pf
        /\ Pool.hasModification pf = true)
  /\ (forall d0 i p0 committed running cs r1 r2,
      DrawPool.m_pools d0 !! i = Some p0 ->
      DrawPool.framedAs p0 (committed, running) false true ->
      Forall DrawPool.shaderFree cs ->
      DrawPool.frame i cs d0 = Ok r1 ->
      DrawPool.frame i cs (DrawPool.after r1) = Ok r2 ->
      exists d2 p2 pf2,
        r2 = DrawPool.draw d2
        /\ DrawPool.m_pools d2 !! i = Some p2
        /\ Pool.framed p2 = Some pf2
        /\ Pool.hasModification pf2 = false
        /\ (forall e, In e (DrawPool.preDrawEvents r2) ->
                      e <> DrawPool.EvBind i
                      /\ forall obj, e <> DrawPool.EvDrawObject i obj)
        /\ In (DrawPool.EvFramebufferDraw i (Pool.m_dest pf2) (Pool.m_src pf2))
              (DrawPool.drawEvents r2))
  /\ (forall d0 i p0 cs r1,
      DrawPool.m_pools d0 !! i = Some p0 ->
      Pool.isEnabled p0 = true ->
      Pool.m_objects p0 = [] ->
      DrawPool.frame i cs d0 = Ok r1 ->
      exists r2, DrawPool.frame i cs (DrawPool.after r1) = Ok r2).
Proof.
  split; [| split].
  - intros d i e Hin He. rewrite draw_preDrawEvents in Hin.
    apply forPools_events in Hin as (j & p & Hp & Hin).
    apply preDraw_pool_events in Hin as (Hshape & Hen & pf & Hf & Hmod).
    assert (j = i) as ->.
    { destruct He as [-> | (obj & ->)];
        destruct Hshape as [H | [H | (obj' & H)]]; congruence. }
    eauto 6.
  - intros d0 i p0 committed running cs r1 r2 Hp0 Hframed Hsh Hframe1 Hframe2.
    destruct (frame_inv _ _ _ _ _ Hp0 Hframe1) as (d1 & p1 & -> & Hrun1 & Hp1).
    pose proof (runCalls_pool_framedAs _ _ _ _ _ _ _
                  (use_pool_framedAs _ _ _ _ _ Hframed) Hsh Hrun1) as Hframed1.
    assert (Hafter : DrawPool.m_pools (DrawPool.after (DrawPool.draw d1)) !! i
                     = Some (DrawPool.draw_pool i p1))
      by (rewrite draw_lookup, Hp1; reflexivity).
    apply (draw_pool_framedAs i) in Hframed1.
    destruct (frame_inv _ _ _ _ _ Hafter Hframe2) as (d2 & p2 & -> & Hrun2 & Hp2).
    pose proof (runCalls_pool_framedAs _ _ _ _ _ _ _
                  (use_pool_framedAs _ _ _ _ _ Hframed1) Hsh Hrun2) as Hframed2.
    destruct Hframed2 as (pf2 & Hf2 & Hst2 & Hauto2 & Hen2).
    assert (Hmod : Pool.hasModification pf2 = false).
    { unfold Pool.hasModification. rewrite Hst2, Hauto2. simpl.
      rewrite Z.eqb_refl. reflexivity. }
    exists d2, p2, pf2. split; [reflexivity |]. split; [exact Hp2 |].
    split; [exact Hf2 |]. split; [exact Hmod |]. split.
    + intros e Hin. rewrite draw_preDrawEvents in Hin.
      apply forPools_events in Hin as (j & p & Hp & Hin).
      apply preDraw_pool_events in Hin as (Hshape & _ & pf & Hf & Hmod').
      assert (Hj : j <> i).
      { intros ->. assert (p = p2) as -> by congruence. congruence. }
      split; [| intros obj]; destruct Hshape as [H | [H | (obj' & H)]]; congruence.
    + rewrite draw_drawEvents. apply forPools_events.
      exists i, (fst (DrawPool.preDraw_pool i p2)). split.
      * rewrite forPools_lookup, Hp2. reflexivity.
      * assert (Hsame : fst (DrawPool.preDraw_pool i p2) = p2).
        { unfold DrawPool.preDraw_pool, Pool.isEnabled, Pool.hasFrameBuffer.
          rewrite Hen2, Hf2, Hmod. reflexivity. }
        rewrite Hsame. unfold DrawPool.drawPhase_pool, Pool.isEnabled.
        rewrite Hen2, Hf2. simpl. right. apply in_or_app. right. left. reflexivity.
  - intros d0 i p0 cs r1 Hp0 Hen Hempty Hframe1.
    destruct (frame_inv _ _ _ _ _ Hp0 Hframe1) as (d1 & p1 & -> & Hrun1 & Hp1).
    assert (Hafter : DrawPool.m_pools (DrawPool.after (DrawPool.draw d1)) !! i
                     = Some (DrawPool.draw_pool i p1))
      by (rewrite draw_lookup, Hp1; reflexivity).
    destruct (runCalls_pool_index _ _ _ Hrun1) as [Hidx1 Hen1].
    destruct (use_pool_content p0) as [Hobj0 Hidx0].
    assert (Hp1en : Pool.isEnabled p1 = true).
    { unfold Pool.isEnabled in *. rewrite Hen1.
      unfold DrawPool.use_pool, DrawPool.resetState. simpl.
      destruct (Pool.framed p0); exact Hen. }
    destruct (draw_pool_content i p1 Hp1en) as [Hobj2 Hidx2].
    destruct (use_pool_content (DrawPool.draw_pool i p1)) as [Hobj3 Hidx3].
    assert (Hsame : DrawPool.sameContent (DrawPool.use_pool p0)
                      (DrawPool.use_pool (DrawPool.draw_pool i p1)))
      by (split; congruence).
    destruct (runCalls_pool_sameContent _ _ _ _ Hsame Hrun1) as (q & Hq & _).
    apply (frame_Ok _ _ _ _ _ Hafter Hq).
Qed.


(** ** The removal scan and null textures *)

Lemma callFrom_textured (r : DrawPool.request) (c : DrawPool.call) :
  DrawPool.texturedRequest r -> DrawPool.callFrom r c -> DrawPool.texturedCall c.
Proof.
  intros Hr Hfrom.
  destruct c as [state method dm | state method dm | a]; simpl in *; [| | exact I];
    intros Hnull; destruct (Hfrom Hnull) as (Hty & dest & texture & src & color & -> & Htex);
    (split; [exact Hty |]); rewrite Htex; apply Hr; exact Hnull.
Qed.

Lemma state_eqb_texture (a b : Painter.PainterState) :
  Painter.state_eqb a b = true ->
  is_Some (Painter.texture b) -> is_Some (Painter.texture a).
Proof.
  unfold Painter.state_eqb. rewrite !andb_true_iff.
  intros (((((Htex & _) & _) & _) & _) & _) [t Ht].
  rewrite Ht in Htex. destruct (Painter.texture a); [eauto | discriminate].
Qed.


Lemma newObject_safe (state : Painter.PainterState) (method : Pool.DrawMethod)
    (drawMode : Painter.DrawMode) :
  (point_isNull (Pool.dest method) = false ->
   Pool.type method = Pool.DRAW_TEXTURED_RECT /\ is_Some (Painter.texture state)) ->
  DrawPool.objectSafe (DrawPool.newObject state drawMode method).
Proof.
  intros Hc m Hm Hnull. simpl in Hm. apply list_elem_of_singleton in Hm as ->.
  apply Hc. exact Hnull.
Qed.

Lemma push_back_safe (state : Painter.PainterState) (method : Pool.DrawMethod)
    (obj : Pool.DrawObject) :
  (point_isNull (Pool.dest method) = false ->
   Pool.type method = Pool.DRAW_TEXTURED_RECT /\ is_Some (Painter.texture state)) ->
  Painter.state_eqb (Pool.state obj) state = true ->
  DrawPool.objectSafe obj ->
  DrawPool.objectSafe (DrawPool.push_back_method method obj).
Proof.
  intros Hc Heq Hobj m Hm Hnull. simpl in *.
  apply elem_of_app in Hm as [Hm | Hm].
  - apply (Hobj m Hm Hnull).
  - apply list_elem_of_singleton in Hm as ->. destruct (Hc Hnull) as [Hty Htex].
    split; [exact Hty |]. apply (state_eqb_texture _ _ Heq Htex).
Qed.

(** On a safe pool a textured call of [add] succeeds, and leaves the pool
    safe. *)
Lemma add_pool_safe (state : Painter.PainterState) (method : Pool.DrawMethod)
    (drawMode : Painter.DrawMode) (p : Pool.Pool) :
  DrawPool.texturedCall (DrawPool.CallAdd state method drawMode) ->
  DrawPool.scanSafe p ->
  exists p', DrawPool.add_pool state method drawMode p = Ok p' /\ DrawPool.scanSafe p'.
Proof.
  intros Hc Hsafe. simpl in Hc. unfold DrawPool.scanSafe in *.
  destruct (list_snoc_cases (Pool.m_objects p)) as [Hobj | (front & prevObj & Hobj)].
  - rewrite (add_pool_empty _ _ _ _ Hobj). eexists. split; [reflexivity |]. simpl.
    apply Forall_singleton. apply newObject_safe. exact Hc.
  - rewrite (add_pool_snoc _ _ _ _ _ _ Hobj).
    rewrite Hobj, Forall_app, Forall_singleton in Hsafe.
    destruct Hsafe as [Hfront Hprev].
    assert (Hscan : exists ms,
               (if negb (point_isNull (Pool.dest method))
                then DrawPool.eraseHidden state (Pool.state prevObj)
                       (Painter.state_eqb (Pool.state prevObj) state) method
                       (Pool.drawMethods prevObj)
                else Ok (Pool.drawMethods prevObj)) = Ok ms
               /\ ms ⊆ Pool.drawMethods prevObj).
    { destruct (point_isNull (Pool.dest method)) eqn:Hnull; simpl.
      - eexists. split; [reflexivity | done].
      - apply eraseHidden_safe; [exact Hnull | apply Hc; reflexivity |].
        intros m Hm Hmnull. apply (Hprev m Hm Hmnull). }
    destruct Hscan as (ms & -> & Hsub). simpl. eexists. split; [reflexivity |].
    simpl. apply Forall_app. split; [exact Hfront |].
    assert (Hprev' : forall a dm, DrawPool.objectSafe
                        (Pool.mkDrawObject (Pool.state prevObj) dm ms a)).
    { intros a dm m Hm Hnull. simpl in *. apply (Hprev m (Hsub m Hm) Hnull). }
    unfold DrawPool.trailing.
    destruct (Painter.state_eqb (Pool.state prevObj) state) eqn:Heq.
    + apply Forall_singleton.
      apply (push_back_safe state method
               (Pool.mkDrawObject (Pool.state prevObj) Painter.Triangles ms
                                  (Pool.action prevObj)) Hc Heq (Hprev' _ _)).
    + apply Forall_cons. split; [apply Hprev' |].
      apply Forall_singleton. apply newObject_safe. exact Hc.
Qed.

Lemma addRepeated_pool_safe (state : Painter.PainterState) (method : Pool.DrawMethod)
    (drawMode : Painter.DrawMode) (p p' : Pool.Pool) :
  DrawPool.texturedCall (DrawPool.CallAddRepeated state method drawMode) ->
  DrawPool.scanSafe p ->
  DrawPool.addRepeated_pool state method drawMode p = Ok p' -> DrawPool.scanSafe p'.
Proof.
  intros Hc Hsafe. simpl in Hc. unfold DrawPool.scanSafe in *.
  unfold DrawPool.addRepeated_pool. cbv zeta. rewrite startIndex_updateHash.
  destruct (updateHash_pool_keeps state method p) as (-> & _).
  destruct (_ <=? _)%nat; [| discriminate].
  destruct (DrawPool.find_if _ _) as [k |] eqn:Hfind; intros [= <-]; simpl.
  - apply find_if_Some in Hfind as (obj & Hobj & Heq & _). rewrite lookup_drop in Hobj.
    apply Forall_alter; [exact Hsafe |].
    intros o Ho Hosafe. assert (o = obj) as -> by congruence.
    apply (push_back_safe state method obj Hc Heq Hosafe).
  - apply Forall_app. split; [exact Hsafe |].
    apply Forall_singleton. apply newObject_safe. exact Hc.
Qed.

Lemma addRepeated_pool_errors (state : Painter.PainterState) (method : Pool.DrawMethod)
    (drawMode : Painter.DrawMode) (p : Pool.Pool) (e : error) :
  DrawPool.addRepeated_pool state method drawMode p = Err e -> e = BadIterator.
Proof.
  unfold DrawPool.addRepeated_pool. cbv zeta.
  destruct (_ <=? _)%nat; [| congruence].
  destruct (DrawPool.find_if _ _); discriminate.
Qed.

Lemma draw_pool_objects (i : nat) (p : Pool.Pool) :
  Pool.m_objects (DrawPool.draw_pool i p) = Pool.m_objects p
  \/ Pool.m_objects (DrawPool.draw_pool i p) = [].
Proof.
  unfold DrawPool.draw_pool, DrawPool.drawPhase_pool.
  destruct (preDraw_pool_keeps i p) as (Hobj & _).
  destruct (negb _); simpl; auto.
Qed.

Lemma poolStep_safe (p p' : Pool.Pool) :
  DrawPool.poolStep DrawPool.texturedCall p p' ->
  DrawPool.scanSafe p -> DrawPool.scanSafe p'.
Proof.
  intros Hstep Hsafe.
  destruct Hstep as [c p p' Hc Hrun | p | dest src pf p Hpf | r f p Hf | i p].
  - destruct c as [state method dm | state method dm | a]; simpl in Hrun.
    + destruct (add_pool_safe state method dm p Hc Hsafe) as (q & Hq & Hqsafe).
      congruence.
    + apply (addRepeated_pool_safe _ _ _ _ _ Hc Hsafe Hrun).
    + injection Hrun as <-. unfold DrawPool.scanSafe, DrawPool.addAction_pool. simpl.
      apply Forall_app. split; [exact Hsafe |]. apply Forall_singleton.
      intros m Hm. simpl in Hm. apply elem_of_nil in Hm. destruct Hm.
  - unfold DrawPool.scanSafe, DrawPool.use_pool, DrawPool.resetState. simpl.
    destruct (Pool.framed p); exact Hsafe.
  - exact Hsafe.
  - destruct r; try discriminate; injection Hf as <-; exact Hsafe.
  - unfold DrawPool.scanSafe in *.
    destruct (draw_pool_objects i p) as [-> | ->]; [exact Hsafe | constructor].
Qed.

Lemma steps_safe (p p' : Pool.Pool) :
  rtc (DrawPool.poolStep DrawPool.texturedCall) p p' ->
  DrawPool.scanSafe p -> DrawPool.scanSafe p'.
Proof.
  induction 1 as [| p q r Hstep _ IH]; [auto |].
  intros Hsafe. apply IH. apply (poolStep_safe _ _ Hstep Hsafe).
Qed.


Lemma withCurrentPool_Err_inv (f : Pool.Pool -> result Pool.Pool) (d : DrawPool.DrawPool)
    (e : error) :
  DrawPool.withCurrentPool f d = Err e ->
  e = NullPool \/ exists p, DrawPool.currentPool d = Ok p /\ f p = Err e.
Proof.
  unfold DrawPool.withCurrentPool, DrawPool.currentPool.
  destruct (DrawPool.m_pools d !! DrawPool.m_currentPool d) as [p |]; simpl.
  - destruct (f p) as [p' |] eqn:Hf; simpl; [discriminate |].
    intros [= <-]. right. eauto.
  - intros [= <-]. left. reflexivity.
Qed.

Lemma currentPool_Err (d : DrawPool.DrawPool) (e : error) :
  DrawPool.currentPool d = Err e -> e = NullPool.
Proof.
  unfold DrawPool.currentPool.
  destruct (DrawPool.m_pools d !! DrawPool.m_currentPool d); congruence.
Qed.

(** What a failed request comes to. *)
Lemma runRequest_errors (cur : Painter.PainterState) (r : DrawPool.request)
    (d : DrawPool.DrawPool) (e : error) :
  DrawPool.runRequest cur r d = Err e ->
  e = NullPool \/ e = NullTextureSize
  \/ exists c p, DrawPool.callFrom r c /\ DrawPool.currentPool d = Ok p
                 /\ DrawPool.runCall_pool c p = Err e.
Proof.
  destruct r; cbn [DrawPool.runRequest];
    unfold DrawPool.addTexturedRect3, DrawPool.addRepeatedTexturedRect3,
      DrawPool.addRepeatedFilledRect2, DrawPool.addFilledRect2,
      DrawPool.addTexturedRect, DrawPool.addUpsideDownTexturedRect,
      DrawPool.addRepeatedTexturedRect, DrawPool.addRepeatedTexturedRepeatedRect,
      DrawPool.addRepeatedFilledRect, DrawPool.addFilledRect,
      DrawPool.addFilledTriangle, DrawPool.addBoundingRect, DrawPool.generateState;
    try (destruct texture as [t |];
         cbn [DrawPool.deref mbind mret result_bind result_ret];
         [| intros [= <-]; right; left; reflexivity]);
    try (match goal with
         | |- (if ?c then _ else _) = _ -> _ => destruct c eqn:?; [discriminate |]
         end;
         destruct (DrawPool.currentPool d) as [p |] eqn:Hp;
         cbn [mbind mret result_bind result_ret];
         [| intros [= <-]; left; apply (currentPool_Err _ _ Hp)];
         intros Hrun; right; right;
         match type of Hrun with
         | DrawPool.add ?s ?m ?dm _ = _ =>
           exists (DrawPool.CallAdd s m dm), p; unfold DrawPool.add in Hrun
         | DrawPool.addRepeated ?s ?m ?dm _ = _ =>
           exists (DrawPool.CallAddRepeated s m dm), p; unfold DrawPool.addRepeated in Hrun
         end;
         unfold DrawPool.withCurrentPool in Hrun; rewrite Hp in Hrun;
         cbn [mbind mret result_bind result_ret] in Hrun;
         split; [simpl; intros Hnull;
                 first [discriminate Hnull | split; [reflexivity |]; eauto 8] |];
         split; [reflexivity |]; simpl;
         match type of Hrun with
         | context [DrawPool.add_pool ?s ?m ?dm p] =>
           destruct (DrawPool.add_pool s m dm p); simpl in Hrun;
           [discriminate | congruence]
         | context [DrawPool.addRepeated_pool ?s ?m ?dm p] =>
           destruct (DrawPool.addRepeated_pool s m dm p); simpl in Hrun;
           [discriminate | congruence]
         end).
  - intros H. apply withCurrentPool_Err_inv in H as [-> | (p & _ & H)];
      [left; reflexivity | discriminate].
  - intros H. apply withCurrentPool_Err_inv in H as [-> | (p & _ & H)];
      [left; reflexivity | discriminate].
  - unfold DrawPool.useFramed.
    destruct (DrawPool.use (Some pool) d) as [d1 |] eqn:Huse; simpl.
    + destruct (DrawPool.m_pools d1 !! pool) as [p |]; [| intros [= <-]; auto].
      destruct (Pool.framed p); [discriminate | intros [= <-]; auto].
    + intros [= <-]. apply withCurrentPool_Err_inv in Huse as [-> | (p & _ & H)];
        [left; reflexivity | discriminate].
  - intros H. apply withCurrentPool_Err_inv in H as [-> | (p & _ & H)];
      [left; reflexivity | discriminate].
  - intros H. apply withCurrentPool_Err_inv in H as [-> | (p & _ & H)];
      [left; reflexivity | discriminate].
  - discriminate.
Qed.

(** C9, as the code has it.  Start with every pool empty and drive the
    batcher through its public interface, never passing a null texture
    to [addTexturedRect] together with a non-null [originalDest].  Then
    no request dereferences a null texture in the removal scan of [add],
    and in every state reached, each method with a non-null destination
    is a textured rect and lies in an object whose state has a
    texture. *)
Theorem scan_never_dereferences_null_texture
    (rs : list (Painter.PainterState * DrawPool.request)) (d : DrawPool.DrawPool) :
  Forall (fun p => Pool.m_objects p = []) (DrawPool.m_pools d) ->
  Forall (fun cr => DrawPool.texturedRequest (snd cr)) rs ->
  DrawPool.runRequests rs d <> Err NullTextureScan
  /\ forall d', DrawPool.runRequests rs d = Ok d' ->
                Forall DrawPool.scanSafe (DrawPool.m_pools d').
Proof.
  intros Hempty Hrs.
  assert (Hsafe : Forall DrawPool.scanSafe (DrawPool.m_pools d)).
  { eapply Forall_impl; [exact Hempty |]. intros p Hp.
    unfold DrawPool.scanSafe. rewrite Hp. constructor. }
  clear Hempty. revert d Hsafe.
  induction Hrs as [| [cur r] rs Hr _ IH]; intros d Hsafe; simpl.
  - split; [discriminate |]. intros d' [= <-]. exact Hsafe.
  - simpl in Hr.
    destruct (DrawPool.runRequest cur r d) as [d1 | e] eqn:Hd1; simpl.
    + apply IH.
      apply (poolwise_Forall _ _ d d1 steps_safe); [| exact Hsafe].
      apply (runRequest_steps DrawPool.texturedCall cur r d d1); [| exact Hd1].
      intros c. apply callFrom_textured. exact Hr.
    + split; [| discriminate]. intros [= ->].
      apply runRequest_errors in Hd1
        as [Hd1 | [Hd1 | (c & p & Hfrom & Hp & Hrun)]]; try discriminate.
      apply (callFrom_textured _ _ Hr) in Hfrom.
      apply currentPool_Ok in Hp.
      pose proof (Forall_lookup_1 _ _ _ _ Hsafe Hp) as Hpsafe.
      destruct c as [state method dm | state method dm | a]; simpl in Hrun.
      * destruct (add_pool_safe state method dm p Hfrom Hpsafe) as (q & Hq & _).
        congruence.
      * apply addRepeated_pool_errors in Hrun. discriminate.
      * discriminate.
Qed.

End DrawPoolProperties.

(** * Further properties *)

(** ** Tile: flags *)

Lemma not32_testbit (flag i : Z) :
  0 <= i -> Z.testbit (TileState.not32 flag) i = (i <? 32) && negb (Z.testbit flag i).
Proof.
  intros Hi. unfold TileState.not32.
  rewrite Z.testbit_mod_pow2 by lia. rewrite Z.lnot_spec by lia. reflexivity.
Qed.

Lemma uint32_mod (x : Z) : TileState.uint32 x <-> x mod 2 ^ 32 = x.
Proof.
  unfold TileState.uint32. split.
  - intros H. apply Z.mod_small. exact H.
  - intros <-. apply Z.mod_pos_bound. lia.
Qed.

Lemma uint32_testbit (x i : Z) : TileState.uint32 x -> 32 <= i -> Z.testbit x i = false.
Proof.
  intros H Hi. apply uint32_mod in H. rewrite <- H.
  rewrite Z.testbit_mod_pow2 by lia.
  destruct (i <? 32) eqn:Hlt; [lia | reflexivity].
Qed.

Lemma uint32_bits (x : Z) :
  (forall i, 32 <= i -> Z.testbit x i = false) -> 0 <= x -> TileState.uint32 x.
Proof.
  intros H Hx. apply uint32_mod. apply Z.bits_inj'. intros i Hi.
  rewrite Z.testbit_mod_pow2 by lia.
  destruct (i <? 32) eqn:Hlt; [reflexivity |]. simpl. symmetry. apply H. lia.
Qed.

Lemma land_not32 (m flag : Z) : Z.land (Z.land m (TileState.not32 flag)) flag = 0.
Proof.
  apply Z.bits_inj'. intros i Hi.
  rewrite !Z.land_spec, not32_testbit, Z.bits_0 by lia.
  destruct (Z.testbit flag i), (Z.testbit m i), (i <? 32); reflexivity.
Qed.

Lemma hasFlag_setFlag_disjoint (f g : Z) (t : TileState.Tile) :
  Z.land f g = 0 ->
  TileState.hasFlag g (TileState.setFlag f t) = TileState.hasFlag g t.
Proof.
  intros H. unfold TileState.hasFlag, TileState.setFlag. simpl.
  rewrite Z.land_lor_distr_l, H, Z.lor_0_r. reflexivity.
Qed.

Lemma hasFlag_remFlag_disjoint (f g : Z) (t : TileState.Tile) :
  TileState.uint32 g -> Z.land f g = 0 ->
  TileState.hasFlag g (TileState.remFlag f t) = TileState.hasFlag g t.
Proof.
  intros Hg H. unfold TileState.hasFlag, TileState.remFlag. simpl.
  f_equal. apply Z.bits_inj'. intros i Hi.
  rewrite !Z.land_spec, not32_testbit by lia.
  assert (Hfg : Z.testbit (Z.land f g) i = false) by (rewrite H; apply Z.bits_0).
  rewrite Z.land_spec in Hfg.
  destruct (Z.testbit g i) eqn:Hgi; [| rewrite !andb_false_r; reflexivity].
  destruct (i <? 32) eqn:Hlt.
  - rewrite andb_true_r in Hfg. rewrite Hfg.
    destruct (Z.testbit (TileState.m_flags t) i); reflexivity.
  - rewrite uint32_testbit in Hgi by (assumption || lia). discriminate.
Qed.

Lemma flagValue_uint32 (f : TileState.tileflags_t) : TileState.uint32 (TileState.flagValue f).
Proof. destruct f; unfold TileState.uint32; cbv; (split; [discriminate | reflexivity]). Qed.

Lemma flagValue_disjoint (a b : TileState.tileflags_t) :
  a <> b -> Z.land (TileState.flagValue a) (TileState.flagValue b) = 0.
Proof. intros H. destruct a, b; try reflexivity; contradiction H; reflexivity. Qed.

(** A flag with one bit: the conjunction with it is the flag or 0. *)
Lemma land_single_bit (m k : Z) :
  0 <= k -> Z.land m (Z.shiftl 1 k) = if Z.testbit m k then Z.shiftl 1 k else 0.
Proof.
  intros Hk. rewrite Z.shiftl_1_l. apply Z.bits_inj'. intros i Hi.
  rewrite Z.land_spec, Z.pow2_bits_eqb by lia.
  destruct (Z.eqb_spec k i) as [-> | Hne].
  - rewrite andb_true_r. destruct (Z.testbit m i) eqn:Hm.
    + rewrite Z.pow2_bits_eqb, Z.eqb_refl by lia. reflexivity.
    + rewrite Z.bits_0. reflexivity.
  - rewrite andb_false_r. destruct (Z.testbit m k).
    + rewrite Z.pow2_bits_eqb by lia. symmetry. apply Z.eqb_neq. exact Hne.
    + rewrite Z.bits_0. reflexivity.
Qed.

Lemma hasFlag_setFlag_same (flag : Z) (t : TileState.Tile) :
  TileState.hasFlag flag (TileState.setFlag flag t) = true.
Proof.
  unfold TileState.hasFlag, TileState.setFlag. simpl.
  apply Z.eqb_eq. apply Z.bits_inj'. intros i Hi.
  rewrite Z.land_spec, Z.lor_spec.
  destruct (Z.testbit (TileState.m_flags t) i), (Z.testbit flag i); reflexivity.
Qed.

Lemma hasFlag_remFlag_same (flag : Z) (t : TileState.Tile) :
  TileState.hasFlag flag (TileState.remFlag flag t) = (flag =? 0).
Proof.
  unfold TileState.hasFlag, TileState.remFlag. simpl.
  rewrite land_not32. apply Z.eqb_sym.
Qed.

(** X1. [hasFlag(flag)] holds after [setFlag(flag)]; after
    [remFlag(flag)] it holds exactly when [flag] is 0; and [hasFlag(0)]
    holds on every tile. *)
Theorem hasFlag_after_setFlag_and_remFlag (flag : Z) (t : TileState.Tile) :
  TileState.hasFlag flag (TileState.setFlag flag t) = true
  /\ TileState.hasFlag flag (TileState.remFlag flag t) = (flag =? 0)
  /\ TileState.hasFlag 0 t = true.
Proof.
  split; [apply hasFlag_setFlag_same | split; [apply hasFlag_remFlag_same |]].
  unfold TileState.hasFlag. rewrite Z.land_0_r. reflexivity.
Qed.

(** X2. The enumerators of [tileflags_t] are independent: setting or
    removing one of them never changes what [hasFlag] answers for
    another. *)
Theorem tileflags_are_independent (a b : TileState.tileflags_t) (t : TileState.Tile) :
  a <> b ->
  TileState.hasFlag (TileState.flagValue b) (TileState.setFlag (TileState.flagValue a) t)
  = TileState.hasFlag (TileState.flagValue b) t
  /\ TileState.hasFlag (TileState.flagValue b) (TileState.remFlag (TileState.flagValue a) t)
     = TileState.hasFlag (TileState.flagValue b) t.
Proof.
  intros Hab. split.
  - apply hasFlag_setFlag_disjoint, flagValue_disjoint, Hab.
  - apply hasFlag_remFlag_disjoint; [apply flagValue_uint32 |].
    apply flagValue_disjoint, Hab.
Qed.

(** X3. On 32-bit flags, [setFlag] and [remFlag] stay within 32 bits
    and undo each other: removing a flag that was set on a tile without
    it gives the tile back, and so does setting a flag again that the
    tile had before it was removed. *)
Theorem setFlag_remFlag_round_trip (flag : Z) (t : TileState.Tile) :
  TileState.uint32 (TileState.m_flags t) ->
  TileState.uint32 flag ->
  TileState.uint32 (TileState.getFlags (TileState.setFlag flag t))
  /\ TileState.uint32 (TileState.getFlags (TileState.remFlag flag t))
  /\ (Z.land (TileState.m_flags t) flag = 0 ->
      TileState.remFlag flag (TileState.setFlag flag t) = t)
  /\ (TileState.hasFlag flag t = true ->
      TileState.setFlag flag (TileState.remFlag flag t) = t).
Proof.
  intros Hm Hf.
  assert (Hm0 : 0 <= TileState.m_flags t) by (destruct Hm; assumption).
  assert (Hf0 : 0 <= flag) by (destruct Hf; assumption).
  split; [| split; [| split]].
  - unfold TileState.getFlags, TileState.setFlag. simpl. apply uint32_bits.
    + intros i Hi. rewrite Z.lor_spec, !uint32_testbit by assumption. reflexivity.
    + apply Z.lor_nonneg. split; assumption.
  - unfold TileState.getFlags, TileState.remFlag. simpl. apply uint32_bits.
    + intros i Hi. rewrite Z.land_spec, uint32_testbit by assumption. reflexivity.
    + apply Z.land_nonneg. left. assumption.
  - intros Hdis. unfold TileState.remFlag, TileState.setFlag.
    destruct t as [c cc m h g e w cf]. unfold TileState.set_flags. simpl in *. f_equal.
    apply Z.bits_inj'. intros i Hi.
    rewrite Z.land_spec, Z.lor_spec, not32_testbit by lia.
    assert (Hb : Z.testbit (Z.land m flag) i = false) by (rewrite Hdis; apply Z.bits_0).
    rewrite Z.land_spec in Hb.
    destruct (i <? 32) eqn:Hlt.
    + destruct (Z.testbit m i), (Z.testbit flag i); simpl in *; congruence.
    + rewrite !uint32_testbit by (assumption || lia). reflexivity.
  - intros Hhas. unfold TileState.hasFlag in Hhas. apply Z.eqb_eq in Hhas.
    unfold TileState.remFlag, TileState.setFlag.
    destruct t as [c cc m h g e w cf]. unfold TileState.set_flags. simpl in *. f_equal.
    apply Z.bits_inj'. intros i Hi.
    rewrite Z.lor_spec, Z.land_spec, not32_testbit by lia.
    assert (Hb : Z.testbit (Z.land m flag) i = Z.testbit flag i) by (rewrite Hhas; reflexivity).
    rewrite Z.land_spec in Hb.
    destruct (i <? 32) eqn:Hlt.
    + destruct (Z.testbit m i), (Z.testbit flag i); simpl in *; congruence.
    + rewrite !uint32_testbit by (assumption || lia). reflexivity.
Qed.

(** X4. [hasTranslucentLight], which converts the masked flags to
    [bool], answers what [hasFlag(TILESTATE_TRANSLUECENT_LIGHT)] answers;
    so it is true after [setFlag] of that flag, false after [remFlag] of
    it, and unchanged by any other enumerator. *)
Theorem hasTranslucentLight_is_hasFlag (t : TileState.Tile) :
  let light := TileState.flagValue TileState.TILESTATE_TRANSLUECENT_LIGHT in
  TileState.hasTranslucentLight t = TileState.hasFlag light t
  /\ TileState.hasTranslucentLight (TileState.setFlag light t) = true
  /\ TileState.hasTranslucentLight (TileState.remFlag light t) = false
  /\ forall f, f <> TileState.TILESTATE_TRANSLUECENT_LIGHT ->
       TileState.hasTranslucentLight (TileState.setFlag (TileState.flagValue f) t)
       = TileState.hasTranslucentLight t
       /\ TileState.hasTranslucentLight (TileState.remFlag (TileState.flagValue f) t)
          = TileState.hasTranslucentLight t.
Proof.
  intros light.
  assert (Heq : forall u, TileState.hasTranslucentLight u = TileState.hasFlag light u).
  { intros u. unfold TileState.hasTranslucentLight, TileState.hasFlag, light.
    cbn [TileState.flagValue]. rewrite land_single_bit by lia.
    destruct (Z.testbit (TileState.m_flags u) 23); reflexivity. }
  split; [apply Heq |]. rewrite !Heq.
  split; [apply hasFlag_setFlag_same |].
  split; [rewrite hasFlag_remFlag_same; reflexivity |].
  intros f Hf. rewrite !Heq. split.
  - apply hasFlag_setFlag_disjoint, flagValue_disjoint, Hf.
  - apply hasFlag_remFlag_disjoint; [apply flagValue_uint32 |].
    apply flagValue_disjoint, Hf.
Qed.

(** X5. A tile is a house tile only with a house id other than 0 and
    the flag [TILESTATE_HOUSE]: it is none after [setHouseId(0)] or
    after [remFlag(TILESTATE_HOUSE)], it is one after a nonzero house id
    and the flag were set, in either order, and no other enumerator
    changes the answer. *)
Theorem isHouseTile_follows_house_id_and_flag (t : TileState.Tile) :
  let house := TileState.flagValue TileState.TILESTATE_HOUSE in
  TileState.isHouseTile (TileState.setHouseId 0 t) = false
  /\ TileState.isHouseTile (TileState.remFlag house t) = false
  /\ (forall hid, hid <> 0 ->
        TileState.isHouseTile (TileState.setFlag house (TileState.setHouseId hid t)) = true
        /\ TileState.isHouseTile (TileState.setHouseId hid (TileState.setFlag house t))
           = true)
  /\ (forall f, f <> TileState.TILESTATE_HOUSE ->
        TileState.isHouseTile (TileState.setFlag (TileState.flagValue f) t)
        = TileState.isHouseTile t
        /\ TileState.isHouseTile (TileState.remFlag (TileState.flagValue f) t)
           = TileState.isHouseTile t).
Proof.
  intros house.
  assert (Heq : forall u, TileState.isHouseTile u
                          = negb (TileState.getHouseId u =? 0) && TileState.hasFlag house u)
    by reflexivity.
  split; [reflexivity |].
  split; [rewrite Heq, hasFlag_remFlag_same; apply andb_false_r |].
  split.
  - intros hid Hhid. rewrite !Heq.
    assert (Hnz : negb (hid =? 0) = true) by (apply negb_true_iff, Z.eqb_neq, Hhid).
    split.
    + rewrite hasFlag_setFlag_same, andb_true_r. exact Hnz.
    + unfold TileState.getHouseId, TileState.setHouseId, TileState.hasFlag,
        TileState.setFlag. cbn [TileState.m_houseId TileState.m_flags TileState.set_flags].
      rewrite Hnz. apply (hasFlag_setFlag_same house t).
  - intros f Hf. rewrite !Heq. split.
    + rewrite hasFlag_setFlag_disjoint by (apply flagValue_disjoint, Hf). reflexivity.
    + rewrite hasFlag_remFlag_disjoint
        by (apply flagValue_uint32 || apply flagValue_disjoint, Hf).
      reflexivity.
Qed.

(** ** Tile: the ground *)

(** X6. A ground that is a top ground is left to the bottom-or-top
    pass: the tile then has no ground in the sense of [hasGround], has no
    ground border to draw whatever the border counter, and always has
    something for the bottom-or-top pass; a tile with a ground border to
    draw has no ground at all or one that [hasGround] counts. *)
Theorem top_ground_is_left_to_the_top_pass (t : TileState.Tile) :
  (TileState.hasGround t = true -> TileState.hasAnyGround t = true)
  /\ (TileState.hasAnyGround t = true -> TileState.hasGround t = false ->
      TileState.hasBottomOrTopToDraw t = true
      /\ TileState.hasGroundBorderToDraw t = false)
  /\ (TileState.hasGroundBorderToDraw t = true ->
      TileState.hasGroundBorder (TileState.m_countFlag t) <> 0
      /\ TileState.hasAnyGround t = TileState.hasGround t).
Proof.
  unfold TileState.hasGround, TileState.hasAnyGround, TileState.hasBottomOrTopToDraw,
    TileState.hasGroundBorderToDraw, TileState.nonzero.
  destruct (TileState.m_ground t) as [[top] |]; simpl.
  - destruct top; simpl.
    + split; [discriminate |]. split.
      * intros _ _. rewrite orb_true_r, andb_false_r. split; reflexivity.
      * rewrite andb_false_r. discriminate.
    + split; [reflexivity |]. split; [discriminate |].
      rewrite andb_true_r. intros H. split; [| reflexivity].
      apply negb_true_iff, Z.eqb_neq in H. exact H.
  - split; [discriminate |]. split; [discriminate |].
    rewrite andb_true_r. intros H. split; [| reflexivity].
    apply negb_true_iff, Z.eqb_neq in H. exact H.
Qed.

(** ** Tile: the covered cache *)

Lemma setCompletelyCoveredCache_floor (state : Z) (c c' : Tile.Tile) :
  Tile.setCompletelyCoveredCache state c = Ok c' ->
  Tile.m_currentFirstVisibleFloor c' = Tile.m_currentFirstVisibleFloor c.
Proof.
  unfold Tile.setCompletelyCoveredCache.
  destruct (state =? 0); [intros [= <-]; reflexivity |].
  destruct (negb (Tile.m_currentFirstVisibleFloor c =? Tile.UINT8_MAX)).
  - destruct (Tile.array_set _ _ _); simpl; [intros [= <-]; reflexivity | discriminate].
  - intros [= <-]. reflexivity.
Qed.

(** X7. [isCovered] reads [m_coveredCache] at
    [m_currentFirstVisibleFloor] without the guard that
    [setCompletelyCoveredCache] has: while the floor is still
    [UINT8_MAX], as the constructor leaves it, and the array has at most
    255 entries, the read is outside the array although
    [setCompletelyCoveredCache] succeeds; for a floor inside the array it
    answers whether the entry is 1; and [setCompletelyCoveredCache],
    which writes the other array, never changes the answer. *)
Theorem isCovered_reads_unguarded (t : TileState.Tile) :
  let floor := Tile.m_currentFirstVisibleFloor (TileState.cache t) in
  (floor = Tile.UINT8_MAX ->
   (length (TileState.m_coveredCache t) <= 255)%nat ->
   TileState.isCovered t = Err OutOfBounds
   /\ forall state, exists t', TileState.setCompletelyCoveredCache state t = Ok t')
  /\ (0 <= floor < Z.of_nat (length (TileState.m_coveredCache t)) ->
      exists v, TileState.m_coveredCache t !! Z.to_nat floor = Some v
                /\ TileState.isCovered t = Ok (v =? 1))
  /\ (forall state t', TileState.setCompletelyCoveredCache state t = Ok t' ->
                       TileState.isCovered t' = TileState.isCovered t).
Proof.
  intros floor. split; [| split].
  - intros Hfloor Hlen. split.
    + unfold TileState.isCovered, TileState.array_get. fold floor. rewrite Hfloor.
      unfold Tile.UINT8_MAX.
      destruct (255 <? Z.of_nat (length (TileState.m_coveredCache t))) eqn:Hlt; [lia |].
      reflexivity.
    + intros state. unfold TileState.setCompletelyCoveredCache, Tile.setCompletelyCoveredCache.
      fold floor. destruct (state =? 0); simpl; [eauto |].
      rewrite Hfloor, Z.eqb_refl. simpl. eauto.
  - intros Hin. unfold TileState.isCovered, TileState.array_get. fold floor.
    destruct (0 <=? floor) eqn:H0; [| lia].
    destruct (floor <? Z.of_nat (length (TileState.m_coveredCache t))) eqn:H1; [| lia].
    simpl.
    destruct (TileState.m_coveredCache t !! Z.to_nat floor) as [v |] eqn:Hv.
    + exists v. split; reflexivity.
    + apply lookup_ge_None in Hv. lia.
  - intros state t'. unfold TileState.setCompletelyCoveredCache.
    destruct (Tile.setCompletelyCoveredCache state (TileState.cache t)) as [c |] eqn:Hc;
      simpl; [| discriminate].
    intros [= <-]. unfold TileState.isCovered. simpl.
    rewrite (setCompletelyCoveredCache_floor _ _ _ Hc). reflexivity.
Qed.

Section MoreDrawPoolProperties.
Context {E : Externals}.

(** ** add and addRepeated: what they leave in the pool *)



Lemma methodCount_trailing (state : Painter.PainterState) (method : Pool.DrawMethod)
    (drawMode : Painter.DrawMode) (prevObj : Pool.DrawObject)
    (methods : list Pool.DrawMethod) :
  DrawPool.methodCount (DrawPool.trailing state method drawMode prevObj methods)
  = S (length methods).
Proof.
  unfold DrawPool.trailing.
  destruct (Painter.state_eqb (Pool.state prevObj) state); simpl.
  - rewrite length_app. simpl. lia.
  - lia.
Qed.

Lemma length_trailing (state : Painter.PainterState) (method : Pool.DrawMethod)
    (drawMode : Painter.DrawMode) (prevObj : Pool.DrawObject)
    (methods : list Pool.DrawMethod) :
  (1 <= length (DrawPool.trailing state method drawMode prevObj methods) <= 2)%nat.
Proof.
  unfold DrawPool.trailing.
  destruct (Painter.state_eqb (Pool.state prevObj) state); simpl; lia.
Qed.

(** X8. A call of [add] that returns leaves every pool but the current
    one as it was, and in the current pool changes nothing but the
    objects and the hash: the number of objects stays or grows by one,
    the number of methods stays or grows by one, and it grows by one
    whenever the method's destination is null. *)
Theorem add_changes_counts_by_at_most_one (state : Painter.PainterState)
    (method : Pool.DrawMethod) (drawMode : Painter.DrawMode) (d d' : DrawPool.DrawPool)
    (p : Pool.Pool) :
  DrawPool.currentPool d = Ok p ->
  DrawPool.add state method drawMode d = Ok d' ->
  exists p',
    d' = DrawPool.setCurrentPool p' d
    /\ (length (Pool.m_objects p) <= length (Pool.m_objects p')
        <= S (length (Pool.m_objects p)))%nat
    /\ (DrawPool.methodCount (Pool.m_objects p)
        <= DrawPool.methodCount (Pool.m_objects p')
        <= S (DrawPool.methodCount (Pool.m_objects p)))%nat
    /\ (point_isNull (Pool.dest method) = true ->
        DrawPool.methodCount (Pool.m_objects p')
        = S (DrawPool.methodCount (Pool.m_objects p)))
    /\ Pool.m_state p' = Pool.m_state p
    /\ Pool.m_enabled p' = Pool.m_enabled p
    /\ Pool.m_indexToStartSearching p' = Pool.m_indexToStartSearching p.
Proof.
  intros Hp Hadd. unfold DrawPool.add in Hadd.
  apply withCurrentPool_inv in Hadd as (p0 & p' & Hp0 & Hrun & ->).
  assert (p0 = p) as -> by congruence.
  exists p'. split; [reflexivity |].
  destruct (updateHash_pool_keeps state method p) as (_ & Hen & Hst & Hidx).
  destruct (list_snoc_cases (Pool.m_objects p)) as [Hnil | (front & prevObj & Hobj)].
  - rewrite (add_pool_empty _ _ _ _ Hnil) in Hrun. injection Hrun as <-.
    rewrite Hnil. simpl. repeat split; auto; lia.
  - rewrite (add_pool_snoc _ _ _ _ _ _ Hobj) in Hrun.
    match type of Hrun with
    | mbind _ ?scan = _ => destruct scan as [methods |] eqn:Hscan
    end; cbn [mbind mret result_bind result_ret] in Hrun; [| discriminate].
    injection Hrun as <-.
    apply scan_length in Hscan as [Hlen Hnull].
    pose proof (length_trailing state method drawMode prevObj methods) as Htl.
    pose proof (methodCount_trailing state method drawMode prevObj methods) as Htc.
    rewrite Hobj. cbn [Pool.m_objects Pool.set_objects Pool.m_state Pool.m_enabled
                       Pool.m_indexToStartSearching].
    rewrite !length_app, !methodCount_app, Htc. simpl.
    repeat split; auto.
    + lia.
    + lia.
    + destruct Hlen as [-> | Hlen]; lia.
    + destruct Hlen as [-> | Hlen]; lia.
    + intros Hn. rewrite (Hnull Hn). lia.
Qed.

Lemma methodCount_alter (method : Pool.DrawMethod) (l : list Pool.DrawObject) (k : nat)
    (obj : Pool.DrawObject) :
  l !! k = Some obj ->
  DrawPool.methodCount (alter (DrawPool.push_back_method method) k l)
  = S (DrawPool.methodCount l).
Proof.
  revert k. induction l as [| o l IH]; intros [| k]; try discriminate.
  - intros _. change (alter (DrawPool.push_back_method method) 0%nat (o :: l))
      with (DrawPool.push_back_method method o :: l).
    change (DrawPool.methodCount (?x :: ?r))
      with (length (Pool.drawMethods x) + DrawPool.methodCount r)%nat.
    simpl. rewrite length_app. simpl. lia.
  - intros H. change (alter (DrawPool.push_back_method method) (S k) (o :: l))
      with (o :: alter (DrawPool.push_back_method method) k l).
    change (DrawPool.methodCount (?x :: ?r))
      with (length (Pool.drawMethods x) + DrawPool.methodCount r)%nat.
    rewrite (IH k H). lia.
Qed.

Lemma addRepeated_pool_objects (state : Painter.PainterState)
    (method : Pool.DrawMethod) (drawMode : Painter.DrawMode) (p p' : Pool.Pool) :
  DrawPool.addRepeated_pool state method drawMode p = Ok p' ->
  DrawPool.methodCount (Pool.m_objects p') = S (DrawPool.methodCount (Pool.m_objects p))
  /\ (length (Pool.m_objects p') = length (Pool.m_objects p)
      \/ Pool.m_objects p' = Pool.m_objects p ++ [DrawPool.newObject state drawMode method])
  /\ forall k obj,
       Pool.m_objects p !! k = Some obj ->
       exists obj',
         Pool.m_objects p' !! k = Some obj'
         /\ Pool.state obj' = Pool.state obj
         /\ Pool.drawMode obj' = Pool.drawMode obj
         /\ Pool.action obj' = Pool.action obj
         /\ (Pool.drawMethods obj' = Pool.drawMethods obj
             \/ Pool.drawMethods obj' = Pool.drawMethods obj ++ [method]).
Proof.
  intros Hrun.
  destruct (updateHash_pool_keeps state method p) as (Hobj & _).
  unfold DrawPool.addRepeated_pool in Hrun. cbv zeta in Hrun. rewrite Hobj in Hrun.
  destruct (_ <=? _)%nat; [| discriminate].
  destruct (DrawPool.find_if _ _) as [k0 |] eqn:Hfind; injection Hrun as <-;
    cbn [Pool.m_objects Pool.set_objects].
  - apply find_if_Some in Hfind as (x & Hx & _). rewrite lookup_drop in Hx.
    split; [apply (methodCount_alter _ _ _ _ Hx) |].
    split; [left; apply length_alter |].
    intros k obj Hk.
    destruct (decide (Z.to_nat (DrawPool.startIndex (DrawPool.updateHash_pool state method p))
                      + k0 = k)%nat) as [Heq | Hne].
    + rewrite <- Heq in *. rewrite list_lookup_alter_eq, Hk. simpl.
      eexists. split; [reflexivity |]. simpl. auto.
    + rewrite list_lookup_alter_ne by exact Hne. exists obj. auto 6.
  - split; [rewrite methodCount_app; simpl; lia |].
    split; [right; reflexivity |].
    intros k obj Hk. exists obj. rewrite lookup_app_l by (eapply lookup_lt_Some; exact Hk).
    auto 6.
Qed.

(** X9. A call of [addRepeated] that returns removes nothing and
    reorders nothing: every object of the current pool is still at its
    position with its state, its draw mode and its action, and with its
    methods, to which only the new method may have been appended; the
    pool holds one method more, in an object it had or in one new object
    at the end. *)
Theorem addRepeated_only_appends (state : Painter.PainterState)
    (method : Pool.DrawMethod) (drawMode : Painter.DrawMode) (d d' : DrawPool.DrawPool)
    (p : Pool.Pool) :
  DrawPool.currentPool d = Ok p ->
  DrawPool.addRepeated state method drawMode d = Ok d' ->
  exists p',
    d' = DrawPool.setCurrentPool p' d
    /\ DrawPool.methodCount (Pool.m_objects p') = S (DrawPool.methodCount (Pool.m_objects p))
    /\ (length (Pool.m_objects p') = length (Pool.m_objects p)
        \/ Pool.m_objects p'
           = Pool.m_objects p ++ [DrawPool.newObject state drawMode method])
    /\ forall k obj,
         Pool.m_objects p !! k = Some obj ->
         exists obj',
           Pool.m_objects p' !! k = Some obj'
           /\ Pool.state obj' = Pool.state obj
           /\ Pool.drawMode obj' = Pool.drawMode obj
           /\ Pool.action obj' = Pool.action obj
           /\ (Pool.drawMethods obj' = Pool.drawMethods obj
               \/ Pool.drawMethods obj' = Pool.drawMethods obj ++ [method]).
Proof.
  intros Hp Hadd. unfold DrawPool.addRepeated in Hadd.
  apply withCurrentPool_inv in Hadd as (p0 & p' & Hp0 & Hrun & ->).
  assert (p0 = p) as -> by congruence.
  exists p'. split; [reflexivity |].
  apply addRepeated_pool_objects. exact Hrun.
Qed.

(** ** Between two draws *)

Lemma extends_refl (obj : Pool.DrawObject) : DrawPool.extends obj obj.
Proof.
  split; [reflexivity |]. split; [reflexivity |]. exists []. symmetry. apply app_nil_r.
Qed.

Lemma extends_trans (a b c : Pool.DrawObject) :
  DrawPool.extends a b -> DrawPool.extends b c -> DrawPool.extends a c.
Proof.
  intros (Hs1 & Ha1 & m1 & Hm1) (Hs2 & Ha2 & m2 & Hm2).
  split; [congruence |]. split; [congruence |].
  exists (m1 ++ m2). rewrite Hm2, Hm1. symmetry. apply app_assoc.
Qed.

Lemma grows_refl (p : Pool.Pool) : DrawPool.grows p p.
Proof. intros k obj Hk. exists obj. split; [exact Hk | apply extends_refl]. Qed.

Lemma grows_trans (p q r : Pool.Pool) :
  DrawPool.grows p q -> DrawPool.grows q r -> DrawPool.grows p r.
Proof.
  intros Hpq Hqr k obj Hk.
  destruct (Hpq k obj Hk) as (obj1 & Hk1 & He1).
  destruct (Hqr k obj1 Hk1) as (obj2 & Hk2 & He2).
  exists obj2. split; [exact Hk2 | eapply extends_trans; eassumption].
Qed.

Lemma same_objects_grows (p p' : Pool.Pool) :
  Pool.m_objects p' = Pool.m_objects p -> DrawPool.grows p p'.
Proof.
  intros H k obj Hk. exists obj. rewrite H. split; [exact Hk | apply extends_refl].
Qed.

Lemma add_pool_grows (state : Painter.PainterState) (method : Pool.DrawMethod)
    (drawMode : Painter.DrawMode) (p p' : Pool.Pool) :
  point_isNull (Pool.dest method) = true ->
  DrawPool.add_pool state method drawMode p = Ok p' -> DrawPool.grows p p'.
Proof.
  intros Hnull Hrun.
  destruct (list_snoc_cases (Pool.m_objects p)) as [Hnil | (front & prevObj & Hobj)].
  - intros k obj Hk. rewrite Hnil in Hk. destruct k; discriminate.
  - rewrite (add_pool_snoc _ _ _ _ _ _ Hobj), Hnull in Hrun.
    cbn [negb mbind mret result_bind result_ret] in Hrun. injection Hrun as <-.
    intros k obj Hk. rewrite Hobj in Hk. cbn [Pool.m_objects Pool.set_objects].
    destruct (decide (k < length front)%nat) as [Hlt | Hge].
    + rewrite lookup_app_l in Hk by exact Hlt. rewrite lookup_app_l by exact Hlt.
      exists obj. split; [exact Hk | apply extends_refl].
    + rewrite lookup_app_r in Hk by lia.
      destruct (k - length front)%nat as [| n] eqn:Hn; [| destruct n; discriminate].
      injection Hk as <-. rewrite lookup_app_r by lia. rewrite Hn.
      unfold DrawPool.trailing.
      destruct (Painter.state_eqb (Pool.state prevObj) state); simpl;
        eexists; (split; [reflexivity |]);
        (split; [reflexivity |]); (split; [reflexivity |]); simpl.
      * exists [method]. reflexivity.
      * exists []. symmetry. apply app_nil_r.
Qed.

Lemma addRepeated_pool_grows (state : Painter.PainterState) (method : Pool.DrawMethod)
    (drawMode : Painter.DrawMode) (p p' : Pool.Pool) :
  DrawPool.addRepeated_pool state method drawMode p = Ok p' -> DrawPool.grows p p'.
Proof.
  intros Hrun k obj Hk.
  destruct (addRepeated_pool_objects _ _ _ _ _ Hrun) as (_ & _ & Hall).
  destruct (Hall k obj Hk) as (obj' & Hk' & Hs & _ & Ha & Hm).
  exists obj'. split; [exact Hk' |]. split; [exact Hs |]. split; [exact Ha |].
  destruct Hm as [-> | ->]; [exists []; symmetry; apply app_nil_r | exists [method]; reflexivity].
Qed.

Lemma runCall_pool_grows (c : DrawPool.call) (p p' : Pool.Pool) :
  DrawPool.nullDest c -> DrawPool.runCall_pool c p = Ok p' -> DrawPool.grows p p'.
Proof.
  destruct c as [state method drawMode | state method drawMode | action]; simpl.
  - apply add_pool_grows.
  - intros _. apply addRepeated_pool_grows.
  - intros _ [= <-]. intros k obj Hk. exists obj. simpl.
    rewrite lookup_app_l by (eapply lookup_lt_Some; exact Hk).
    split; [exact Hk | apply extends_refl].
Qed.

Lemma callFrom_nullDest (r : DrawPool.request) (c : DrawPool.call) :
  DrawPool.keepsMethods r -> DrawPool.callFrom r c -> DrawPool.nullDest c.
Proof.
  intros Hr. destruct c as [state method drawMode | state method drawMode | action];
    simpl; [| | reflexivity].
  all: intros Hfrom; destruct (point_isNull (Pool.dest method)) eqn:Hnull;
    [reflexivity |];
    destruct (Hfrom eq_refl) as (_ & dest & texture & src & color & -> & _);
    simpl in Hr; congruence.
Qed.

(** What a successful request other than [draw] comes to. *)
Lemma runRequest_kinds (cur : Painter.PainterState) (r : DrawPool.request)
    (d d' : DrawPool.DrawPool) :
  r <> DrawPool.Draw ->
  DrawPool.runRequest cur r d = Ok d' ->
  d' = d
  \/ (exists c, DrawPool.runCall c d = Ok d' /\ DrawPool.callFrom r c)
  \/ (exists pool, DrawPool.use pool d = Ok d')
  \/ (exists pool dest src, DrawPool.useFramed pool dest src d = Ok d')
  \/ (exists f, DrawPool.setter r = Some f
                /\ DrawPool.withCurrentPool (fun p => Ok (f p)) d = Ok d').
Proof.
  intros Hr.
  destruct r; cbn [DrawPool.runRequest];
    unfold DrawPool.addTexturedRect3, DrawPool.addRepeatedTexturedRect3,
      DrawPool.addRepeatedFilledRect2, DrawPool.addFilledRect2,
      DrawPool.addTexturedRect, DrawPool.addUpsideDownTexturedRect,
      DrawPool.addRepeatedTexturedRect, DrawPool.addRepeatedTexturedRepeatedRect,
      DrawPool.addRepeatedFilledRect, DrawPool.addFilledRect,
      DrawPool.addFilledTriangle, DrawPool.addBoundingRect, DrawPool.generateState;
    try (destruct texture as [t |];
         cbn [DrawPool.deref mbind mret result_bind result_ret]; [| discriminate]);
    try (match goal with
         | |- (if ?c then _ else _) = _ -> _ =>
           destruct c eqn:?; [intros [= <-]; left; reflexivity |]
         end;
         destruct (DrawPool.currentPool d) as [p |];
         cbn [mbind mret result_bind result_ret]; [| discriminate];
         intros Hrun; right; left;
         match type of Hrun with
         | DrawPool.add ?s ?m ?dm _ = _ => exists (DrawPool.CallAdd s m dm)
         | DrawPool.addRepeated ?s ?m ?dm _ = _ => exists (DrawPool.CallAddRepeated s m dm)
         end;
         (split; [exact Hrun |]); simpl; intros Hnull;
         first [discriminate Hnull | split; [reflexivity |]; eauto 8]).
  - intros H. right. left. eexists (DrawPool.CallAddAction _). split; [exact H | exact I].
  - intros H. right. right. left. eauto.
  - intros H. right. right. right. left. eauto.
  - intros H. right. right. right. right. eauto.
  - intros H. right. right. right. right. eauto.
  - contradiction Hr. reflexivity.
Qed.

Lemma use_pool_objects (p : Pool.Pool) :
  Pool.m_objects (DrawPool.use_pool p) = Pool.m_objects p.
Proof. apply use_pool_content. Qed.

Lemma setter_objects (r : DrawPool.request) (f : Pool.Pool -> Pool.Pool) (p : Pool.Pool) :
  DrawPool.setter r = Some f -> Pool.m_objects (f p) = Pool.m_objects p.
Proof. destruct r; simpl; try discriminate; intros [= <-]; reflexivity. Qed.

Lemma runRequest_grows (cur : Painter.PainterState) (r : DrawPool.request)
    (d d' : DrawPool.DrawPool) :
  DrawPool.keepsMethods r ->
  DrawPool.runRequest cur r d = Ok d' ->
  DrawPool.poolwise DrawPool.grows d d'.
Proof.
  intros Hkeep Hrun.
  assert (Hr : r <> DrawPool.Draw) by (intros ->; exact Hkeep).
  apply (runRequest_kinds _ _ _ _ Hr) in Hrun
    as [-> | [(c & Hc & Hfrom) | [(pool & Huse) | [(pool & dest & src & Huse)
       | (f & Hf & Hset)]]]].
  - apply poolwise_refl, grows_refl.
  - rewrite runCall_lift in Hc.
    apply (withCurrentPool_poolwise _ _ _ _ grows_refl) in Hc; [exact Hc |].
    intros p p'. apply runCall_pool_grows. eapply callFrom_nullDest; eassumption.
  - unfold DrawPool.use in Huse.
    apply (withCurrentPool_poolwise DrawPool.grows _ _ _ grows_refl) in Huse.
    + exact Huse.
    + intros p p' [= <-]. apply same_objects_grows, use_pool_objects.
  - unfold DrawPool.useFramed in Huse.
    destruct (DrawPool.use (Some pool) d) as [d1 |] eqn:Hd1; simpl in Huse; [| discriminate].
    unfold DrawPool.use in Hd1.
    apply (withCurrentPool_poolwise DrawPool.grows _ _ _ grows_refl) in Hd1.
    2: { intros p p' [= <-]. apply same_objects_grows, use_pool_objects. }
    destruct (DrawPool.m_pools d1 !! pool) as [p1 |] eqn:Hp1; [| discriminate].
    destruct (Pool.framed p1) as [pf |] eqn:Hpf; [| discriminate].
    injection Huse as <-.
    eapply poolwise_trans; [apply grows_trans | exact Hd1 |].
    apply (insert_poolwise _ d1 pool p1 _ grows_refl Hp1).
    apply same_objects_grows. reflexivity.
  - apply (withCurrentPool_poolwise DrawPool.grows _ _ _ grows_refl) in Hset.
    + exact Hset.
    + intros p p' [= <-]. apply same_objects_grows. eapply setter_objects. exact Hf.
Qed.

Lemma grows_methodCount (l l' : list Pool.DrawObject) :
  (forall k obj, l !! k = Some obj ->
                 exists obj', l' !! k = Some obj' /\ DrawPool.extends obj obj') ->
  (DrawPool.methodCount l <= DrawPool.methodCount l')%nat.
Proof.
  revert l'. induction l as [| o l IH]; intros l' H.
  - simpl. lia.
  - destruct (H 0%nat o eq_refl) as (o' & Ho' & _ & _ & more & Hmore).
    destruct l' as [| o2 l']; [discriminate |]. injection Ho' as ->.
    change (DrawPool.methodCount (?x :: ?r))
      with (length (Pool.drawMethods x) + DrawPool.methodCount r)%nat.
    rewrite Hmore, length_app.
    assert (DrawPool.methodCount l <= DrawPool.methodCount l')%nat.
    { apply IH. intros k obj Hk. apply (H (S k) obj Hk). }
    lia.
Qed.

(** X10. Between two draws nothing that was batched is lost, unless
    [addTexturedRect] is given an [originalDest]: after requests that
    are neither [draw] nor an [addTexturedRect] with a non-null
    [originalDest], every pool is still there, every object is at its
    position with its state and its action, its methods are a prefix of
    the methods it has now, and no pool holds fewer methods than
    before. *)
Theorem methods_are_kept_until_draw
    (rs : list (Painter.PainterState * DrawPool.request)) (d d' : DrawPool.DrawPool) :
  Forall (fun cr => DrawPool.keepsMethods (snd cr)) rs ->
  DrawPool.runRequests rs d = Ok d' ->
  length (DrawPool.m_pools d') = length (DrawPool.m_pools d)
  /\ forall i p,
       DrawPool.m_pools d !! i = Some p ->
       exists p',
         DrawPool.m_pools d' !! i = Some p'
         /\ (DrawPool.methodCount (Pool.m_objects p)
             <= DrawPool.methodCount (Pool.m_objects p'))%nat
         /\ forall k obj,
              Pool.m_objects p !! k = Some obj ->
              exists obj' more,
                Pool.m_objects p' !! k = Some obj'
                /\ Pool.state obj' = Pool.state obj
                /\ Pool.action obj' = Pool.action obj
                /\ Pool.drawMethods obj' = Pool.drawMethods obj ++ more.
Proof.
  intros Hall Hrun.
  assert (Hpw : DrawPool.poolwise DrawPool.grows d d').
  { revert d d' Hall Hrun. induction rs as [| [cur r] rs IH]; intros d d' Hall; simpl.
    - intros [= <-]. apply poolwise_refl, grows_refl.
    - inversion Hall as [| ? ? Hr Hrs]; subst.
      destruct (DrawPool.runRequest cur r d) as [d1 |] eqn:Hd1; simpl; [| discriminate].
      intros Hrun. eapply poolwise_trans.
      + apply grows_trans.
      + apply (runRequest_grows cur r d d1 Hr Hd1).
      + apply (IH _ _ Hrs Hrun). }
  destruct Hpw as [Hlen Hpools]. split; [exact Hlen |].
  intros i p Hp. destruct (Hpools i p Hp) as (p' & Hp' & Hgrow).
  exists p'. split; [exact Hp' |]. split; [apply grows_methodCount; exact Hgrow |].
  intros k obj Hk. destruct (Hgrow k obj Hk) as (obj' & Hk' & Hs & Ha & more & Hm).
  exists obj', more. auto.
Qed.

(** ** drawObject *)

Lemma addCoords_length (drawMode : Painter.DrawMode) (buffer : list DrawPool.coords)
    (method : Pool.DrawMethod) :
  length (DrawPool.addCoords drawMode buffer method) = S (length buffer).
Proof.
  unfold DrawPool.addCoords.
  destruct (Pool.type method), (Pool.points method) as [[a b] c],
    (DrawPool.isTriangles drawMode); rewrite length_app; simpl; lia.
Qed.

Lemma fold_addCoords_length (drawMode : Painter.DrawMode) (methods : list Pool.DrawMethod) :
  forall buffer,
    length (fold_left (DrawPool.addCoords drawMode) methods buffer)
    = (length buffer + length methods)%nat.
Proof.
  induction methods as [| m ms IH]; intros buffer; simpl.
  - lia.
  - rewrite IH, addCoords_length. lia.
Qed.

(** From an empty buffer, [drawObject] leaves an empty buffer. *)
Lemma drawObject_clears (obj : Pool.DrawObject) :
  fst (DrawPool.drawObject obj []) = [].
Proof.
  unfold DrawPool.drawObject.
  destruct (Pool.action obj); [reflexivity |].
  destruct (Pool.drawMethods obj); reflexivity.
Qed.

Lemma drawObject_drawCoords (obj : Pool.DrawObject) (buffer0 buffer : list DrawPool.coords)
    (drawMode : Painter.DrawMode) :
  In (DrawPool.drawCoords buffer drawMode) (snd (DrawPool.drawObject obj buffer0)) <->
  Pool.action obj = None /\ Pool.drawMethods obj <> []
  /\ buffer = fold_left (DrawPool.addCoords (Pool.drawMode obj)) (Pool.drawMethods obj) buffer0
  /\ drawMode = Pool.drawMode obj.
Proof.
  unfold DrawPool.drawObject.
  destruct (Pool.action obj) as [f |].
  { simpl. split; [intros [H | []]; discriminate | intros (H & _); discriminate]. }
  destruct (Pool.drawMethods obj) as [| m ms] eqn:Hms.
  { simpl. split; [intros [] | intros (_ & H & _); contradiction H; reflexivity]. }
  cbn [snd]. rewrite !in_app_iff. split.
  - intros [[H | []] | [Htex | [H | []]]]; try discriminate.
    + destruct (Painter.texture (Pool.state obj)); simpl in Htex;
        [destruct Htex as [H | [H | []]]; discriminate | destruct Htex].
    + injection H as <- <-. split; [reflexivity |]. split; [discriminate |].
      split; reflexivity.
  - intros (_ & _ & -> & ->). right. right. left. reflexivity.
Qed.

(** X11. [m_coordsbuffer] never carries the coordinates of one object
    into the next: whatever [draw] sends to [drawObject], from an empty
    buffer the buffer is empty again afterwards, and the painter's
    [drawCoords] is called exactly for the objects without action that
    hold a method, each time with the object's draw mode and with one
    entry for each of its methods and nothing else. *)
Theorem coords_buffer_holds_one_object (events : list DrawPool.event) :
  fst (DrawPool.drawObjects events []) = []
  /\ (forall buffer drawMode,
        In (DrawPool.drawCoords buffer drawMode) (snd (DrawPool.drawObjects events [])) ->
        exists i obj,
          In (DrawPool.EvDrawObject i obj) events
          /\ Pool.action obj = None
          /\ buffer = DrawPool.coordsOf obj
          /\ drawMode = Pool.drawMode obj
          /\ length buffer = length (Pool.drawMethods obj)
          /\ buffer <> [])
  /\ (forall i obj,
        In (DrawPool.EvDrawObject i obj) events ->
        Pool.action obj = None -> Pool.drawMethods obj <> [] ->
        In (DrawPool.drawCoords (DrawPool.coordsOf obj) (Pool.drawMode obj))
           (snd (DrawPool.drawObjects events []))).
Proof.
  induction events as [| e events (IH1 & IH2 & IH3)].
  { simpl. split; [reflexivity |]. split; [intros ? ? [] | intros ? ? []]. }
  assert (Hother : (forall i obj, e <> DrawPool.EvDrawObject i obj) ->
                   DrawPool.drawObjects (e :: events) []
                   = DrawPool.drawObjects events []).
  { intros Hne. destruct e; try reflexivity. contradiction (Hne pool obj). reflexivity. }
  destruct (match e with DrawPool.EvDrawObject _ _ => true | _ => false end) eqn:He.
  - destruct e as [| i0 obj0 | | | | |]; try discriminate. clear He Hother.
    cbn [DrawPool.drawObjects].
    pose proof (drawObject_clears obj0) as Hclear.
    destruct (DrawPool.drawObject obj0 []) as [buffer0 calls0] eqn:Hobj0.
    simpl in Hclear. subst buffer0.
    destruct (DrawPool.drawObjects events []) as [buffer1 calls1] eqn:Hrest.
    simpl in IH1, IH2, IH3. cbn [fst snd].
    split; [exact IH1 |]. split.
    + intros buffer drawMode Hin. apply in_app_iff in Hin as [Hin | Hin].
      * assert (Hin' : In (DrawPool.drawCoords buffer drawMode)
                          (snd (DrawPool.drawObject obj0 []))) by (rewrite Hobj0; exact Hin).
        apply drawObject_drawCoords in Hin' as (Ha & Hne & -> & ->).
        exists i0, obj0. split; [left; reflexivity |]. split; [exact Ha |].
        split; [reflexivity |]. split; [reflexivity |].
        rewrite fold_addCoords_length. simpl.
        split; [reflexivity |]. intros Hnil.
        apply (f_equal length) in Hnil. rewrite fold_addCoords_length in Hnil. simpl in Hnil.
        destruct (Pool.drawMethods obj0); [contradiction Hne; reflexivity | discriminate].
      * destruct (IH2 buffer drawMode Hin) as (i & obj & Hev & Hrest').
        exists i, obj. split; [right; exact Hev | exact Hrest'].
    + intros i obj [Heq | Hin] Ha Hne; apply in_app_iff.
      * injection Heq as -> ->. left.
        change calls0 with (snd (buffer1, calls0)) at 1.
        assert (Hin' : In (DrawPool.drawCoords (DrawPool.coordsOf obj) (Pool.drawMode obj))
                          (snd (DrawPool.drawObject obj []))).
        { apply drawObject_drawCoords. auto. }
        rewrite Hobj0 in Hin'. exact Hin'.
      * right. apply (IH3 i obj Hin Ha Hne).
  - assert (Hne : forall i obj, e <> DrawPool.EvDrawObject i obj)
      by (intros i obj ->; discriminate).
    rewrite (Hother Hne). split; [exact IH1 |]. split.
    + intros buffer drawMode Hin. destruct (IH2 buffer drawMode Hin) as (i & obj & Hev & Hr).
      exists i, obj. split; [right; exact Hev | exact Hr].
    + intros i obj [Heq | Hin] Ha Hnil; [contradiction (Hne i obj) | ].
      apply (IH3 i obj Hin Ha Hnil).
Qed.

(** ** Actions *)

(** X12. A method added right after an action, under a state equal to
    the value-initialised state of the action's object, is appended to
    that object, and [drawObject] then calls the action and returns: the
    method is never sent to the painter. *)
Theorem method_merged_into_action_is_not_drawn (state : Painter.PainterState)
    (method : Pool.DrawMethod) (drawMode : Painter.DrawMode) (f : nat)
    (d : DrawPool.DrawPool) (p : Pool.Pool) :
  DrawPool.currentPool d = Ok p ->
  Painter.state_eqb emptyState state = true ->
  let merged := Pool.mkDrawObject emptyState Painter.Triangles [method] (Some f) in
  exists p',
    DrawPool.runCalls [DrawPool.CallAddAction (Some f);
                       DrawPool.CallAdd state method drawMode] d
    = Ok (DrawPool.setCurrentPool p' d)
    /\ Pool.m_objects p' = Pool.m_objects p ++ [merged]
    /\ forall buffer, DrawPool.drawObject merged buffer = (buffer, [DrawPool.runAction f]).
Proof.
  intros Hp Hsame merged.
  rewrite (runCalls_lift _ _ _ Hp). cbn [DrawPool.runCalls_pool DrawPool.runCall_pool
    mbind mret result_bind result_ret].
  rewrite (add_pool_snoc state method drawMode (DrawPool.addAction_pool (Some f) p)
             (Pool.m_objects p)
             (Pool.mkDrawObject emptyState Painter.None_ [] (Some f)) eq_refl).
  cbn [Pool.drawMethods Pool.state DrawPool.eraseHidden].
  assert (Hscan : (if negb (point_isNull (Pool.dest method))
                   then @Ok (list Pool.DrawMethod) [] else Ok []) = Ok [])
    by (destruct (negb _); reflexivity).
  rewrite Hscan. cbn [mbind mret result_bind result_ret].
  unfold DrawPool.trailing. cbn [Pool.state Pool.action Pool.drawMode]. rewrite Hsame.
  eexists. split; [reflexivity |]. split; [reflexivity |].
  intros buffer. reflexivity.
Qed.

(** ** Objects with several methods *)

Lemma eraseHidden_shorter (state prevState : Painter.PainterState) (sameState : bool)
    (method : Pool.DrawMethod) (ms ms' : list Pool.DrawMethod) :
  (if negb (point_isNull (Pool.dest method))
   then DrawPool.eraseHidden state prevState sameState method ms
   else Ok ms) = Ok ms' ->
  (length ms' <= length ms)%nat.
Proof.
  intros H. apply scan_length in H as [[-> | H] _]; lia.
Qed.

Lemma add_pool_batched (state : Painter.PainterState) (method : Pool.DrawMethod)
    (drawMode : Painter.DrawMode) (p p' : Pool.Pool) :
  Forall DrawPool.batched (Pool.m_objects p) ->
  DrawPool.add_pool state method drawMode p = Ok p' ->
  Forall DrawPool.batched (Pool.m_objects p').
Proof.
  intros Hall Hrun.
  destruct (list_snoc_cases (Pool.m_objects p)) as [Hnil | (front & prevObj & Hobj)].
  - rewrite (add_pool_empty _ _ _ _ Hnil) in Hrun. injection Hrun as <-. simpl.
    apply Forall_singleton. intros H. simpl in H. lia.
  - rewrite (add_pool_snoc _ _ _ _ _ _ Hobj) in Hrun.
    match type of Hrun with
    | mbind _ ?scan = _ => destruct scan as [methods |] eqn:Hscan
    end; cbn [mbind mret result_bind result_ret] in Hrun; [| discriminate].
    injection Hrun as <-. apply eraseHidden_shorter in Hscan.
    rewrite Hobj, Forall_app, Forall_singleton in Hall. destruct Hall as [Hfront Hprev].
    cbn [Pool.m_objects Pool.set_objects]. apply Forall_app. split; [exact Hfront |].
    unfold DrawPool.trailing.
    destruct (Painter.state_eqb (Pool.state prevObj) state).
    + apply Forall_singleton. intros _. reflexivity.
    + apply Forall_cons. split.
      * intros H. simpl in *. apply Hprev. lia.
      * apply Forall_singleton. intros H. simpl in H. lia.
Qed.

Lemma runCalls_pool_batched (cs : list DrawPool.call) :
  forall p p',
    Forall DrawPool.isAdd cs ->
    Forall DrawPool.batched (Pool.m_objects p) ->
    DrawPool.runCalls_pool cs p = Ok p' ->
    Forall DrawPool.batched (Pool.m_objects p').
Proof.
  induction cs as [| c cs IH]; intros p p' Hadd Hall; simpl.
  - intros [= <-]. exact Hall.
  - inversion Hadd as [| ? ? Hc Hcs]; subst.
    destruct (DrawPool.runCall_pool c p) as [p1 |] eqn:Hp1; simpl; [| discriminate].
    apply (IH p1 p' Hcs).
    destruct c as [state method drawMode | state method drawMode | action]; simpl in Hp1.
    + eapply add_pool_batched; eassumption.
    + destruct Hc.
    + injection Hp1 as <-. simpl. apply Forall_app. split; [exact Hall |].
      apply Forall_singleton. intros H. simpl in H. lia.
Qed.

(** Under the draw mode [Triangles] no quad goes into the buffer. *)
Lemma fold_addCoords_triangles (drawMode : Painter.DrawMode)
    (methods : list Pool.DrawMethod) :
  DrawPool.isTriangles drawMode = true ->
  forall buffer c,
    In c (fold_left (DrawPool.addCoords drawMode) methods buffer) ->
    In c buffer
    \/ forall dest src, c <> DrawPool.addQuad dest src
                        /\ c <> DrawPool.addUpsideDownQuad dest src.
Proof.
  intros Htri. induction methods as [| m ms IH]; intros buffer c; simpl.
  - auto.
  - intros Hin. apply IH in Hin as [Hin | Hin]; [| right; exact Hin].
    unfold DrawPool.addCoords in Hin. rewrite Htri in Hin.
    destruct (Pool.type m), (Pool.points m) as [[pa pb] pc];
      apply in_app_iff in Hin as [Hin | [<- | []]]; auto;
      right; intros dest src; split; discriminate.
Qed.

(** X13. Objects that [add] and [addAction] alone have batched are
    drawn as triangles once they hold two methods: in a pool filled by
    such calls from objects of that kind, every object with two methods
    or more has the draw mode [Triangles], and [drawObject] puts no quad
    into the buffer for it. *)
Theorem objects_batched_by_add_are_triangles (cs : list DrawPool.call)
    (p p' : Pool.Pool) (obj : Pool.DrawObject) :
  Forall DrawPool.isAdd cs ->
  Forall DrawPool.batched (Pool.m_objects p) ->
  DrawPool.runCalls_pool cs p = Ok p' ->
  In obj (Pool.m_objects p') ->
  (2 <= length (Pool.drawMethods obj))%nat ->
  Pool.drawMode obj = Painter.Triangles
  /\ forall dest src,
       ~ In (DrawPool.addQuad dest src) (DrawPool.coordsOf obj)
       /\ ~ In (DrawPool.addUpsideDownQuad dest src) (DrawPool.coordsOf obj).
Proof.
  intros Hadd Hall Hrun Hin Hlen.
  pose proof (runCalls_pool_batched cs p p' Hadd Hall Hrun) as Hb.
  rewrite Forall_forall in Hb. apply list_elem_of_In in Hin.
  pose proof (Hb obj Hin Hlen) as Hmode. split; [exact Hmode |].
  intros dest src. unfold DrawPool.coordsOf. rewrite Hmode.
  split; intros Hc;
    apply (fold_addCoords_triangles Painter.Triangles _ eq_refl) in Hc as [[] | Hc];
    destruct (Hc dest src) as [H1 H2]; [apply H1 | apply H2]; reflexivity.
Qed.

(** ** What the hash does not see *)

Lemma add_framed (state : Painter.PainterState) (method : Pool.DrawMethod)
    (drawMode : Painter.DrawMode) (d d' : DrawPool.DrawPool) (p : Pool.Pool) :
  DrawPool.currentPool d = Ok p ->
  DrawPool.add state method drawMode d = Ok d'
  \/ DrawPool.addRepeated state method drawMode d = Ok d' ->
  exists p', DrawPool.currentPool d' = Ok p'
             /\ Pool.framed p' = Pool.framed (DrawPool.updateHash_pool state method p).
Proof.
  intros Hp [Hrun | Hrun];
    apply withCurrentPool_inv in Hrun as (p0 & p' & Hp0 & Hrun & ->);
    assert (p0 = p) as -> by congruence;
    exists p'; (split; [apply (currentPool_setCurrentPool _ _ _ Hp) |]).
  - apply add_pool_inv in Hrun as (l & ->). reflexivity.
  - apply addRepeated_pool_inv in Hrun as (l & ->). reflexivity.
Qed.

Lemma updateHash_pool_blind (state : Painter.PainterState) (method : Pool.DrawMethod)
    (p : Pool.Pool) (type : Pool.DrawMethodType) (dest : Point) (alphaWriting : bool) :
  DrawPool.updateHash_pool
    (Painter.set_alphaWriting alphaWriting state)
    (Pool.mkDrawMethod type (Pool.rects method) (Pool.points method) dest
                       (Pool.intValue method) (Pool.hash method)) p
  = DrawPool.updateHash_pool state method p.
Proof. reflexivity. Qed.

(** X14. The hash of a framed pool does not see the type of a method,
    its [dest], the alpha writing of the state, nor an action:
    [updateHash] gives the same pool when these differ; hence
    [addTexturedRect], [addUpsideDownTexturedRect],
    [addRepeatedTexturedRect] and [addRepeatedTexturedRepeatedRect], called
    with the same rects, texture and color, leave the framed part of the
    current pool, its hashes included, in the same state, and [addAction]
    leaves it as it was. *)
Theorem hash_ignores_type_dest_and_actions :
  (forall state method p type dest alphaWriting,
      DrawPool.updateHash_pool
        (Painter.set_alphaWriting alphaWriting state)
        (Pool.mkDrawMethod type (Pool.rects method) (Pool.points method) dest
                           (Pool.intValue method) (Pool.hash method)) p
      = DrawPool.updateHash_pool state method p)
  /\ (forall dest texture src color originalDest cur d d1 p1,
        DrawPool.addTexturedRect dest texture src color originalDest cur d = Ok d1 ->
        DrawPool.currentPool d1 = Ok p1 ->
        forall d2 p2,
          DrawPool.addUpsideDownTexturedRect dest texture src color cur d = Ok d2
          \/ DrawPool.addRepeatedTexturedRect dest texture src color cur d = Ok d2
          \/ DrawPool.addRepeatedTexturedRepeatedRect dest texture src color cur d = Ok d2 ->
          DrawPool.currentPool d2 = Ok p2 ->
          Pool.framed p2 = Pool.framed p1)
  /\ (forall action d d' p,
        DrawPool.currentPool d = Ok p ->
        DrawPool.addAction action d = Ok d' ->
        exists p', DrawPool.currentPool d' = Ok p' /\ Pool.framed p' = Pool.framed p).
Proof.
  split; [intros; apply updateHash_pool_blind |]. split.
  - intros dest texture src color originalDest cur d d1 p1 H1 Hp1 d2 p2 H2 Hp2.
    unfold DrawPool.addTexturedRect, DrawPool.addUpsideDownTexturedRect,
      DrawPool.addRepeatedTexturedRect, DrawPool.addRepeatedTexturedRepeatedRect in *.
    destruct (rect_isEmpty dest || rect_isEmpty src).
    { assert (d2 = d) as -> by (destruct H2 as [H2 | [H2 | H2]]; congruence).
      congruence. }
    unfold DrawPool.generateState in *.
    destruct (DrawPool.currentPool d) as [p |] eqn:Hp;
      cbn [mbind mret result_bind result_ret] in *;
      [| destruct H2 as [H2 | [H2 | H2]]; discriminate].
    destruct (add_framed _ _ _ _ _ _ Hp (or_introl H1)) as (q1 & Hq1 & Hf1).
    assert (Hf2 : exists q2, DrawPool.currentPool d2 = Ok q2
                             /\ Pool.framed q2 = Pool.framed p1).
    { assert (q1 = p1) as -> by congruence. rewrite Hf1.
      destruct H2 as [H2 | [H2 | H2]].
      - apply (add_framed _ _ _ _ _ _ Hp (or_introl H2)).
      - apply (add_framed _ _ _ _ _ _ Hp (or_intror H2)).
      - apply (add_framed _ _ _ _ _ _ Hp (or_intror H2)). }
    destruct Hf2 as (q2 & Hq2 & Hf2). congruence.
  - intros action d d' p Hp Hrun.
    apply withCurrentPool_inv in Hrun as (p0 & p' & Hp0 & [= <-] & ->).
    assert (p0 = p) as -> by congruence.
    eexists. split; [apply (currentPool_setCurrentPool _ _ _ Hp) | reflexivity].
Qed.

(** ** draw: what is replayed *)

Lemma preDraw_pool_empty (j : nat) (p : Pool.Pool) :
  Pool.m_objects p = [] \/ Pool.isEnabled p = false \/ Pool.framed p = None ->
  snd (DrawPool.preDraw_pool j p) = [].
Proof.
  unfold DrawPool.preDraw_pool, Pool.hasFrameBuffer.
  intros [H | [H | H]]; rewrite H.
  - destruct (negb (Pool.isEnabled p) || _); [reflexivity |].
    destruct (Pool.framed p) as [pf |]; [| reflexivity].
    destruct (Pool.hasModification pf); [| reflexivity].
    rewrite bool_decide_eq_true_2 by reflexivity. reflexivity.
  - reflexivity.
  - rewrite orb_true_r. reflexivity.
Qed.

Lemma drawPhase_pool_framed_events (j : nat) (p : Pool.Pool) (pf : Pool.FramedPool) :
  Pool.isEnabled p = true -> Pool.framed p = Some pf ->
  snd (DrawPool.drawPhase_pool j p)
  = [DrawPool.EvSaveAndResetState] ++ DrawPool.callback j (Pool.m_beforeDraw pf)
    ++ [DrawPool.EvFramebufferDraw j (Pool.m_dest pf) (Pool.m_src pf)]
    ++ DrawPool.callback j (Pool.m_afterDraw pf) ++ [DrawPool.EvRestoreSavedState].
Proof.
  intros Hen Hpf. unfold DrawPool.drawPhase_pool. rewrite Hen, Hpf. reflexivity.
Qed.

(** The pool that the second loop of [draw] finds at position [i]. *)
Lemma preDraw_pool_framed (i : nat) (p : Pool.Pool) :
  Pool.framed p = None /\ Pool.framed (fst (DrawPool.preDraw_pool i p)) = None
  \/ exists pf pf',
       Pool.framed p = Some pf /\ Pool.framed (fst (DrawPool.preDraw_pool i p)) = Some pf'
       /\ Pool.m_dest pf' = Pool.m_dest pf /\ Pool.m_src pf' = Pool.m_src pf
       /\ Pool.m_beforeDraw pf' = Pool.m_beforeDraw pf
       /\ Pool.m_afterDraw pf' = Pool.m_afterDraw pf.
Proof.
  unfold DrawPool.preDraw_pool, Pool.hasFrameBuffer.
  destruct (Pool.framed p) as [pf |] eqn:Hpf.
  - right. exists pf.
    destruct (negb (Pool.isEnabled p) || negb true); [eauto 10 |].
    destruct (Pool.hasModification pf); [| eauto 10].
    destruct (negb (bool_decide (Pool.m_objects p = []))); simpl; eauto 10.
  - left. rewrite orb_true_r. auto.
Qed.

Lemma callback_events (j : nat) (f : Action) (e : DrawPool.event) :
  In e (DrawPool.callback j f) -> exists a, e = DrawPool.EvCall j a.
Proof. destruct f as [a |]; simpl; [intros [<- | []]; eauto | intros []]. Qed.

(** The events of the second loop for one pool. *)
Lemma drawPhase_pool_events (j : nat) (q : Pool.Pool) (e : DrawPool.event) :
  In e (snd (DrawPool.drawPhase_pool j q)) ->
  Pool.isEnabled q = true
  /\ (e = DrawPool.EvSaveAndResetState \/ e = DrawPool.EvRestoreSavedState
      \/ (exists a, e = DrawPool.EvCall j a)
      \/ (exists dest src, e = DrawPool.EvFramebufferDraw j dest src)
      \/ (exists obj, e = DrawPool.EvDrawObject j obj /\ Pool.framed q = None
                      /\ In obj (Pool.m_objects q))).
Proof.
  unfold DrawPool.drawPhase_pool.
  destruct (Pool.isEnabled q); [| intros []]. cbn [negb snd].
  intros He. split; [reflexivity |].
  destruct (Pool.framed q) as [qf |].
  - rewrite !in_app_iff in He.
    destruct He as [[<- | []] | [He | [[<- | []] | [He | [<- | []]]]]]; eauto 8;
      apply callback_events in He; auto.
  - apply in_map_iff in He as (o & <- & Ho). right. right. right. right. eauto.
Qed.

(** X15. A framed pool that is enabled and holds no object is never
    redrawn, whatever its hashes say: [draw] emits no bind, no
    [drawObject] and no release for it, and still composites its
    framebuffer at the pool's [m_dest] and [m_src]. *)
Theorem emptied_framed_pool_keeps_its_image (d : DrawPool.DrawPool) (i : nat)
    (p : Pool.Pool) (pf : Pool.FramedPool) :
  DrawPool.m_pools d !! i = Some p ->
  Pool.framed p = Some pf ->
  Pool.isEnabled p = true ->
  Pool.m_objects p = [] ->
  (forall e, In e (DrawPool.preDrawEvents (DrawPool.draw d)) ->
             e <> DrawPool.EvBind i /\ e <> DrawPool.EvRelease i
             /\ forall obj, e <> DrawPool.EvDrawObject i obj)
  /\ (forall obj, ~ In (DrawPool.EvDrawObject i obj)
                       (DrawPool.drawEvents (DrawPool.draw d)))
  /\ In (DrawPool.EvFramebufferDraw i (Pool.m_dest pf) (Pool.m_src pf))
        (DrawPool.drawEvents (DrawPool.draw d)).
Proof.
  intros Hp Hpf Hen Hnil.
  assert (Hp1 : fst (DrawPool.forPools DrawPool.preDraw_pool (DrawPool.m_pools d)) !! i
                = Some (fst (DrawPool.preDraw_pool i p)))
    by (rewrite forPools_lookup, Hp; reflexivity).
  destruct (preDraw_pool_keeps i p) as (Hobj1 & Hen1 & _).
  destruct (preDraw_pool_framed i p) as [[Hnone _] | (pf0 & pf' & Hpf0 & Hpf' & Hd & Hs & _)];
    [congruence |].
  assert (pf0 = pf) as -> by congruence.
  split; [| split].
  - intros e He. rewrite draw_preDrawEvents in He.
    apply forPools_events in He as (j & q & Hq & He).
    assert (Hj : j <> i).
    { intros ->. assert (q = p) as -> by congruence.
      rewrite preDraw_pool_empty in He by (left; exact Hnil). destruct He. }
    apply preDraw_pool_events in He as ([-> | [-> | (obj & ->)]] & _);
      repeat split; try discriminate; try (intros obj'); congruence.
  - intros obj He. rewrite draw_drawEvents in He.
    apply forPools_events in He as (j & q & Hq & He).
    apply drawPhase_pool_events
      in He as (_ & [He | [He | [(a & He) | [(dest & src & He)
                | (o & [= <- <-] & Hnone & _)]]]]); try discriminate.
    assert (q = fst (DrawPool.preDraw_pool i p)) as -> by congruence.
    congruence.
  - rewrite draw_drawEvents. apply forPools_events.
    exists i, (fst (DrawPool.preDraw_pool i p)). split; [exact Hp1 |].
    rewrite (drawPhase_pool_framed_events _ _ pf');
      [| unfold Pool.isEnabled; rewrite Hen1; exact Hen | exact Hpf'].
    rewrite <- Hd, <- Hs. rewrite !in_app_iff. right. right. left. left. reflexivity.
Qed.

(** The events of a loop over the pools that concern the pool at
    position [i] are the events of the body for that pool. *)
Lemma concat_filter_nil (f : DrawPool.event -> bool)
    (pools : list Pool.Pool) :
  forall body : nat -> Pool.Pool -> Pool.Pool * list DrawPool.event,
    (forall j q e, In e (snd (body j q)) -> f e = false) ->
    List.filter f (concat (snd <$> imap body pools)) = [].
Proof.
  induction pools as [| p pools IH]; intros body Hbody; [reflexivity |].
  cbn [imap fmap list_fmap concat]. rewrite List.filter_app.
  change (list_fmap _ _ snd (imap (body ∘ S) pools)) with (snd <$> imap (body ∘ S) pools).
  rewrite (IH (body ∘ S)) by (intros j q e; apply Hbody).
  rewrite app_nil_r.
  assert (Hall : forall l, (forall e, In e l -> f e = false) -> List.filter f l = []).
  { induction l as [| e l IHl]; intros Hl; [reflexivity |]. simpl.
    rewrite (Hl e) by (left; reflexivity). apply IHl. intros e' He'. apply Hl. right. exact He'. }
  apply Hall. intros e. apply Hbody.
Qed.

Lemma forPools_filter (i : nat) (pools : list Pool.Pool) :
  forall (body : nat -> Pool.Pool -> Pool.Pool * list DrawPool.event) (k : nat)
         (p : Pool.Pool),
    pools !! k = Some p ->
    (forall j q e, j <> k -> In e (snd (body j q)) -> DrawPool.ofPool i e = false) ->
    List.filter (DrawPool.ofPool i) (snd (DrawPool.forPools body pools))
    = List.filter (DrawPool.ofPool i) (snd (body k p)).
Proof.
  unfold DrawPool.forPools. cbn [snd].
  induction pools as [| q pools IH]; intros body k p Hk Hbody; [discriminate |].
  cbn [imap fmap list_fmap concat]. rewrite List.filter_app.
  change (list_fmap _ _ snd (imap (body ∘ S) pools)) with (snd <$> imap (body ∘ S) pools).
  destruct k as [| k].
  - injection Hk as ->.
    rewrite concat_filter_nil; [apply app_nil_r |].
    intros j q' e. apply Hbody. discriminate.
  - rewrite (IH (body ∘ S) k p Hk).
    + assert (Hq : List.filter (DrawPool.ofPool i) (snd (body 0%nat q)) = []).
      { assert (Hall : forall l, (forall e, In e l -> DrawPool.ofPool i e = false) ->
                                 List.filter (DrawPool.ofPool i) l = []).
        { induction l as [| e l IHl]; intros Hl; [reflexivity |]. simpl.
          rewrite (Hl e) by (left; reflexivity). apply IHl.
          intros e' He'. apply Hl. right. exact He'. }
        apply Hall. intros e. apply Hbody. discriminate. }
      rewrite Hq. reflexivity.
    + intros j q' e Hj. apply Hbody. congruence.
Qed.

Lemma ofPool_preDraw (i j : nat) (q : Pool.Pool) (e : DrawPool.event) :
  j <> i -> In e (snd (DrawPool.preDraw_pool j q)) -> DrawPool.ofPool i e = false.
Proof.
  intros Hj He. apply preDraw_pool_events in He as ([-> | [-> | (obj & ->)]] & _);
    simpl; apply bool_decide_eq_false_2; exact Hj.
Qed.

Lemma filter_ofPool_objects (i : nat) (l : list Pool.DrawObject) :
  List.filter (DrawPool.ofPool i) (DrawPool.EvDrawObject i <$> l)
  = DrawPool.EvDrawObject i <$> l.
Proof.
  induction l as [| o l IH]; [reflexivity |].
  cbn [fmap list_fmap List.filter DrawPool.ofPool].
  rewrite bool_decide_eq_true_2 by reflexivity. f_equal. exact IH.
Qed.

Lemma ofPool_drawPhase (i j : nat) (q : Pool.Pool) (e : DrawPool.event) :
  j <> i -> In e (snd (DrawPool.drawPhase_pool j q)) -> DrawPool.ofPool i e = false.
Proof.
  intros Hj He.
  apply drawPhase_pool_events
    in He as (_ & [-> | [-> | [(a & ->) | [(dest & src & ->) | (o & -> & _)]]]]);
    try reflexivity; simpl; apply bool_decide_eq_false_2; exact Hj.
Qed.

Lemma drawEvents_unframed (d : DrawPool.DrawPool) (i : nat) (p : Pool.Pool) :
  DrawPool.m_pools d !! i = Some p ->
  Pool.isEnabled p = true ->
  Pool.framed p = None ->
  List.filter (DrawPool.ofPool i) (DrawPool.drawEvents (DrawPool.draw d))
  = DrawPool.EvDrawObject i <$> Pool.m_objects p.
Proof.
  intros Hp Hen Hnone.
  assert (Hp1 : fst (DrawPool.forPools DrawPool.preDraw_pool (DrawPool.m_pools d)) !! i
                = Some (fst (DrawPool.preDraw_pool i p)))
    by (rewrite forPools_lookup, Hp; reflexivity).
  rewrite draw_drawEvents.
  rewrite (forPools_filter i _ _ i _ Hp1) by (intros j q e; apply ofPool_drawPhase).
  destruct (preDraw_pool_keeps i p) as (Hobj1 & Hen1 & _).
  destruct (preDraw_pool_framed i p) as [[_ Hnone1] | (pf & ? & Hpf & _)]; [| congruence].
  unfold DrawPool.drawPhase_pool, Pool.isEnabled.
  rewrite Hen1. unfold Pool.isEnabled in Hen. rewrite Hen. cbn [negb snd].
  rewrite Hnone1, Hobj1. apply filter_ofPool_objects.
Qed.

Lemma drawEvents_framed (d : DrawPool.DrawPool) (i : nat) (p : Pool.Pool)
    (pf : Pool.FramedPool) :
  DrawPool.m_pools d !! i = Some p ->
  Pool.isEnabled p = true ->
  Pool.framed p = Some pf ->
  List.filter (DrawPool.ofPool i) (DrawPool.drawEvents (DrawPool.draw d))
  = DrawPool.callback i (Pool.m_beforeDraw pf)
    ++ [DrawPool.EvFramebufferDraw i (Pool.m_dest pf) (Pool.m_src pf)]
    ++ DrawPool.callback i (Pool.m_afterDraw pf).
Proof.
  intros Hp Hen Hpf.
  assert (Hp1 : fst (DrawPool.forPools DrawPool.preDraw_pool (DrawPool.m_pools d)) !! i
                = Some (fst (DrawPool.preDraw_pool i p)))
    by (rewrite forPools_lookup, Hp; reflexivity).
  rewrite draw_drawEvents.
  rewrite (forPools_filter i _ _ i _ Hp1) by (intros j q e; apply ofPool_drawPhase).
  destruct (preDraw_pool_keeps i p) as (_ & Hen1 & _).
  destruct (preDraw_pool_framed i p)
    as [[Hnone _] | (pf0 & pf' & Hpf0 & Hpf' & Hd & Hs & Hb & Ha)]; [congruence |].
  assert (pf0 = pf) as -> by congruence.
  rewrite (drawPhase_pool_framed_events _ _ pf');
    [| unfold Pool.isEnabled; rewrite Hen1; exact Hen | exact Hpf'].
  rewrite Hd, Hs, Hb, Ha.
  assert (Hcb : forall f, List.filter (DrawPool.ofPool i) (DrawPool.callback i f)
                          = DrawPool.callback i f).
  { intros [a |]; [| reflexivity]. simpl.
    rewrite bool_decide_eq_true_2 by reflexivity. reflexivity. }
  cbn [app List.filter DrawPool.ofPool].
  rewrite !List.filter_app, !Hcb. cbn [app List.filter DrawPool.ofPool].
  rewrite bool_decide_eq_true_2 by reflexivity.
  rewrite List.filter_app, Hcb. cbn [List.filter DrawPool.ofPool].
  rewrite app_nil_r. reflexivity.
Qed.

(** X16. [draw] replays the objects of a pool once, in the order they
    were batched, and only them: for an enabled pool without
    framebuffer, the events of the second loop that concern the pool are
    its objects in order, and the first loop has none for it; for an
    enabled framed pool, the events of the second loop that concern the
    pool are the callbacks and the composition of the framebuffer, with
    no object, and, when the pool has a modification and an object, the
    events of the first loop that concern it are the bind, its objects in
    order, and the release. *)
Theorem draw_replays_objects_in_order (d : DrawPool.DrawPool) (i : nat) (p : Pool.Pool) :
  DrawPool.m_pools d !! i = Some p ->
  Pool.isEnabled p = true ->
  (Pool.framed p = None ->
   List.filter (DrawPool.ofPool i) (DrawPool.drawEvents (DrawPool.draw d))
   = DrawPool.EvDrawObject i <$> Pool.m_objects p
   /\ List.filter (DrawPool.ofPool i) (DrawPool.preDrawEvents (DrawPool.draw d)) = [])
  /\ (forall pf,
        Pool.framed p = Some pf ->
        List.filter (DrawPool.ofPool i) (DrawPool.drawEvents (DrawPool.draw d))
        = DrawPool.callback i (Pool.m_beforeDraw pf)
          ++ [DrawPool.EvFramebufferDraw i (Pool.m_dest pf) (Pool.m_src pf)]
          ++ DrawPool.callback i (Pool.m_afterDraw pf)
        /\ (Pool.hasModification pf = true ->
            Pool.m_objects p <> [] ->
            List.filter (DrawPool.ofPool i) (DrawPool.preDrawEvents (DrawPool.draw d))
            = [DrawPool.EvBind i] ++ (DrawPool.EvDrawObject i <$> Pool.m_objects p)
              ++ [DrawPool.EvRelease i])).
Proof.
  intros Hp Hen.
  assert (Hpre : List.filter (DrawPool.ofPool i) (DrawPool.preDrawEvents (DrawPool.draw d))
                 = List.filter (DrawPool.ofPool i) (snd (DrawPool.preDraw_pool i p))).
  { rewrite draw_preDrawEvents. apply (forPools_filter i _ _ i p Hp).
    intros j q e. apply ofPool_preDraw. }
  split.
  - intros Hnone. split; [apply (drawEvents_unframed d i p); assumption |].
    rewrite Hpre, preDraw_pool_empty by auto. reflexivity.
  - intros pf Hpf. split; [apply (drawEvents_framed d i p pf); assumption |].
    intros Hmod Hne. rewrite Hpre.
    unfold DrawPool.preDraw_pool, Pool.hasFrameBuffer. rewrite Hen, Hpf, Hmod. cbn [negb orb].
    rewrite bool_decide_eq_false_2 by exact Hne. cbn [negb snd].
    cbn [app List.filter DrawPool.ofPool].
    rewrite bool_decide_eq_true_2 by reflexivity. f_equal.
    rewrite List.filter_app, filter_ofPool_objects. f_equal.
    cbn [List.filter DrawPool.ofPool]. rewrite bool_decide_eq_true_2 by reflexivity.
    reflexivity.
Qed.

Lemma draw_pool_enabled (i : nat) (p : Pool.Pool) :
  Pool.m_enabled (DrawPool.draw_pool i p) = Pool.m_enabled p.
Proof.
  destruct (preDraw_pool_keeps i p) as (_ & Hen & _).
  unfold DrawPool.draw_pool, DrawPool.drawPhase_pool, Pool.isEnabled.
  destruct (Pool.m_enabled (fst (DrawPool.preDraw_pool i p))) eqn:Hq; simpl; congruence.
Qed.

(** After [draw], a pool is disabled or holds no object. *)
Lemma drawn_pool (d : DrawPool.DrawPool) (i : nat) (q : Pool.Pool) :
  DrawPool.m_pools (DrawPool.after (DrawPool.draw d)) !! i = Some q ->
  Pool.m_objects q = [] \/ Pool.isEnabled q = false.
Proof.
  rewrite draw_lookup. destruct (DrawPool.m_pools d !! i) as [p |]; [| discriminate].
  simpl. intros [= <-]. fold (DrawPool.draw_pool i p).
  destruct (Pool.isEnabled p) eqn:Hen.
  - left. apply draw_pool_content. exact Hen.
  - right. unfold Pool.isEnabled. rewrite draw_pool_enabled. exact Hen.
Qed.

(** X17. A second [draw] with no call in between replays nothing: it
    emits no bind, no release and no [drawObject] for any pool. *)
Theorem second_draw_replays_nothing (d : DrawPool.DrawPool) (e : DrawPool.event) :
  let again := DrawPool.draw (DrawPool.after (DrawPool.draw d)) in
  In e (DrawPool.preDrawEvents again ++ DrawPool.drawEvents again) ->
  forall i, e <> DrawPool.EvBind i /\ e <> DrawPool.EvRelease i
            /\ forall obj, e <> DrawPool.EvDrawObject i obj.
Proof.
  intros again He. apply in_app_iff in He as [He | He].
  - unfold again in He. rewrite draw_preDrawEvents in He.
    apply forPools_events in He as (j & q & Hq & He).
    rewrite preDraw_pool_empty in He; [destruct He |].
    destruct (drawn_pool d j q Hq); auto.
  - unfold again in He. rewrite draw_drawEvents in He.
    apply forPools_events in He as (j & q1 & Hq1 & He).
    rewrite forPools_lookup in Hq1.
    destruct (DrawPool.m_pools (DrawPool.after (DrawPool.draw d)) !! j) as [q |] eqn:Hq;
      [| discriminate].
    simpl in Hq1. injection Hq1 as <-.
    destruct (preDraw_pool_keeps j q) as (Hobj1 & Hen1 & _).
    apply drawPhase_pool_events
      in He as (Hen & [-> | [-> | [(a & ->) | [(dest & src & ->) | (o & -> & _ & Ho)]]]]);
      try (intros i; repeat split; try intros ?; discriminate).
    unfold Pool.isEnabled in Hen. rewrite Hen1 in Hen. rewrite Hobj1 in Ho.
    destruct (drawn_pool d j q Hq) as [Hnil | Hdis].
    + rewrite Hnil in Ho. destruct Ho.
    + unfold Pool.isEnabled in Hdis. congruence.
Qed.

(** ** use *)

(** X18. [use(pool)] makes [pool] the current pool, or the pool
    [n_unknowPool] when [pool] is null, and touches no other pool; it
    fails, on a null pool, exactly when there is no such pool. *)
Theorem use_selects_the_pool_or_the_unknown_pool (pool : option nat)
    (d : DrawPool.DrawPool) :
  let target := match pool with Some i => i | None => DrawPool.n_unknowPool d end in
  (forall d',
      DrawPool.use pool d = Ok d' ->
      DrawPool.m_currentPool d' = target
      /\ DrawPool.n_unknowPool d' = DrawPool.n_unknowPool d
      /\ length (DrawPool.m_pools d') = length (DrawPool.m_pools d)
      /\ (forall i, i <> target -> DrawPool.m_pools d' !! i = DrawPool.m_pools d !! i)
      /\ exists p, DrawPool.m_pools d !! target = Some p
                   /\ DrawPool.currentPool d' = Ok (DrawPool.use_pool p))
  /\ (forall e, DrawPool.use pool d = Err e ->
                e = NullPool /\ DrawPool.m_pools d !! target = None)
  /\ (is_Some (DrawPool.m_pools d !! target) -> exists d', DrawPool.use pool d = Ok d').
Proof.
  intros target. unfold DrawPool.use. fold target.
  set (d0 := DrawPool.mkDrawPool (DrawPool.m_pools d) target (DrawPool.n_unknowPool d)).
  split; [| split].
  - intros d' Hrun.
    apply withCurrentPool_inv in Hrun as (p & p' & Hp & [= <-] & ->).
    apply currentPool_Ok in Hp. simpl in Hp.
    split; [reflexivity |]. split; [reflexivity |].
    split; [simpl; apply length_insert |].
    split.
    + intros i Hi. simpl. apply list_lookup_insert_ne. congruence.
    + exists p. split; [exact Hp |].
      apply (currentPool_setCurrentPool d0 p). apply currentPool_Ok. exact Hp.
  - intros e Hrun.
    destruct (DrawPool.m_pools d !! target) as [p |] eqn:Hp.
    + assert (Hcur : DrawPool.currentPool d0 = Ok p) by (apply currentPool_Ok; exact Hp).
      rewrite (withCurrentPool_Ok (fun p => Ok (DrawPool.use_pool p)) d0 p _ Hcur eq_refl) in Hrun. discriminate.
    + split; [| reflexivity].
      apply withCurrentPool_Err_inv in Hrun as [-> | (p & _ & Hf)];
        [reflexivity | discriminate].
  - intros [p Hp].
    assert (Hcur : DrawPool.currentPool d0 = Ok p) by (apply currentPool_Ok; exact Hp).
    eexists. apply (withCurrentPool_Ok (fun p => Ok (DrawPool.use_pool p)) d0 p _ Hcur eq_refl).
Qed.

(** ** The framed use *)

Lemma updateHash_pool_framedAt (dest src : Rect) (state : Painter.PainterState)
    (method : Pool.DrawMethod) (l : list Pool.DrawObject) (p : Pool.Pool) :
  DrawPool.framedAt dest src p ->
  DrawPool.framedAt dest src (Pool.set_objects l (DrawPool.updateHash_pool state method p)).
Proof.
  intros (Halpha & pf & Hpf & Hd & Hs).
  rewrite (updateHash_pool_framed _ _ _ _ Hpf). split; [exact Halpha |].
  eexists. split; [reflexivity |]. unfold DrawPool.autoUpdated.
  destruct (Painter.shaderProgram state); simpl; auto.
Qed.

Lemma runCalls_pool_framedAt (dest src : Rect) (cs : list DrawPool.call) :
  forall p p', DrawPool.framedAt dest src p -> DrawPool.runCalls_pool cs p = Ok p' ->
               DrawPool.framedAt dest src p'.
Proof.
  induction cs as [| c cs IH]; intros p p' Hp; simpl.
  - intros [= <-]. exact Hp.
  - destruct (DrawPool.runCall_pool c p) as [p1 |] eqn:Hp1; simpl; [| discriminate].
    apply IH.
    destruct c as [state method drawMode | state method drawMode | action]; simpl in Hp1.
    + apply add_pool_inv in Hp1 as (l & ->). apply updateHash_pool_framedAt. exact Hp.
    + apply addRepeated_pool_inv in Hp1 as (l & ->). apply updateHash_pool_framedAt.
      exact Hp.
    + injection Hp1 as <-. exact Hp.
Qed.

Lemma runCalls_m_currentPool (cs : list DrawPool.call) :
  forall d d', DrawPool.runCalls cs d = Ok d' ->
               DrawPool.m_currentPool d' = DrawPool.m_currentPool d.
Proof.
  induction cs as [| c cs IH]; intros d d'; simpl.
  - intros [= <-]. reflexivity.
  - destruct (DrawPool.runCall c d) as [d1 |] eqn:Hd1; simpl; [| discriminate].
    intros Hrun. rewrite (IH _ _ Hrun). rewrite runCall_lift in Hd1.
    apply withCurrentPool_inv in Hd1 as (p & p' & _ & _ & ->). reflexivity.
Qed.

(** X19. The framed [use] fixes where the pool's framebuffer is
    composited and turns alpha writing off: after
    [use(pool, dest, src)] and any calls of [add], [addRepeated] and
    [addAction], the pool is the current one, every state that
    [generateState] makes has alpha writing off (and the painter's color
    and texture), and [draw], when the pool is enabled, composites the
    framebuffer at [dest] and [src]. *)
Theorem framed_use_fixes_the_composition (pool : nat) (dest src : Rect)
    (cs : list DrawPool.call) (cur : Painter.PainterState) (d d1 d2 : DrawPool.DrawPool) :
  DrawPool.useFramed pool dest src d = Ok d1 ->
  DrawPool.runCalls cs d1 = Ok d2 ->
  exists p2 pf2,
    DrawPool.m_pools d2 !! pool = Some p2
    /\ DrawPool.currentPool d2 = Ok p2
    /\ Pool.framed p2 = Some pf2
    /\ Pool.m_dest pf2 = dest /\ Pool.m_src pf2 = src
    /\ (exists s, DrawPool.generateState cur d2 = Ok s
                  /\ Painter.alphaWriting s = false
                  /\ Painter.color s = Painter.color cur
                  /\ Painter.texture s = Painter.texture cur)
    /\ (Pool.isEnabled p2 = true ->
        In (DrawPool.EvFramebufferDraw pool dest src)
           (DrawPool.drawEvents (DrawPool.draw d2))).
Proof.
  intros Huse Hrun. unfold DrawPool.useFramed in Huse.
  destruct (DrawPool.use (Some pool) d) as [d0 |] eqn:Hd0;
    cbn [mbind result_bind] in Huse; [| discriminate].
  apply use_Some in Hd0 as (p0 & _ & _ & Hcur0).
  destruct (DrawPool.m_pools d0 !! pool) as [p |] eqn:Hp; [| discriminate].
  destruct (Pool.framed p) as [pf |] eqn:Hpf; [| discriminate].
  injection Huse as <-.
  set (p1 := DrawPool.useFramed_pool dest src pf p) in *.
  set (d1 := DrawPool.set_pools (<[pool:=p1]> (DrawPool.m_pools d0)) d0) in *.
  assert (Hcur1 : DrawPool.currentPool d1 = Ok p1).
  { apply currentPool_Ok. simpl. rewrite Hcur0.
    apply list_lookup_insert_eq. eapply lookup_lt_Some. exact Hp. }
  assert (Hat1 : DrawPool.framedAt dest src p1).
  { split; [reflexivity |]. eexists. split; [reflexivity |]. split; reflexivity. }
  destruct (runCalls_current cs d1 d2 p1 Hcur1 Hrun) as (p2 & Hp2 & Hlook).
  pose proof (runCalls_m_currentPool cs d1 d2 Hrun) as Hcur2.
  change (DrawPool.m_currentPool d1) with (DrawPool.m_currentPool d0) in Hlook, Hcur2.
  rewrite Hcur0 in Hlook, Hcur2.
  destruct (runCalls_pool_framedAt dest src cs p1 p2 Hat1 Hp2)
    as (Halpha & pf2 & Hpf2 & Hd & Hs).
  assert (Hc2 : DrawPool.currentPool d2 = Ok p2)
    by (apply currentPool_Ok; rewrite Hcur2; exact Hlook).
  exists p2, pf2. repeat (split; [assumption |]). split.
  - unfold DrawPool.generateState. rewrite Hc2. cbn [mbind mret result_bind result_ret].
    eexists. split; [reflexivity |]. simpl. auto.
  - intros Hen. rewrite draw_drawEvents. apply forPools_events.
    exists pool, (fst (DrawPool.preDraw_pool pool p2)). split.
    + rewrite forPools_lookup, Hlook. reflexivity.
    + destruct (preDraw_pool_keeps pool p2) as (_ & Hen1 & _).
      destruct (preDraw_pool_framed pool p2)
        as [[Hnone _] | (pf0 & pf' & Hpf0 & Hpf' & Hd' & Hs' & _)]; [congruence |].
      assert (pf0 = pf2) as -> by congruence.
      rewrite (drawPhase_pool_framed_events _ _ pf');
        [| unfold Pool.isEnabled; rewrite Hen1; exact Hen | exact Hpf'].
      rewrite Hd', Hs', Hd, Hs. rewrite !in_app_iff. right. right. left. left. reflexivity.
Qed.

(** ** Filled rects and the painter's texture *)

(** X20. A filled rect is batched under the texture the painter has at
    the time of the call: [addFilledRect] sets the color of the state
    that [generateState] copies from the painter and leaves its texture,
    so the object it makes in an empty pool carries the painter's
    texture, and a second filled rect of the same color, added while the
    painter has another texture, is not merged with it. *)
Theorem filled_rect_carries_the_painters_texture (dest1 src1 dest2 src2 : Rect)
    (color : Color) (cur1 cur2 : Painter.PainterState) (d : DrawPool.DrawPool)
    (p : Pool.Pool) :
  DrawPool.currentPool d = Ok p ->
  Pool.m_objects p = [] ->
  rect_isEmpty dest1 = false ->
  rect_isEmpty dest2 = false ->
  exists p1 o1,
    DrawPool.addFilledRect dest1 src1 color cur1 d = Ok (DrawPool.setCurrentPool p1 d)
    /\ Pool.m_objects p1 = [o1]
    /\ Painter.texture (Pool.state o1) = Painter.texture cur1
    /\ Painter.color (Pool.state o1) = color
    /\ (texture_eqb (Painter.texture cur1) (Painter.texture cur2) = false ->
        exists p2 o2,
          DrawPool.addFilledRect dest2 src2 color cur2 (DrawPool.setCurrentPool p1 d)
          = Ok (DrawPool.setCurrentPool p2 d)
          /\ Pool.m_objects p2 = [o1; o2]
          /\ Painter.texture (Pool.state o2) = Painter.texture cur2
          /\ Painter.color (Pool.state o2) = color).
Proof.
  intros Hp Hnil Hd1 Hd2.
  unfold DrawPool.addFilledRect. rewrite Hd1, Hd2.
  unfold DrawPool.generateState. rewrite Hp. cbn [mbind mret result_bind result_ret].
  match goal with
  | |- context [DrawPool.add ?s ?m ?dm d] =>
    set (s1 := s); set (m1 := m);
    pose proof (add_pool_empty s1 m1 dm p Hnil) as Hadd1
  end.
  rewrite (add_Ok _ _ _ _ _ _ Hp Hadd1).
  eexists. exists (DrawPool.newObject s1 defaultDrawMode m1).
  split; [reflexivity |]. split; [reflexivity |]. split; [reflexivity |].
  split; [reflexivity |].
  intros Htex.
  match goal with
  | |- context [DrawPool.setCurrentPool ?q d] => set (p1 := q)
  end.
  rewrite (currentPool_setCurrentPool d p p1 Hp). cbn [mbind mret result_bind result_ret].
  match goal with
  | |- context [DrawPool.add ?s ?m ?dm (DrawPool.setCurrentPool p1 d)] =>
    set (s2 := s); set (m2 := m)
  end.
  assert (Hobj1 : Pool.m_objects p1 = [] ++ [DrawPool.newObject s1 defaultDrawMode m1])
    by reflexivity.
  pose proof (add_pool_snoc s2 m2 defaultDrawMode p1 [] _ Hobj1) as Hadd2.
  change (point_isNull (Pool.dest m2)) with true in Hadd2.
  cbn [negb mbind mret result_bind result_ret] in Hadd2.
  unfold DrawPool.trailing in Hadd2.
  assert (Hdiff : Painter.state_eqb (Pool.state (DrawPool.newObject s1 defaultDrawMode m1)) s2
                  = false).
  { unfold Painter.state_eqb. change (Painter.texture (Pool.state _)) with (Painter.texture cur1).
    change (Painter.texture s2) with (Painter.texture cur2). rewrite Htex. reflexivity. }
  rewrite Hdiff in Hadd2.
  rewrite (add_Ok _ _ _ _ _ _ (currentPool_setCurrentPool d p p1 Hp) Hadd2).
  rewrite setCurrentPool_twice.
  eexists. exists (DrawPool.newObject s2 defaultDrawMode m2).
  split; [reflexivity |]. split; [reflexivity |]. split; reflexivity.
Qed.

(** ** Failures *)

Lemma hides_errors (state prevState : Painter.PainterState) (sameState : bool)
    (method m : Pool.DrawMethod) (e : error) :
  DrawPool.hides state prevState sameState method m = Err e -> e = NullTextureScan.
Proof.
  unfold DrawPool.hides.
  destruct (point_eqb _ _); [| discriminate].
  destruct (sameState && _); [discriminate |].
  destruct (Painter.texture state) as [t |]; simpl; [| intros [= <-]; reflexivity].
  destruct (isOpaque t); [| discriminate].
  destruct (Painter.texture prevState); simpl; [discriminate | intros [= <-]; reflexivity].
Qed.

Lemma eraseHidden_errors (state prevState : Painter.PainterState) (sameState : bool)
    (method : Pool.DrawMethod) (ms : list Pool.DrawMethod) (e : error) :
  DrawPool.eraseHidden state prevState sameState method ms = Err e -> e = NullTextureScan.
Proof.
  induction ms as [| m ms IH]; simpl; [discriminate |].
  destruct (DrawPool.hides state prevState sameState method m) as [[|] | e0] eqn:Hh; simpl.
  - discriminate.
  - destruct (DrawPool.eraseHidden state prevState sameState method ms); simpl;
      [discriminate | intros [= <-]; apply IH; reflexivity].
  - intros [= <-]. eapply hides_errors. exact Hh.
Qed.

Lemma add_pool_errors (state : Painter.PainterState) (method : Pool.DrawMethod)
    (drawMode : Painter.DrawMode) (p : Pool.Pool) (e : error) :
  DrawPool.add_pool state method drawMode p = Err e ->
  e = NullTextureScan /\ point_isNull (Pool.dest method) = false /\ Pool.m_objects p <> [].
Proof.
  intros Hrun.
  destruct (list_snoc_cases (Pool.m_objects p)) as [Hnil | (front & prevObj & Hobj)].
  - rewrite (add_pool_empty _ _ _ _ Hnil) in Hrun. discriminate.
  - rewrite (add_pool_snoc _ _ _ _ _ _ Hobj) in Hrun.
    destruct (point_isNull (Pool.dest method)); cbn [negb] in Hrun; [discriminate |].
    destruct (DrawPool.eraseHidden _ _ _ _ _) as [ms | e0] eqn:Hscan;
      cbn [mbind mret result_bind result_ret] in Hrun; [discriminate |].
    injection Hrun as <-. split; [eapply eraseHidden_errors; exact Hscan |].
    split; [reflexivity |]. rewrite Hobj. intros H. apply app_eq_nil in H as [_ H].
    discriminate.
Qed.

Lemma add_pool_total (state : Painter.PainterState) (method : Pool.DrawMethod)
    (drawMode : Painter.DrawMode) (p : Pool.Pool) :
  point_isNull (Pool.dest method) = true \/ Pool.m_objects p = [] ->
  exists p', DrawPool.add_pool state method drawMode p = Ok p'.
Proof.
  intros H.
  destruct (DrawPool.add_pool state method drawMode p) as [p' | e] eqn:Hrun; [eauto |].
  apply add_pool_errors in Hrun as (_ & Hd & Hne). destruct H; congruence.
Qed.

(** X21. [add] and [addRepeated] fail only where the C++ is undefined:
    without a current pool; for [add], when the removal scan dereferences
    a null texture, which needs a method with a non-null destination and
    a pool that is not empty; for [addRepeated], when the search would
    start beyond the end of the object list.  So [add] returns for every
    method with a null destination and on every empty pool, and
    [addRepeated] returns whenever the search start lies within the
    list. *)
Theorem add_and_addRepeated_fail_only_where_undefined (state : Painter.PainterState)
    (method : Pool.DrawMethod) (drawMode : Painter.DrawMode) (d : DrawPool.DrawPool) :
  (forall e,
      DrawPool.add state method drawMode d = Err e ->
      (e = NullPool /\ DrawPool.m_pools d !! DrawPool.m_currentPool d = None)
      \/ (e = NullTextureScan /\ point_isNull (Pool.dest method) = false
          /\ exists p, DrawPool.currentPool d = Ok p /\ Pool.m_objects p <> []))
  /\ (forall p,
        DrawPool.currentPool d = Ok p ->
        point_isNull (Pool.dest method) = true \/ Pool.m_objects p = [] ->
        exists d', DrawPool.add state method drawMode d = Ok d')
  /\ (forall e,
        DrawPool.addRepeated state method drawMode d = Err e ->
        (e = NullPool /\ DrawPool.m_pools d !! DrawPool.m_currentPool d = None)
        \/ (e = BadIterator
            /\ exists p, DrawPool.currentPool d = Ok p
                         /\ (length (Pool.m_objects p)
                             < Z.to_nat (DrawPool.startIndex p))%nat))
  /\ (forall p,
        DrawPool.currentPool d = Ok p ->
        (Z.to_nat (DrawPool.startIndex p) <= length (Pool.m_objects p))%nat ->
        exists d', DrawPool.addRepeated state method drawMode d = Ok d').
Proof.
  assert (Hnull : forall (f : Pool.Pool -> result Pool.Pool) e,
             DrawPool.withCurrentPool f d = Err e ->
             (e = NullPool /\ DrawPool.m_pools d !! DrawPool.m_currentPool d = None)
             \/ exists p, DrawPool.currentPool d = Ok p /\ f p = Err e).
  { intros f e Hrun. unfold DrawPool.withCurrentPool, DrawPool.currentPool in *.
    destruct (DrawPool.m_pools d !! DrawPool.m_currentPool d) as [p |];
      cbn [mbind mret result_bind result_ret] in Hrun.
    - right. exists p. split; [reflexivity |].
      destruct (f p); cbn [mbind mret result_bind result_ret] in Hrun;
        [discriminate | congruence].
    - injection Hrun as <-. left. auto. }
  split; [| split; [| split]].
  - intros e Hrun. apply Hnull in Hrun as [Hrun | (p & Hp & Hrun)]; [left; exact Hrun |].
    right. apply add_pool_errors in Hrun as (-> & Hd & Hne). eauto 6.
  - intros p Hp H. destruct (add_pool_total state method drawMode p H) as (p' & Hp').
    eexists. apply (add_Ok _ _ _ _ _ _ Hp Hp').
  - intros e Hrun. apply Hnull in Hrun as [Hrun | (p & Hp & Hrun)]; [left; exact Hrun |].
    right. pose proof (addRepeated_pool_errors _ _ _ _ _ Hrun) as ->.
    split; [reflexivity |]. exists p. split; [exact Hp |].
    destruct (decide (Z.to_nat (DrawPool.startIndex p) <= length (Pool.m_objects p))%nat)
      as [Hle | Hgt]; [| lia].
    destruct (addRepeated_pool_total state method drawMode p Hle) as (p1 & Hp1). congruence.
  - intros p Hp Hle.
    destruct (addRepeated_pool_total state method drawMode p Hle) as (p1 & Hp1).
    eexists. apply (addRepeated_Ok _ _ _ _ _ _ Hp Hp1).
Qed.

(** ** The overloads without src *)

(** X22. The overloads of [addTexturedRect] and
    [addRepeatedTexturedRect] without [src] read the size of the texture
    before any test: on a null texture they fail, even for an empty
    [dest], on which the overloads with [src] return at once whatever
    the texture; and on a texture whose width or height is not positive
    they change nothing. *)
Theorem overloads_without_src_read_the_texture_first (dest : Rect) (color : Color)
    (cur : Painter.PainterState) (d : DrawPool.DrawPool) :
  DrawPool.addTexturedRect3 dest None color cur d = Err NullTextureSize
  /\ DrawPool.addRepeatedTexturedRect3 dest None color cur d = Err NullTextureSize
  /\ (rect_isEmpty dest = true ->
      forall src originalDest,
        DrawPool.addTexturedRect dest None src color originalDest cur d = Ok d
        /\ DrawPool.addRepeatedTexturedRect dest None src color cur d = Ok d)
  /\ (forall t,
        width (getSize t) <= 0 \/ height (getSize t) <= 0 ->
        DrawPool.addTexturedRect3 dest (Some t) color cur d = Ok d
        /\ DrawPool.addRepeatedTexturedRect3 dest (Some t) color cur d = Ok d).
Proof.
  split; [reflexivity |]. split; [reflexivity |]. split.
  - intros Hempty src originalDest.
    unfold DrawPool.addTexturedRect, DrawPool.addRepeatedTexturedRect.
    rewrite Hempty. split; reflexivity.
  - intros t Hsize.
    assert (Hsrc : rect_isEmpty (Rect_of Point_null (getSize t)) = true).
    { unfold rect_isEmpty, Rect_of. simpl. apply orb_true_iff.
      destruct Hsize; [left | right]; apply Z.gtb_lt; lia. }
    unfold DrawPool.addTexturedRect3, DrawPool.addRepeatedTexturedRect3,
      DrawPool.addTexturedRect, DrawPool.addRepeatedTexturedRect.
    cbn [DrawPool.deref mbind mret result_bind result_ret].
    rewrite Hsrc, orb_true_r. split; reflexivity.
Qed.

(** ** From the entry points to the painter *)

(** One call on an empty pool without framebuffer, then [draw]. *)
Lemma painted_single (d : DrawPool.DrawPool) (p p' : Pool.Pool) (obj : Pool.DrawObject) :
  DrawPool.currentPool d = Ok p ->
  Pool.m_enabled p' = true -> Pool.framed p' = None -> Pool.m_objects p' = [obj] ->
  DrawPool.painted (DrawPool.setCurrentPool p' d) = snd (DrawPool.drawObject obj []).
Proof.
  intros Hp Hen Hnone Hobj. unfold DrawPool.painted.
  assert (Hp' : DrawPool.m_pools (DrawPool.setCurrentPool p' d)
                  !! DrawPool.m_currentPool (DrawPool.setCurrentPool p' d) = Some p').
  { apply currentPool_Ok. apply (currentPool_setCurrentPool _ _ _ Hp). }
  rewrite (drawEvents_unframed _ _ p' Hp' Hen Hnone), Hobj.
  cbn [fmap list_fmap DrawPool.drawObjects].
  destruct (DrawPool.drawObject obj []) as [buffer calls]. cbn [snd]. apply app_nil_r.
Qed.

Lemma add_then_draw (state : Painter.PainterState) (method : Pool.DrawMethod)
    (drawMode : Painter.DrawMode) (d : DrawPool.DrawPool) (p : Pool.Pool) :
  DrawPool.currentPool d = Ok p ->
  Pool.m_objects p = [] -> Pool.framed p = None -> Pool.isEnabled p = true ->
  exists d',
    DrawPool.add state method drawMode d = Ok d'
    /\ DrawPool.painted d'
       = snd (DrawPool.drawObject (DrawPool.newObject state drawMode method) []).
Proof.
  intros Hp Hnil Hnone Hen.
  pose proof (add_pool_empty state method drawMode p Hnil) as Hadd.
  rewrite (updateHash_pool_unframed _ _ _ Hnone) in Hadd.
  eexists. split; [apply (add_Ok _ _ _ _ _ _ Hp Hadd) |].
  apply (painted_single d p); auto.
Qed.

Lemma addRepeated_then_draw (state : Painter.PainterState) (method : Pool.DrawMethod)
    (drawMode : Painter.DrawMode) (d : DrawPool.DrawPool) (p : Pool.Pool) :
  DrawPool.currentPool d = Ok p ->
  Pool.m_objects p = [] -> Pool.framed p = None -> Pool.isEnabled p = true ->
  Pool.m_indexToStartSearching p = 0 ->
  exists d',
    DrawPool.addRepeated state method drawMode d = Ok d'
    /\ DrawPool.painted d'
       = snd (DrawPool.drawObject (DrawPool.newObject state drawMode method) []).
Proof.
  intros Hp Hnil Hnone Hen Hidx.
  assert (Hstart : Z.to_nat (DrawPool.startIndex p) = 0%nat)
    by (unfold DrawPool.startIndex; rewrite Hidx; reflexivity).
  assert (Hadd : DrawPool.addRepeated_pool state method drawMode p
                 = Ok (Pool.set_objects [DrawPool.newObject state drawMode method] p)).
  { rewrite addRepeated_pool_notfound.
    - rewrite (updateHash_pool_unframed _ _ _ Hnone), Hnil. reflexivity.
    - rewrite Hstart. lia.
    - intros j o _ Ho. rewrite Hnil in Ho. destruct j; discriminate. }
  eexists. split; [apply (addRepeated_Ok _ _ _ _ _ _ Hp Hadd) |].
  apply (painted_single d p); auto.
Qed.

(** X23. From the entry points to the painter: on an empty, enabled
    current pool without framebuffer, each entry point with an input
    that is not degenerate, followed by [draw], makes [drawObject]
    execute the state that [generateState] gives, with the color (and
    the texture) of the call, bind its texture if it has one, and draw
    exactly one entry: a quad for [addTexturedRect], an upside-down quad
    for [addUpsideDownTexturedRect], a rect or a quad, by the default
    draw mode, for [addRepeatedTexturedRect], repeated rects for
    [addRepeatedTexturedRepeatedRect], the rect [dest] for the two filled
    rects, the triangle for [addFilledTriangle], and the bounding rect
    with its line width for [addBoundingRect]. *)
Theorem entry_points_reach_the_painter (cur : Painter.PainterState)
    (d : DrawPool.DrawPool) (p : Pool.Pool) (s : Painter.PainterState) :
  DrawPool.currentPool d = Ok p ->
  Pool.m_objects p = [] -> Pool.framed p = None -> Pool.isEnabled p = true ->
  Pool.m_indexToStartSearching p = 0 ->
  DrawPool.generateState cur d = Ok s ->
  (forall dest texture src color originalDest,
      rect_isEmpty dest = false -> rect_isEmpty src = false ->
      let state := Painter.set_texture texture (Painter.set_color color s) in
      (exists d',
          DrawPool.addTexturedRect dest texture src color originalDest cur d = Ok d'
          /\ DrawPool.painted d'
             = DrawPool.singleDraw state (DrawPool.addQuad dest src) Painter.TriangleStrip)
      /\ (exists d',
             DrawPool.addUpsideDownTexturedRect dest texture src color cur d = Ok d'
             /\ DrawPool.painted d'
                = DrawPool.singleDraw state (DrawPool.addUpsideDownQuad dest src)
                                      Painter.TriangleStrip)
      /\ (exists d',
             DrawPool.addRepeatedTexturedRect dest texture src color cur d = Ok d'
             /\ DrawPool.painted d'
                = DrawPool.singleDraw state
                    (if DrawPool.isTriangles defaultDrawMode
                     then DrawPool.addRect dest src else DrawPool.addQuad dest src)
                    defaultDrawMode)
      /\ (exists d',
             DrawPool.addRepeatedTexturedRepeatedRect dest texture src color cur d = Ok d'
             /\ DrawPool.painted d'
                = DrawPool.singleDraw state (DrawPool.addRepeatedRects dest src)
                                      defaultDrawMode))
  /\ (forall dest src color,
        rect_isEmpty dest = false ->
        (exists d',
            DrawPool.addFilledRect dest src color cur d = Ok d'
            /\ DrawPool.painted d'
               = DrawPool.singleDraw (Painter.set_color color s) (DrawPool.addRect1 dest)
                                     defaultDrawMode)
        /\ (exists d',
               DrawPool.addRepeatedFilledRect dest src color cur d = Ok d'
               /\ DrawPool.painted d'
                  = DrawPool.singleDraw (Painter.set_color color s)
                                        (DrawPool.addRect1 dest) defaultDrawMode))
  /\ (forall a b c color,
        a <> b -> a <> c -> b <> c ->
        exists d',
          DrawPool.addFilledTriangle a b c color cur d = Ok d'
          /\ DrawPool.painted d'
             = DrawPool.singleDraw (Painter.set_color color s) (DrawPool.addTriangle a b c)
                                   defaultDrawMode)
  /\ (forall dest color innerLineWidth,
        rect_isEmpty dest = false -> innerLineWidth <> 0 ->
        exists d',
          DrawPool.addBoundingRect dest color innerLineWidth cur d = Ok d'
          /\ DrawPool.painted d'
             = DrawPool.singleDraw (Painter.set_color color s)
                                   (DrawPool.addBoudingRect dest innerLineWidth)
                                   defaultDrawMode).
Proof.
  intros Hp Hnil Hnone Hen Hidx Hgen.
  pose proof (fun state method drawMode =>
                add_then_draw state method drawMode d p Hp Hnil Hnone Hen) as Hadd.
  pose proof (fun state method drawMode =>
                addRepeated_then_draw state method drawMode d p Hp Hnil Hnone Hen Hidx)
    as Hrep.
  split; [| split; [| split]].
  - intros dest texture src color originalDest Hdest Hsrc state.
    unfold DrawPool.addTexturedRect, DrawPool.addUpsideDownTexturedRect,
      DrawPool.addRepeatedTexturedRect, DrawPool.addRepeatedTexturedRepeatedRect.
    rewrite Hdest, Hsrc, Hgen. cbn [orb mbind mret result_bind result_ret].
    repeat split.
    + destruct (Hadd state
                  (Pool.set_dest originalDest
                     (Pool.set_rects (dest, src)
                        (Pool.DrawMethod_init Pool.DRAW_TEXTURED_RECT)))
                  Painter.TriangleStrip) as (d' & Hrun & Hpaint).
      exists d'. split; [exact Hrun | rewrite Hpaint; reflexivity].
    + destruct (Hadd state
                  (Pool.set_rects (dest, src)
                     (Pool.DrawMethod_init Pool.DRAW_UPSIDEDOWN_TEXTURED_RECT))
                  Painter.TriangleStrip) as (d' & Hrun & Hpaint).
      exists d'. split; [exact Hrun | rewrite Hpaint; reflexivity].
    + destruct (Hrep state
                  (Pool.set_rects (dest, src)
                     (Pool.DrawMethod_init Pool.DRAW_REPEATED_TEXTURED_RECT))
                  defaultDrawMode) as (d' & Hrun & Hpaint).
      exists d'. split; [exact Hrun |]. rewrite Hpaint.
      unfold DrawPool.drawObject, DrawPool.singleDraw, DrawPool.addCoords. simpl.
      destruct (DrawPool.isTriangles defaultDrawMode); reflexivity.
    + destruct (Hrep state
                  (Pool.set_rects (dest, src)
                     (Pool.DrawMethod_init Pool.DRAW_REPEATED_TEXTURED_REPEATED_RECT))
                  defaultDrawMode) as (d' & Hrun & Hpaint).
      exists d'. split; [exact Hrun | rewrite Hpaint; reflexivity].
  - intros dest src color Hdest.
    unfold DrawPool.addFilledRect, DrawPool.addRepeatedFilledRect.
    rewrite Hdest, Hgen. cbn [mbind mret result_bind result_ret].
    split.
    + destruct (Hadd (Painter.set_color color s)
                  (Pool.set_rects (dest, src) (Pool.DrawMethod_init Pool.DRAW_FILLED_RECT))
                  defaultDrawMode) as (d' & Hrun & Hpaint).
      exists d'. split; [exact Hrun | rewrite Hpaint; reflexivity].
    + destruct (Hrep (Painter.set_color color s)
                  (Pool.set_rects (dest, src)
                     (Pool.DrawMethod_init Pool.DRAW_REPEATED_FILLED_RECT))
                  defaultDrawMode) as (d' & Hrun & Hpaint).
      exists d'. split; [exact Hrun | rewrite Hpaint; reflexivity].
  - intros a b c color Hab Hac Hbc. unfold DrawPool.addFilledTriangle.
    rewrite (point_eqb_neq _ _ Hab), (point_eqb_neq _ _ Hac), (point_eqb_neq _ _ Hbc), Hgen.
    cbn [orb mbind mret result_bind result_ret].
    destruct (Hadd (Painter.set_color color s)
                (Pool.set_points (a, b, c)
                   (Pool.DrawMethod_init Pool.DRAW_FILLED_TRIANGLE))
                defaultDrawMode) as (d' & Hrun & Hpaint).
    exists d'. split; [exact Hrun | rewrite Hpaint; reflexivity].
  - intros dest color innerLineWidth Hdest Hw. unfold DrawPool.addBoundingRect.
    rewrite Hdest, (proj2 (Z.eqb_neq _ _) Hw), Hgen.
    cbn [orb mbind mret result_bind result_ret].
    destruct (Hadd (Painter.set_color color s)
                (Pool.set_intValue innerLineWidth
                   (Pool.set_rects (dest, Rect_null)
                      (Pool.DrawMethod_init Pool.DRAW_BOUNDING_RECT)))
                defaultDrawMode) as (d' & Hrun & Hpaint).
    exists d'. split; [exact Hrun | rewrite Hpaint; reflexivity].
Qed.

(** ** addRepeated after add *)

(** X24. [addRepeated] does not touch the draw mode of the object it
    appends to: after [add] of a textured rect with the draw mode
    [TriangleStrip] on an empty pool and [addRepeated] of a repeated
    textured rect under the same state, the pool holds one object with
    both methods and still the draw mode [TriangleStrip], for which
    [drawObject] puts two quads into the buffer. *)
Theorem addRepeated_keeps_the_draw_mode (state : Painter.PainterState)
    (m1 m2 : Pool.DrawMethod) (drawMode : Painter.DrawMode) (p : Pool.Pool) :
  Painter.state_eqb state state = true ->
  Pool.m_objects p = [] ->
  Pool.m_indexToStartSearching p = 0 ->
  Pool.type m1 = Pool.DRAW_TEXTURED_RECT ->
  Pool.type m2 = Pool.DRAW_REPEATED_TEXTURED_RECT ->
  let obj := Pool.mkDrawObject state Painter.TriangleStrip [m1; m2] None in
  exists p',
    DrawPool.runCalls_pool
      [DrawPool.CallAdd state m1 Painter.TriangleStrip;
       DrawPool.CallAddRepeated state m2 drawMode] p = Ok p'
    /\ Pool.m_objects p' = [obj]
    /\ DrawPool.coordsOf obj
       = [DrawPool.addQuad (fst (Pool.rects m1)) (snd (Pool.rects m1));
          DrawPool.addQuad (fst (Pool.rects m2)) (snd (Pool.rects m2))].
Proof.
  intros Hself Hnil Hidx Ht1 Ht2 obj.
  cbn [DrawPool.runCalls_pool DrawPool.runCall_pool].
  rewrite (add_pool_empty _ _ _ _ Hnil). cbn [mbind mret result_bind result_ret].
  set (p1 := Pool.set_objects [DrawPool.newObject state Painter.TriangleStrip m1]
                              (DrawPool.updateHash_pool state m1 p)).
  assert (Hidx1 : Pool.m_indexToStartSearching p1 = 0).
  { destruct (updateHash_pool_keeps state m1 p) as (_ & _ & _ & H). simpl. congruence. }
  assert (Hstart : Z.to_nat (DrawPool.startIndex p1) = 0%nat)
    by (unfold DrawPool.startIndex; rewrite Hidx1; reflexivity).
  rewrite (addRepeated_pool_found state m2 drawMode p1 0%nat
             (DrawPool.newObject state Painter.TriangleStrip m1)).
  - eexists. split; [reflexivity |]. split; [reflexivity |].
    unfold DrawPool.coordsOf, obj, DrawPool.addCoords. simpl. rewrite Ht1, Ht2. reflexivity.
  - rewrite Hstart. simpl. lia.
  - rewrite Hstart. split; [reflexivity |]. split; [lia |]. split; [exact Hself |].
    intros j o _ Hj. lia.
Qed.

End MoreDrawPoolProperties.

(** * The properties on concrete inputs *)

(** ** Tile *)

Lemma setCompletelyCoveredCache_spec_witness :
  exists t',
    Tile.setCompletelyCoveredCache 1 tile_example = Ok t'
    /\ Tile.m_currentFirstVisibleFloor t' = Tile.m_currentFirstVisibleFloor tile_example
    /\ Tile.entry t' (Z.to_nat (Tile.m_currentFirstVisibleFloor tile_example)) = Some 1
    /\ forall i, i <> Z.to_nat (Tile.m_currentFirstVisibleFloor tile_example) ->
                 Tile.entry t' i = Tile.entry tile_example i.
Proof.
  apply (proj1 (proj2 (setCompletelyCoveredCache_spec 1 tile_example))).
  - discriminate.
  - discriminate.
  - simpl. lia.
Defined.

(** ** Degenerate input *)

Lemma degenerate_input_is_noop_witness :
  DrawPool.addFilledTriangle (E := sampleExternals) (mkPoint 1 1) (mkPoint 1 1)
                             (mkPoint 4 5) Color_white sample_state
                             (plain_example [object_example])
  = Ok (plain_example [object_example]).
Proof.
  apply (proj1 (proj2 (proj2 (proj2 (proj2 (proj2 (proj2 (proj2
           (degenerate_input_is_noop (E := sampleExternals) sample_state
              (plain_example [object_example])))))))))).
  left. reflexivity.
Defined.

(** ** draw *)

(** C2 fails on a disabled pool: [draw] leaves its object in place. *)
Lemma draw_keeps_objects_of_disabled_pool :
  Pool.isEnabled disabledPool_example = false
  /\ Pool.m_objects <$> DrawPool.m_pools (DrawPool.after (DrawPool.draw disabled_example)) !! O
     = Some [object_example].
Proof. split; reflexivity. Qed.

Lemma draw_clears_enabled_pools_witness :
  exists p',
    DrawPool.m_pools (DrawPool.after (DrawPool.draw (plain_example [object_example]))) !! O
    = Some p'
    /\ (Pool.isEnabled (Pool.mkPool [object_example] sample_state true 0 None) = true ->
        Pool.m_objects p' = [])
    /\ (Pool.isEnabled (Pool.mkPool [object_example] sample_state true 0 None) = false ->
        p' = Pool.mkPool [object_example] sample_state true 0 None).
Proof.
  apply (draw_clears_enabled_pools (plain_example [object_example]) O).
  reflexivity.
Defined.

(** ** add *)

(** C3 fails when the texture underneath cannot be superimposed: the new
    texture is opaque and can be superimposed, the states differ, the
    destinations are equal, and yet [add] removes nothing; the pool goes
    from one method to two. *)
Lemma add_keeps_method_of_unsuperimposable_texture :
  isOpaque (texture_example 2 true true) = true
  /\ canSuperimposed (texture_example 2 true true) = true
  /\ Painter.state_eqb (Pool.state under_example) over_state = false
  /\ Forall (fun m => point_eqb (Pool.dest m) (Pool.dest over_method) = true)
            (Pool.drawMethods under_example)
  /\ DrawPool.add (E := sampleExternals) over_state over_method Painter.TriangleStrip
                  (plain_example [under_example])
     = Ok (plain_example
             [under_example;
              DrawPool.newObject over_state Painter.TriangleStrip over_method])
  /\ DrawPool.methodCount [under_example] = 1%nat
  /\ DrawPool.methodCount
       [under_example; DrawPool.newObject over_state Painter.TriangleStrip over_method]
     = 2%nat.
Proof.
  repeat split; try reflexivity.
  repeat constructor.
Qed.

Lemma add_removes_first_hidden_method_witness :
  exists before m rest p',
    Pool.drawMethods hidden_example = before ++ m :: rest
    /\ Forall (fun x => DrawPool.hidden (texture_example 2 true true)
                          (texture_example 1 true true)
                          (Painter.state_eqb (Pool.state hidden_example) over_state)
                          over_method x = false) before
    /\ DrawPool.hidden (texture_example 2 true true) (texture_example 1 true true)
         (Painter.state_eqb (Pool.state hidden_example) over_state) over_method m = true
    /\ DrawPool.add (E := sampleExternals) over_state over_method Painter.TriangleStrip
                    (plain_example [hidden_example])
       = Ok (DrawPool.setCurrentPool p' (plain_example [hidden_example]))
    /\ (Painter.state_eqb (Pool.state hidden_example) over_state = true ->
        Pool.m_objects p'
        = [] ++ [Pool.mkDrawObject (Pool.state hidden_example) Painter.Triangles
                   (before ++ rest ++ [over_method]) (Pool.action hidden_example)])
    /\ (Painter.state_eqb (Pool.state hidden_example) over_state = false ->
        Pool.m_objects p'
        = [] ++ [Pool.mkDrawObject (Pool.state hidden_example)
                   (Pool.drawMode hidden_example) (before ++ rest)
                   (Pool.action hidden_example);
                 DrawPool.newObject over_state Painter.TriangleStrip over_method])
    /\ DrawPool.methodCount (Pool.m_objects p')
       = DrawPool.methodCount [hidden_example].
Proof.
  apply (proj2 (add_removes_first_hidden_method (E := sampleExternals)
                  over_state over_method Painter.TriangleStrip
                  (plain_example [hidden_example])
                  (Pool.mkPool [hidden_example] sample_state true 0 None)
                  [] hidden_example eq_refl eq_refl)
               (texture_example 2 true true) (texture_example 1 true true)).
  - reflexivity.
  - reflexivity.
  - reflexivity.
  - exists (texturedRect_example (mkPoint 5 5) (mkRect 0 0 31 31)).
    split; [left; reflexivity | reflexivity].
Defined.

Lemma equal_states (l : list DrawPool.addArgs) :
  forallb (fun x => forallb (fun y => Painter.state_eqb (DrawPool.argState x)
                                                        (DrawPool.argState y)) l) l = true ->
  forall x y, x ∈ l -> y ∈ l ->
              Painter.state_eqb (DrawPool.argState x) (DrawPool.argState y) = true.
Proof.
  intros H x y Hx Hy. rewrite forallb_forall in H.
  apply list_elem_of_In in Hx, Hy. specialize (H x Hx). rewrite forallb_forall in H.
  apply (H y Hy).
Qed.

Lemma add_merges_equal_states_witness :
  (exists p',
      DrawPool.runCalls (E := sampleExternals) (DrawPool.addCall <$> sameState_example)
                        (plain_example [])
      = Ok (DrawPool.setCurrentPool p' (plain_example []))
      /\ Pool.m_objects p'
         = [Pool.mkDrawObject over_state Painter.Triangles
                              (DrawPool.argMethod <$> sameState_example) None])
  /\ (exists p',
         DrawPool.runCalls (E := sampleExternals) (DrawPool.addCall <$> filled_example)
                           (plain_example [])
         = Ok (DrawPool.setCurrentPool p' (plain_example []))
         /\ Pool.m_objects p'
            = [Pool.mkDrawObject sample_state Painter.Triangles
                                 [filledRect_example; filledRect_example] None])
  /\ exists d' p',
       DrawPool.runCalls (E := sampleExternals) (DrawPool.addCall <$> siblings_example)
                         (plain_example []) = Ok d'
       /\ d' = DrawPool.setCurrentPool p' (plain_example [])
       /\ Forall2 DrawPool.siblingOf siblings_example (Pool.m_objects p')
       /\ last (Pool.m_objects p') = DrawPool.objectOf <$> last siblings_example.
Proof.
  assert (Halt : DrawPool.statesAlternate siblings_example).
  { intros i x y Hx Hy. destruct i as [| [| i]]; try discriminate.
    injection Hx as <-. injection Hy as <-. vm_compute. reflexivity. }
  split; [| split].
  - apply (proj1 (add_merges_equal_states (E := sampleExternals) (plain_example [])
                    (Pool.mkPool [] sample_state true 0 None)
                    (DrawPool.mkAddArgs over_state
                       (texturedRect_example (mkPoint 32 0) (mkRect 0 0 31 31))
                       Painter.TriangleStrip)
                    (tail sameState_example) eq_refl eq_refl)).
    + apply (equal_states sameState_example). vm_compute. reflexivity.
    + apply (bool_decide_unpack _). vm_compute. exact I.
  - apply (proj1 (add_merges_equal_states (E := sampleExternals) (plain_example [])
                    (Pool.mkPool [] sample_state true 0 None)
                    (DrawPool.mkAddArgs sample_state filledRect_example
                                        Painter.TriangleStrip)
                    (tail filled_example) eq_refl eq_refl)).
    + apply (equal_states filled_example). vm_compute. reflexivity.
    + apply (bool_decide_unpack _). vm_compute. exact I.
  - destruct (proj2 (add_merges_equal_states (E := sampleExternals) (plain_example [])
                       (Pool.mkPool [] sample_state true 0 None)
                       (DrawPool.mkAddArgs
                          (texturedState (Some (texture_example 1 true true)))
                          (texturedRect_example (mkPoint 5 5) (mkRect 0 0 31 31))
                          Painter.TriangleStrip)
                       (tail siblings_example) eq_refl eq_refl) Halt)
      as (Hany & Htotal & _).
    destruct Htotal as (d' & Hd'); [repeat constructor; intros _; eexists; reflexivity |].
    destruct (Hany d' Hd') as (p' & Heq & Hall & Hlast).
    exists d', p'. auto.
Defined.

(** ** addRepeated *)

Lemma addRepeated_appends_to_first_match_witness :
  exists p',
    DrawPool.addRepeated (E := sampleExternals) sample_state filledRect_example
                         Painter.Triangles (plain_example [under_example])
    = Ok (DrawPool.setCurrentPool p' (plain_example [under_example]))
    /\ Pool.m_objects p'
       = [under_example]
         ++ [DrawPool.newObject sample_state Painter.Triangles filledRect_example].
Proof.
  apply (proj1 (proj2 (proj2 (proj2
           (addRepeated_appends_to_first_match (E := sampleExternals)
              sample_state filledRect_example Painter.Triangles
              (plain_example [under_example])
              (Pool.mkPool [under_example] sample_state true 0 None)
              eq_refl (Nat.le_0_l _)))))).
  intros j o _ Hj. destruct j as [| j]; simpl in Hj.
  - injection Hj as <-. reflexivity.
  - destruct j; discriminate.
Defined.

(** C6 fails on where the search starts: with the remembered index at
    1 and a single object, at position 0, whose state equals the given
    one, [addRepeated] appends the method to that object, which lies
    before the remembered index, and adds no object. *)
Lemma addRepeated_searches_before_remembered_index :
  Pool.m_indexToStartSearching marked_example = 1
  /\ Pool.m_objects marked_example = [object_example]
  /\ Painter.state_eqb (Pool.state object_example) sample_state = true
  /\ DrawPool.addRepeated (E := sampleExternals) sample_state filledRect_example
                          Painter.Triangles (DrawPool.mkDrawPool [marked_example] 0 0)
     = Ok (DrawPool.mkDrawPool
             [Pool.set_objects
                [DrawPool.push_back_method filledRect_example object_example]
                marked_example] 0 0).
Proof. repeat split; reflexivity. Qed.

(** ** updateHash *)

Lemma updateHash_folds_fields_witness :
  exists pf',
    DrawPool.updateHash (E := sampleExternals) over_state over_method
                        (framed_example 0 [])
    = Ok (DrawPool.setCurrentPool
            (Pool.set_framed pf' (framedPool_example 0 [])) (framed_example 0 []))
    /\ Pool.m_status pf'
       = (0, sample_hash_combine 0
               (fold_left sample_hash_combine
                  (DrawPool.hashedFields (E := sampleExternals) over_state over_method)
                  0)).
Proof.
  apply (proj1 (updateHash_folds_fields (E := sampleExternals) over_state over_method
                  (framed_example 0 []) (framedPool_example 0 []) eq_refl)
               (Pool.mkFramedPool (0, 0) false (mkRect 0 0 639 479) (mkRect 0 0 639 479)
                                  None None)).
  reflexivity.
Defined.

(** ** Auto-update *)

Lemma shader_forces_autoUpdate_witness :
  exists pf',
    Pool.framed (DrawPool.updateHash_pool (E := sampleExternals) shader_state
                   filledRect_example (framedPool_example 0 [])) = Some pf'
    /\ Pool.m_autoUpdate pf' = true
    /\ Pool.hasModification pf' = true
    /\ forall sh', exists pf'',
         Pool.framed (DrawPool.updateHash_pool (E := sampleExternals)
                        (Painter.set_shaderProgram sh' shader_state)
                        filledRect_example (framedPool_example 0 [])) = Some pf''
         /\ Pool.m_status pf'' = Pool.m_status pf'.
Proof.
  apply (proj1 (shader_forces_autoUpdate (E := sampleExternals))
               shader_state filledRect_example (framedPool_example 0 [])
               (Pool.mkFramedPool (0, 0) false (mkRect 0 0 639 479) (mkRect 0 0 639 479)
                                  None None) 7).
  - reflexivity.
  - reflexivity.
Defined.

(** ** Frames *)

Lemma calls_example_shaderFree : Forall DrawPool.shaderFree calls_example.
Proof. repeat constructor. Qed.

Lemma unchanged_frame_is_not_redrawn_witness :
  exists d2 p2 pf2,
    frameResult sampleExternals 0 calls_example
      (DrawPool.after (frameResult sampleExternals 0 calls_example (framed_example 0 [])))
    = DrawPool.draw d2
    /\ DrawPool.m_pools d2 !! O = Some p2
    /\ Pool.framed p2 = Some pf2
    /\ Pool.hasModification pf2 = false
    /\ (forall e,
          In e (DrawPool.preDrawEvents
                  (frameResult sampleExternals 0 calls_example
                     (DrawPool.after
                        (frameResult sampleExternals 0 calls_example
                                     (framed_example 0 []))))) ->
          e <> DrawPool.EvBind 0 /\ forall obj, e <> DrawPool.EvDrawObject 0 obj)
    /\ In (DrawPool.EvFramebufferDraw 0 (Pool.m_dest pf2) (Pool.m_src pf2))
          (DrawPool.drawEvents
             (frameResult sampleExternals 0 calls_example
                (DrawPool.after
                   (frameResult sampleExternals 0 calls_example (framed_example 0 []))))).
Proof.
  apply (proj1 (proj2 (unchanged_frame_is_not_redrawn (E := sampleExternals)))
               (framed_example 0 []) O (framedPool_example 0 []) 0 0 calls_example
               (frameResult sampleExternals 0 calls_example (framed_example 0 []))
               (frameResult sampleExternals 0 calls_example
                  (DrawPool.after
                     (frameResult sampleExternals 0 calls_example
                                  (framed_example 0 []))))).
  - reflexivity.
  - eexists. repeat split; reflexivity.
  - exact calls_example_shaderFree.
  - vm_compute. reflexivity.
  - vm_compute. reflexivity.
Defined.

(** ** The removal scan and null textures *)

(** C9 fails when [addTexturedRect] is given a null texture: the second
    of two such calls for one destination, with another source rect,
    dereferences the null texture of its state in the scan. *)
Lemma scan_dereferences_null_texture :
  Forall (fun p => Pool.m_objects p = []) (DrawPool.m_pools (plain_example []))
  /\ DrawPool.runRequests (E := sampleExternals) (requests_example None) (plain_example [])
     = Err NullTextureScan.
Proof. split; [repeat constructor | reflexivity]. Qed.

Lemma scan_never_dereferences_null_texture_witness :
  DrawPool.runRequests (E := sampleExternals)
    (requests_example (Some (texture_example 1 true true))) (plain_example [])
  <> Err NullTextureScan
  /\ forall d',
       DrawPool.runRequests (E := sampleExternals)
         (requests_example (Some (texture_example 1 true true))) (plain_example [])
       = Ok d' ->
       Forall DrawPool.scanSafe (DrawPool.m_pools d').
Proof.
  apply (scan_never_dereferences_null_texture (E := sampleExternals)).
  - repeat constructor.
  - repeat constructor; intros _; eexists; reflexivity.
Defined.

(** ** Tile: flags *)

Lemma tileflags_are_independent_witness :
  TileState.hasFlag (TileState.flagValue TileState.TILESTATE_HOUSE)
    (TileState.setFlag (TileState.flagValue TileState.TILESTATE_BED) tileState_example)
  = TileState.hasFlag (TileState.flagValue TileState.TILESTATE_HOUSE) tileState_example
  /\ TileState.hasFlag (TileState.flagValue TileState.TILESTATE_HOUSE)
       (TileState.remFlag (TileState.flagValue TileState.TILESTATE_BED) tileState_example)
     = TileState.hasFlag (TileState.flagValue TileState.TILESTATE_HOUSE) tileState_example.
Proof.
  apply (tileflags_are_independent TileState.TILESTATE_BED TileState.TILESTATE_HOUSE
           tileState_example).
  discriminate.
Defined.

Lemma setFlag_remFlag_round_trip_witness :
  TileState.remFlag (TileState.flagValue TileState.TILESTATE_BED)
    (TileState.setFlag (TileState.flagValue TileState.TILESTATE_BED) tileState_example)
  = tileState_example
  /\ TileState.setFlag (TileState.flagValue TileState.TILESTATE_HOUSE)
       (TileState.remFlag (TileState.flagValue TileState.TILESTATE_HOUSE) tileState_example)
     = tileState_example.
Proof.
  split.
  - apply (setFlag_remFlag_round_trip (TileState.flagValue TileState.TILESTATE_BED)
             tileState_example);
      [vm_compute; split; [discriminate | reflexivity]
      | vm_compute; split; [discriminate | reflexivity]
      | reflexivity].
  - apply (setFlag_remFlag_round_trip (TileState.flagValue TileState.TILESTATE_HOUSE)
             tileState_example);
      [vm_compute; split; [discriminate | reflexivity]
      | vm_compute; split; [discriminate | reflexivity]
      | reflexivity].
Defined.

(** ** add and addRepeated: what they leave in the pool *)

Lemma add_changes_counts_by_at_most_one_witness :
  exists p',
    resultOr (DrawPool.add (E := sampleExternals) sample_state filledRect_example
                Painter.Triangles (plain_example [object_example]))
             (plain_example [])
    = DrawPool.setCurrentPool p' (plain_example [object_example])
    /\ DrawPool.methodCount (Pool.m_objects p') = 2%nat.
Proof.
  destruct (add_changes_counts_by_at_most_one (E := sampleExternals)
              sample_state filledRect_example Painter.Triangles
              (plain_example [object_example])
              (resultOr (DrawPool.add (E := sampleExternals) sample_state filledRect_example
                           Painter.Triangles (plain_example [object_example]))
                        (plain_example []))
              (Pool.mkPool [object_example] sample_state true 0 None))
    as (p' & Hd & _ & _ & Hcount & _); [reflexivity | vm_compute; reflexivity |].
  exists p'. split; [exact Hd | apply Hcount; reflexivity].
Defined.

Lemma addRepeated_only_appends_witness :
  exists p',
    resultOr (DrawPool.addRepeated (E := sampleExternals) sample_state filledRect_example
                Painter.Triangles (plain_example [object_example]))
             (plain_example [])
    = DrawPool.setCurrentPool p' (plain_example [object_example])
    /\ DrawPool.methodCount (Pool.m_objects p') = 2%nat.
Proof.
  destruct (addRepeated_only_appends (E := sampleExternals)
              sample_state filledRect_example Painter.Triangles
              (plain_example [object_example])
              (resultOr (DrawPool.addRepeated (E := sampleExternals) sample_state
                           filledRect_example Painter.Triangles
                           (plain_example [object_example]))
                        (plain_example []))
              (Pool.mkPool [object_example] sample_state true 0 None))
    as (p' & Hd & Hcount & _); [reflexivity | vm_compute; reflexivity |].
  exists p'. split; [exact Hd | exact Hcount].
Defined.

(** ** Between two draws *)

Lemma methods_are_kept_until_draw_witness :
  exists p',
    DrawPool.m_pools
      (resultOr (DrawPool.runRequests (E := sampleExternals) kept_example
                   (plain_example [object_example]))
                (plain_example [])) !! 0%nat = Some p'
    /\ (1 <= DrawPool.methodCount (Pool.m_objects p'))%nat.
Proof.
  destruct (methods_are_kept_until_draw (E := sampleExternals) kept_example
              (plain_example [object_example])
              (resultOr (DrawPool.runRequests (E := sampleExternals) kept_example
                           (plain_example [object_example]))
                        (plain_example [])))
    as (_ & Hpools); [repeat constructor | vm_compute; reflexivity |].
  destruct (Hpools 0%nat (Pool.mkPool [object_example] sample_state true 0 None) eq_refl)
    as (p' & Hp' & Hcount & _).
  exists p'. split; [exact Hp' | exact Hcount].
Defined.

(** ** Actions *)

Lemma method_merged_into_action_is_not_drawn_witness :
  exists p',
    DrawPool.runCalls (E := sampleExternals)
      [DrawPool.CallAddAction (Some 1%nat);
       DrawPool.CallAdd sample_state filledRect_example Painter.TriangleStrip]
      (plain_example [])
    = Ok (DrawPool.setCurrentPool p' (plain_example []))
    /\ Pool.m_objects p'
       = [Pool.mkDrawObject sample_state Painter.Triangles [filledRect_example]
                            (Some 1%nat)].
Proof.
  destruct (method_merged_into_action_is_not_drawn (E := sampleExternals)
              sample_state filledRect_example Painter.TriangleStrip 1%nat
              (plain_example []) emptyPool_example)
    as (p' & Hrun & Hobj & _); [reflexivity | vm_compute; reflexivity |].
  exists p'. split; [exact Hrun | exact Hobj].
Defined.

(** ** Objects with several methods *)

Lemma objects_batched_by_add_are_triangles_witness :
  Pool.drawMode merged_example = Painter.Triangles
  /\ forall dest src,
       ~ In (DrawPool.addQuad dest src) (DrawPool.coordsOf merged_example)
       /\ ~ In (DrawPool.addUpsideDownQuad dest src) (DrawPool.coordsOf merged_example).
Proof.
  apply (objects_batched_by_add_are_triangles (E := sampleExternals)
           (DrawPool.addCall <$> sameState_example) emptyPool_example
           (resultOr (DrawPool.runCalls_pool (E := sampleExternals)
                        (DrawPool.addCall <$> sameState_example) emptyPool_example)
                     emptyPool_example)).
  - repeat constructor.
  - constructor.
  - vm_compute. reflexivity.
  - vm_compute. left. reflexivity.
  - simpl. lia.
Defined.

(** ** draw: what is replayed *)

Lemma emptied_framed_pool_keeps_its_image_witness :
  In (DrawPool.EvFramebufferDraw 0 (mkRect 0 0 639 479) (mkRect 0 0 639 479))
     (DrawPool.drawEvents (DrawPool.draw (framed_example 5 []))).
Proof.
  apply (emptied_framed_pool_keeps_its_image (framed_example 5 []) 0%nat
           (framedPool_example 5 [])
           (Pool.mkFramedPool (5, 0) false (mkRect 0 0 639 479) (mkRect 0 0 639 479)
                              None None));
    reflexivity.
Defined.

Lemma draw_replays_objects_in_order_witness :
  List.filter (DrawPool.ofPool 0)
              (DrawPool.drawEvents (DrawPool.draw (plain_example [object_example; object_example])))
  = [DrawPool.EvDrawObject 0 object_example; DrawPool.EvDrawObject 0 object_example].
Proof.
  apply (draw_replays_objects_in_order (plain_example [object_example; object_example]) 0%nat
           (Pool.mkPool [object_example; object_example] sample_state true 0 None));
    reflexivity.
Defined.

Lemma second_draw_replays_nothing_witness :
  In DrawPool.EvSaveAndResetState
     (DrawPool.drawEvents
        (DrawPool.draw (DrawPool.after (DrawPool.draw (framed_example 5 [object_example])))))
  /\ DrawPool.EvSaveAndResetState <> DrawPool.EvBind 0
  /\ DrawPool.EvSaveAndResetState <> DrawPool.EvRelease 0
  /\ forall obj, DrawPool.EvSaveAndResetState <> DrawPool.EvDrawObject 0 obj.
Proof.
  split; [vm_compute; left; reflexivity |].
  apply (second_draw_replays_nothing (framed_example 5 [object_example])
           DrawPool.EvSaveAndResetState).
  vm_compute. left. reflexivity.
Defined.

(** ** The framed use *)

Lemma framed_use_fixes_the_composition_witness :
  In (DrawPool.EvFramebufferDraw 0 (mkRect 0 0 99 99) (mkRect 10 10 109 109))
     (DrawPool.drawEvents
        (DrawPool.draw
           (resultOr
              (d1 ← DrawPool.useFramed (E := sampleExternals) 0 (mkRect 0 0 99 99)
                      (mkRect 10 10 109 109) (framed_example 0 []);
               DrawPool.runCalls (E := sampleExternals) calls_example d1)
              (framed_example 0 [])))).
Proof.
  destruct (framed_use_fixes_the_composition (E := sampleExternals) 0%nat
              (mkRect 0 0 99 99) (mkRect 10 10 109 109) calls_example sample_state
              (framed_example 0 [])
              (resultOr (DrawPool.useFramed (E := sampleExternals) 0 (mkRect 0 0 99 99)
                           (mkRect 10 10 109 109) (framed_example 0 []))
                        (framed_example 0 []))
              (resultOr
                 (d1 ← DrawPool.useFramed (E := sampleExternals) 0 (mkRect 0 0 99 99)
                         (mkRect 10 10 109 109) (framed_example 0 []);
                  DrawPool.runCalls (E := sampleExternals) calls_example d1)
                 (framed_example 0 [])))
    as (p2 & pf2 & Hp2 & _ & _ & _ & _ & _ & Hdraw);
    [vm_compute; reflexivity | vm_compute; reflexivity |].
  apply Hdraw. vm_compute in Hp2. injection Hp2 as <-. reflexivity.
Defined.

(** ** Filled rects and the painter's texture *)

Lemma filled_rect_carries_the_painters_texture_witness :
  exists p1 o1,
    DrawPool.addFilledRect (E := sampleExternals) (mkRect 0 0 31 31) Rect_null Color_white
                           sample_state (plain_example [])
    = Ok (DrawPool.setCurrentPool p1 (plain_example []))
    /\ Pool.m_objects p1 = [o1]
    /\ exists p2 o2,
         DrawPool.addFilledRect (E := sampleExternals) (mkRect 32 0 63 31) Rect_null
           Color_white (texturedState (Some (texture_example 1 true true)))
           (DrawPool.setCurrentPool p1 (plain_example []))
         = Ok (DrawPool.setCurrentPool p2 (plain_example []))
         /\ Pool.m_objects p2 = [o1; o2].
Proof.
  destruct (filled_rect_carries_the_painters_texture (E := sampleExternals)
              (mkRect 0 0 31 31) Rect_null (mkRect 32 0 63 31) Rect_null Color_white
              sample_state (texturedState (Some (texture_example 1 true true)))
              (plain_example []) emptyPool_example)
    as (p1 & o1 & Hadd1 & Hobj1 & _ & _ & Hsecond); try reflexivity.
  destruct (Hsecond eq_refl) as (p2 & o2 & Hadd2 & Hobj2 & _).
  exists p1, o1. split; [exact Hadd1 |]. split; [exact Hobj1 |].
  exists p2, o2. split; [exact Hadd2 | exact Hobj2].
Defined.

(** ** From the entry points to the painter *)

Lemma entry_points_reach_the_painter_witness :
  exists d',
    DrawPool.addBoundingRect (E := sampleExternals) (mkRect 0 0 31 31) Color_white 2
                             sample_state (plain_example []) = Ok d'
    /\ DrawPool.painted d'
       = DrawPool.singleDraw (Painter.set_color Color_white sample_state)
                             (DrawPool.addBoudingRect (mkRect 0 0 31 31) 2)
                             (defaultDrawMode (Externals := sampleExternals)).
Proof.
  destruct (entry_points_reach_the_painter (E := sampleExternals) sample_state
              (plain_example []) emptyPool_example sample_state)
    as (_ & _ & _ & Hbounding); try reflexivity.
  apply Hbounding; [reflexivity | discriminate].
Defined.

(** ** addRepeated after add *)

Lemma addRepeated_keeps_the_draw_mode_witness :
  exists p',
    DrawPool.runCalls_pool (E := sampleExternals)
      [DrawPool.CallAdd over_state over_method Painter.TriangleStrip;
       DrawPool.CallAddRepeated over_state repeatedRect_example Painter.Triangles]
      emptyPool_example = Ok p'
    /\ Pool.m_objects p'
       = [Pool.mkDrawObject over_state Painter.TriangleStrip
                            [over_method; repeatedRect_example] None].
Proof.
  destruct (addRepeated_keeps_the_draw_mode (E := sampleExternals) over_state over_method
              repeatedRect_example Painter.Triangles emptyPool_example)
    as (p' & Hrun & Hobj & _); try reflexivity.
  exists p'. split; [exact Hrun | exact Hobj].
Defined.
